(** * Packing List Generator: the helpers and [make_output_excel] of app.py

    A shallow embedding of the non-interactive part of [app.py]
    ([safe_sheet_name], [normalize], [guess_col], [make_output_excel] and the
    distinctness check of the page script) together with the properties the
    specification states about them, followed by the rest of the page script
    (the choice of the sheet, the defaults of the select boxes, the preview)
    and further properties of the code.

    Conventions of the model.
    - A Python [str] is a [string] of code points below U+0100; the
      character classes ([\s], [str.strip], [str.lower]) are the Unicode
      ones restricted to that range.
    - A cell of a data frame is null, an integer or a text ([cell]);
      floating point, dates and booleans are not modelled.
    - A raised exception is a value of [exn]; code that can raise returns a
      [result]. *)

From Stdlib Require Import ZArith NArith Ascii String List Bool Lia.
From stdpp Require Import base option list sorting strings pretty gmap.

Local Open Scope string_scope.
Local Open Scope list_scope.
Local Open Scope nat_scope.

(** ** Python strings *)

Module PyStr.

(** [c.isspace()], which is also the class [\s] of [re] on a [str]
    pattern: U+0009..U+000D, U+001C..U+0020, U+0085 and U+00A0. *)
Definition is_space (c : ascii) : bool :=
  let n := N_of_ascii c in
  ((9 <=? n) && (n <=? 13) || (28 <=? n) && (n <=? 32)
   || (n =? 133) || (n =? 160))%N.

(** [c.lower()]: the upper-case letters below U+0100 are A..Z and
    U+00C0..U+00DE without the multiplication sign U+00D7; each one is
    32 below its lower-case letter. *)
Definition lower_char (c : ascii) : ascii :=
  let n := N_of_ascii c in
  if ((65 <=? n) && (n <=? 90)
      || (192 <=? n) && (n <=? 222) && negb (n =? 215))%N
  then ascii_of_N (n + 32) else c.

Fixpoint map (f : ascii → ascii) (s : string) : string :=
  match s with
  | EmptyString => EmptyString
  | String c s' => String (f c) (map f s')
  end.

(** [s.lower()] *)
Definition lower (s : string) : string := map lower_char s.

(** [s.lstrip()] *)
Fixpoint lstrip (s : string) : string :=
  match s with
  | EmptyString => EmptyString
  | String c s' => if is_space c then lstrip s' else s
  end.

(** [s.rstrip()] *)
Fixpoint rstrip (s : string) : string :=
  match s with
  | EmptyString => EmptyString
  | String c s' =>
      match rstrip s' with
      | EmptyString => if is_space c then EmptyString else String c EmptyString
      | r => String c r
      end
  end.

(** [s.strip()] *)
Definition strip (s : string) : string := rstrip (lstrip s).

(** The slice [s[:n]]. *)
Fixpoint take (n : nat) (s : string) : string :=
  match n, s with
  | S n', String c s' => String c (take n' s')
  | _, _ => EmptyString
  end.

(** [re.sub(r"\s+", " ", s)]: every maximal run of white space becomes one
    space. [in_run] tells that the previous character was white space, so
    that the run has already been replaced. *)
Fixpoint sub_space_runs (in_run : bool) (s : string) : string :=
  match s with
  | EmptyString => EmptyString
  | String c s' =>
      if is_space c
      then if in_run then sub_space_runs true s'
           else String " " (sub_space_runs true s')
      else String c (sub_space_runs false s')
  end.

(** [p] is a prefix of [s]: [s.startswith(p)]. *)
Fixpoint startswith (p s : string) : bool :=
  match p, s with
  | EmptyString, _ => true
  | String a p', String b s' => if decide (a = b) then startswith p' s' else false
  | String _ _, EmptyString => false
  end.

(** [p in s], the substring test. *)
Fixpoint contains (p s : string) : bool :=
  startswith p s ||
  match s with
  | EmptyString => false
  | String _ s' => contains p s'
  end.

(** Every character of [s] is white space. *)
Fixpoint all_space (s : string) : bool :=
  match s with
  | EmptyString => true
  | String c s' => is_space c && all_space s'
  end.

(** The last character of [s], if any. *)
Fixpoint last (s : string) : option ascii :=
  match s with
  | EmptyString => None
  | String c EmptyString => Some c
  | String _ s' => last s'
  end.

Definition head (s : string) : option ascii := String.get 0 s.

(** The form of the output of [sub_space_runs]: white space is the space
    character, and no two white-space characters are adjacent. *)
Fixpoint single_spaced (in_run : bool) (s : string) : Prop :=
  match s with
  | EmptyString => True
  | String c s' =>
      if is_space c then c = " "%char ∧ in_run = false ∧ single_spaced true s'
      else single_spaced false s'
  end.

(** The character [c] occurs in [s]. *)
Fixpoint occurs (c : ascii) (s : string) : Prop :=
  match s with
  | EmptyString => False
  | String c' s' => c = c' ∨ occurs c s'
  end.

End PyStr.

(** ** The helpers of app.py *)

(** The character class [[:\\/?*\[\]]] of [safe_sheet_name]. *)
Definition forbidden (c : ascii) : bool :=
  match c with
  | ":" | "\" | "/" | "?" | "*" | "[" | "]" => true
  | _ => false
  end%char.

(** [re.sub(r"[:\\/?*\[\]]", "-", s)] *)
Definition sub_forbidden (s : string) : string :=
  PyStr.map (λ c, if forbidden c then "-"%char else c) s.

(** [[
def safe_sheet_name(name: str) -> str:
    name = re.sub(r"[:\\/?*\[\]]", "-", str(name)).strip()
    return (name if name else "Sheet")[:31]
]] *)
Definition safe_sheet_name (name : string) : string :=
  let name := PyStr.strip (sub_forbidden name) in
  PyStr.take 31 (if decide (name = "") then "Sheet" else name).

(** [[
def normalize(s: str) -> str:
    return re.sub(r"\s+", " ", str(s)).strip().lower()
]] *)
Definition normalize (s : string) : string :=
  PyStr.lower (PyStr.strip (PyStr.sub_space_runs false s)).

(** ** Python dictionaries

    A [dict] keeps its keys in insertion order; storing under a key that is
    already present replaces the value and leaves the key where it is. *)

Module PyDict.
Section dict.
Context {K V : Type} `{EqDecision K}.

(** [d[k] = v] *)
Fixpoint set (k : K) (v : V) (d : list (K * V)) : list (K * V) :=
  match d with
  | [] => [(k, v)]
  | (k', v') :: d' =>
      if decide (k = k') then (k', v) :: d' else (k', v') :: set k v d'
  end.

(** [d.get(k)] *)
Fixpoint get (k : K) (d : list (K * V)) : option V :=
  match d with
  | [] => None
  | (k', v') :: d' => if decide (k = k') then Some v' else get k d'
  end.

(** A dict display [{k1: v1, k2: v2, ...}] or comprehension: the items
    are stored from left to right. *)
Definition of_items (items : list (K * V)) : list (K * V) :=
  foldl (λ d kv, set kv.1 kv.2 d) [] items.

(** [list(d)] *)
Definition keys (d : list (K * V)) : list K := d.*1.
End dict.
End PyDict.

(** The inner loop of [guess_col]: the first item of [cols_norm] whose
    normalized header contains [phrase]. *)
Fixpoint guess_col_scan (phrase : string) (items : list (string * string))
  : option string :=
  match items with
  | [] => None
  | (c, cn) :: items' =>
      if PyStr.contains phrase cn then Some c else guess_col_scan phrase items'
  end.

(** The outer loop of [guess_col]. *)
Fixpoint guess_col_loop (cols_norm : list (string * string))
    (candidates : list string) : option string :=
  match candidates with
  | [] => None
  | phrase :: candidates' =>
      match guess_col_scan phrase cols_norm with
      | Some c => Some c
      | None => guess_col_loop cols_norm candidates'
      end
  end.

(** [[
def guess_col(columns, candidates):
    cols_norm = {c: normalize(c) for c in columns}
    for phrase in candidates:
        for c, cn in cols_norm.items():
            if phrase in cn:
                return c
    return None
]] *)
Definition guess_col (columns candidates : list string) : option string :=
  let cols_norm := PyDict.of_items ((λ c, (c, normalize c)) <$> columns) in
  guess_col_loop cols_norm candidates.

(** The rule of the specification, on the header list itself: for each
    phrase in order, the first header, in the given order, whose normalized
    form contains the phrase. *)
Fixpoint guessColumn (headers candidatePhrases : list string) : option string :=
  match candidatePhrases with
  | [] => None
  | phrase :: rest =>
      match List.find (λ h, PyStr.contains phrase (normalize h)) headers with
      | Some h => Some h
      | None => guessColumn headers rest
      end
  end.

(** ** Exceptions *)

Inductive exn :=
| KeyError (labels : list string)
| TypeError
| ValueError
| IndexError.

Inductive result (A : Type) :=
| Ok (a : A)
| Raise (e : exn).
Arguments Ok {A} a.
Arguments Raise {A} e.

Definition result_bind {A B} (r : result A) (k : A → result B) : result B :=
  match r with
  | Ok a => k a
  | Raise e => Raise e
  end.

Notation "'let?' x := r 'in' k" := (result_bind r (λ x, k))
  (at level 10, x name, r at level 100, k at level 200).

(** ** Data frames *)

(** A cell: null ([NaN] / [None]), an integer or a text. *)
Inductive cell :=
| NaN
| Num (z : Z)
| Str (s : string).

Global Instance cell_eq_dec : EqDecision cell.
Proof. solve_decision. Defined.

(** A frame: its column labels and its rows, every row holding one cell per
    column. The row labels are never used by the program. *)
Record DataFrame := mkDataFrame {
  columns : list string;
  rows : list (list cell)
}.

Definition notna (v : cell) : bool :=
  match v with NaN => false | _ => true end.

(** [columns.get_loc(c)], the position of the first column labelled [c]. *)
Fixpoint get_loc (c : string) (cols : list string) : option nat :=
  match cols with
  | [] => None
  | c' :: cols' => if decide (c = c') then Some 0 else S <$> get_loc c cols'
  end.

(** The cell at position [i] of a row. *)
Definition iloc (r : list cell) (i : nat) : cell := default NaN (r !! i).

(** The cell of row [r] under the column labelled [c]. *)
Definition cell_of (cols : list string) (r : list cell) (c : string) : cell :=
  match get_loc c cols with
  | Some i => iloc r i
  | None => NaN
  end.

(** [str(v)] as it appears in an f-string. *)
Definition str (v : cell) : string :=
  match v with
  | NaN => "nan"
  | Num z => pretty z
  | Str s => s
  end.

(** The order in which pandas sorts the distinct values of a key: integers
    by value, then texts by code points, then nulls. *)
Definition cell_leb (a b : cell) : bool :=
  match a, b with
  | Num x, Num y => (x <=? y)%Z
  | Num _, _ => true
  | Str _, Num _ => false
  | Str s, Str t => String.leb s t
  | Str _, NaN => true
  | NaN, NaN => true
  | NaN, _ => false
  end.

(** Keys of several columns are ordered column by column. *)
Fixpoint key_leb (k1 k2 : list cell) : bool :=
  match k1, k2 with
  | [], _ => true
  | _ :: _, [] => false
  | a :: k1', b :: k2' => if decide (a = b) then key_leb k1' k2' else cell_leb a b
  end.

Definition key_le (k1 k2 : list cell) : Prop := key_leb k1 k2 = true.

Global Instance key_le_dec : RelDecision key_le.
Proof. intros k1 k2. unfold key_le. apply _. Defined.

(** The cells of a row at the positions [locs]. *)
Definition key_of (locs : list nat) (r : list cell) : list cell :=
  iloc r <$> locs.

(** The positions of the labels [by], or the [KeyError] of the first
    label that is no column. *)
Fixpoint get_locs (by_ : list string) (cols : list string) : result (list nat) :=
  match by_ with
  | [] => Ok []
  | c :: by' =>
      match get_loc c cols with
      | Some i => let? locs := get_locs by' cols in Ok (i :: locs)
      | None => Raise (KeyError [c])
      end
  end.

(** [df.dropna(subset=subset)]: the rows without a null under the columns
    of [subset]; a [KeyError] listing the labels of [subset] that are no
    columns. *)
Definition dropna (subset : list string) (df : DataFrame) : result DataFrame :=
  match filter (λ c, c ∉ columns df) subset with
  | [] =>
      Ok (mkDataFrame (columns df)
            (filter (λ r, Forall (λ c, cell_of (columns df) r c ≠ NaN) subset)
                    (rows df)))
  | missing => Raise (KeyError missing)
  end.

(** [df[c]], a column read. *)
Definition getitem (c : string) (df : DataFrame) : result (list cell) :=
  match get_loc c (columns df) with
  | Some i => Ok ((λ r, iloc r i) <$> rows df)
  | None => Raise (KeyError [c])
  end.

(** [df[c] = values] for a column [c] that exists and one value per row. *)
Definition setitem (c : string) (values : list cell) (df : DataFrame) : DataFrame :=
  match get_loc c (columns df) with
  | Some i => mkDataFrame (columns df) (zip_with (λ r v, <[i := v]> r) (rows df) values)
  | None => mkDataFrame (columns df ++ [c]) (zip_with (λ r v, r ++ [v]) (rows df) values)
  end.

(** [.fillna(d)] *)
Definition fillna (d : Z) (v : cell) : cell :=
  match v with NaN => Num d | _ => v end.

(** The aggregations named in the [agg] dict. *)
Inductive aggfunc := AggSum | AggFirst.

(** ["sum"] adds the numbers of the group and skips nulls (the column it is
    applied to is numeric after line 41); ["first"] is the first value of
    the group that is not null, and null when there is none. *)
Definition agg_apply (f : aggfunc) (vs : list cell) : cell :=
  match f with
  | AggSum => Num (foldr (λ v acc, match v with Num z => z + acc | _ => acc end)%Z 0%Z vs)
  | AggFirst => default NaN (List.find notna vs)
  end.

(** The keys of the groups of [groupby]: the distinct keys without a null
    (dropna=True), in ascending order (sort=True). *)
Definition group_keys (locs : list nat) (rs : list (list cell)) : list (list cell) :=
  merge_sort key_le
    (remove_dups (filter (λ k, Forall (λ v, v ≠ NaN) k) (key_of locs <$> rs))).

(** The rows of the group of key [k], in the order of the frame. *)
Definition group_rows (locs : list nat) (k : list cell) (rs : list (list cell))
  : list (list cell) :=
  filter (λ r, key_of locs r = k) rs.

(** [df.groupby(by)], as the loop sees it: the keys in ascending order,
    each with the frame of its rows. *)
Definition groupby (by_ : list string) (df : DataFrame)
  : result (list (list cell * DataFrame)) :=
  let? locs := get_locs by_ (columns df) in
  Ok ((λ k, (k, mkDataFrame (columns df) (group_rows locs k (rows df))))
        <$> group_keys locs (rows df)).

(** The columns of the result of [groupby(by, as_index=False).agg(agg)]:
    the aggregated columns, before which the grouping labels that are not
    among them are inserted, from the last one to the first. *)
Definition insert_inaxis_grouper (by_ : list string) (cols : list string) : list string :=
  foldr (λ name cols, if decide (name ∈ cols) then cols else name :: cols) cols by_.

(** [df.groupby(by, as_index=False).agg(agg)] for labels of [agg] that are
    columns of [df]: one row per group, holding under a grouping label the
    key and under a label of [agg] the aggregate of that column over the
    group. *)
Definition groupby_agg (by_ : list string) (agg : list (string * aggfunc))
    (df : DataFrame) : result DataFrame :=
  let? groups := groupby by_ df in
  let cols := insert_inaxis_grouper by_ (PyDict.keys agg) in
  Ok (mkDataFrame cols
        ((λ '(k, g),
            (λ c, match PyDict.get c agg with
                  | Some f => agg_apply f ((λ r, cell_of (columns g) r c) <$> rows g)
                  | None => cell_of by_ k c
                  end) <$> cols) <$> groups)).

(** [g[cols]] for a list of labels: the named columns, in the order asked,
    a label asked twice giving two columns. *)
Definition getitem_list (cols : list string) (df : DataFrame) : result DataFrame :=
  let? locs := get_locs cols (columns df) in
  Ok (mkDataFrame cols (key_of locs <$> rows df)).

(** A column that holds both integers and texts cannot be sorted on its
    own: comparing an [int] with a [str] raises [TypeError]. *)
Definition mixed (vs : list cell) : bool :=
  existsb (λ v, match v with Num _ => true | _ => false end) vs
  && existsb (λ v, match v with Str _ => true | _ => false end) vs.

(** Rows compared by their cells at [locs]. *)
Definition rows_le (locs : list nat) (r1 r2 : list cell) : Prop :=
  key_le (key_of locs r1) (key_of locs r2).

Global Instance rows_le_dec locs : RelDecision (rows_le locs).
Proof. intros r1 r2. unfold rows_le. apply _. Defined.

(** The rows in ascending order of their cells at [locs]. *)
Definition sort_rows (locs : list nat) (rs : list (list cell)) : list (list cell) :=
  merge_sort (rows_le locs) rs.

(** [df.sort_values(by=c)], one label: the label must name exactly one
    column ([KeyError] for none, [ValueError] for several). *)
Definition sort_values (c : string) (df : DataFrame) : result DataFrame :=
  match filter (λ c', c' = c) (columns df) with
  | [] => Raise (KeyError [c])
  | [_] =>
      let? locs := get_locs [c] (columns df) in
      if mixed ((λ r, cell_of (columns df) r c) <$> rows df) then Raise TypeError
      else Ok (mkDataFrame (columns df) (sort_rows locs (rows df)))
  | _ => Raise ValueError
  end.

(** [df.sort_values(by)], a list of two or more labels: every label must
    name a column; the keys are ordered by [key_le], integers before texts. *)
Definition sort_values_list (by_ : list string) (df : DataFrame) : result DataFrame :=
  let? locs := get_locs by_ (columns df) in
  Ok (mkDataFrame (columns df) (sort_rows locs (rows df))).

(** [df.rename(columns=d)] *)
Definition rename (d : list (option string * string)) (df : DataFrame) : DataFrame :=
  mkDataFrame ((λ c, default c (PyDict.get (Some c) d)) <$> columns df) (rows df).

(** ** The workbook writer *)

(** A sheet as [to_excel(..., index=False)] writes it: a header row and the
    rows of the frame. *)
Record Sheet := mkSheet {
  sheet_name : string;
  header : list string;
  body : list (list cell)
}.

(** The body of the [with pd.ExcelWriter(...)] block: it appends sheets to
    the writer and may raise; the sheets written before an exception stay
    in the writer. The workbook is the sequence of the sheets written; how
    the writer stores two sheets of one name is not modelled. *)
Definition Writer (A : Type) : Type := list Sheet → result A * list Sheet.

Definition wret {A} (a : A) : Writer A := λ w, (Ok a, w).

Definition wbind {A B} (m : Writer A) (k : A → Writer B) : Writer B :=
  λ w, match m w with
       | (Ok a, w') => k a w'
       | (Raise e, w') => (Raise e, w')
       end.

Definition wlift {A} (r : result A) : Writer A := λ w, (r, w).

Notation "'let!' x := m 'in' k" := (wbind m (λ x, k))
  (at level 10, x name, m at level 100, k at level 200).

(** [df.to_excel(writer, sheet_name=name, index=False)] *)
Definition to_excel (df : DataFrame) (name : string) : Writer unit :=
  λ w, (Ok tt, w ++ [mkSheet name (columns df) (rows df)]).

(** Leaving the [with] block saves the book, also after an exception;
    saving a book without any sheet raises [IndexError]. Otherwise the
    exception of the body, if any, goes on. *)
Definition with_ExcelWriter {A} (block : Writer A) : result (list Sheet) :=
  match block [] with
  | (_, []) => Raise IndexError
  | (Ok _, w) => Ok w
  | (Raise e, _) => Raise e
  end.

(** [pd.DataFrame(index_rows)] for the dicts of the loop, each with the keys
    Class, Lesson, Sheet, Items: without any dict the frame has no column. *)
Definition index_frame (index_rows : list (list cell)) : DataFrame :=
  match index_rows with
  | [] => mkDataFrame [] []
  | _ => mkDataFrame ["Class"; "Lesson"; "Sheet"; "Items"] index_rows
  end.

(** ** make_output_excel *)

(** The truth value of an optional column name: [None] and the empty
    string are false. *)
Definition truthy (c : option string) : bool :=
  match c with
  | Some s => bool_decide (s ≠ "")
  | None => false
  end.

(** [c and c in cols] *)
Definition given_in (c : option string) (cols : list string) : option string :=
  match c with
  | Some s => if truthy c && bool_decide (s ∈ cols) then Some s else None
  | None => None
  end.

Section make_output_excel.

(** The reading of a text as a number by [pd.to_numeric], [None] for a
    text that is no number. *)
Variable str_to_number : string → option Z.

(** [pd.to_numeric(v, errors="coerce")] on one cell. *)
Definition to_numeric (v : cell) : cell :=
  match v with
  | NaN => NaN
  | Num z => Num z
  | Str s => match str_to_number s with Some z => Num z | None => NaN end
  end.

Variables (class_col lesson_col item_col qty_col : string).
Variables (size_col uom_col : option string).

(** Lines 40 to 50: cleaning, coercion of the quantity, grouping and
    aggregation; the result is [df2]. *)
Definition aggregate (df : DataFrame) : result DataFrame :=
  let? df := dropna [class_col; lesson_col; item_col] df in
  let? qty := getitem qty_col df in
  let df := setitem qty_col (fillna 0 <$> (to_numeric <$> qty)) df in
  let group_cols := [class_col; lesson_col; item_col] in
  let agg := [(qty_col, AggSum)] in
  let agg := match given_in size_col (columns df) with
             | Some c => PyDict.set c AggFirst agg
             | None => agg
             end in
  let agg := match given_in uom_col (columns df) with
             | Some c => PyDict.set c AggFirst agg
             | None => agg
             end in
  groupby_agg group_cols agg df.

(** The columns of a sheet, lines 60 to 62. *)
Definition out_cols_of (g : DataFrame) : list string :=
  [item_col; qty_col]
  ++ match given_in size_col (columns g) with Some c => [c] | None => [] end
  ++ match given_in uom_col (columns g) with Some c => [c] | None => [] end.

(** The dict display of lines 64 to 69; a key written twice keeps its
    last value. *)
Definition rename_dict : list (option string * string) :=
  PyDict.of_items
    [(Some item_col, "Item");
     (Some qty_col, "Quantity");
     (size_col, if truthy size_col then "Size" else "Size");
     (uom_col, if truthy uom_col then "Unit/Notes" else "Unit/Notes")].

(** One turn of the loop of line 57, for the group [g] of key
    [(class_name, lesson_name)]; it returns [index_rows] with the row of
    this sheet appended. *)
Definition write_group (index_rows : list (list cell))
    (kg : list cell * DataFrame) : Writer (list (list cell)) :=
  let '(k, g) := kg in
  let class_name := iloc k 0 in
  let lesson_name := iloc k 1 in
  let sheet := safe_sheet_name (str class_name +:+ " - " +:+ str lesson_name) in
  let out_cols := out_cols_of g in
  let! sel := wlift (getitem_list out_cols g) in
  let! sorted := wlift (sort_values item_col sel) in
  let out := rename rename_dict sorted in
  let! _ := to_excel out sheet in
  wret (index_rows ++ [[class_name; lesson_name; Str sheet;
                        Num (Z.of_nat (length (rows out)))]]).

(** The loop of line 57. *)
Fixpoint write_groups (index_rows : list (list cell))
    (groups : list (list cell * DataFrame)) : Writer (list (list cell)) :=
  match groups with
  | [] => wret index_rows
  | kg :: groups' =>
      let! index_rows := write_group index_rows kg in
      write_groups index_rows groups'
  end.

(** The [with] block, lines 55 to 74. *)
Definition write_workbook (df2 : DataFrame) : Writer unit :=
  let! groups := wlift (groupby [class_col; lesson_col] df2) in
  let! index_rows := write_groups [] groups in
  let! index := wlift (sort_values_list ["Class"; "Lesson"] (index_frame index_rows)) in
  to_excel index "INDEX".

(** [make_output_excel(df, class_col, lesson_col, item_col, qty_col,
    size_col, uom_col)]; the bytes returned stand for the workbook
    written. *)
Definition make_output_excel (df : DataFrame) : result (list Sheet) :=
  let? df2 := aggregate df in
  with_ExcelWriter (write_workbook df2).

End make_output_excel.

(** The reading of plain integer literals: an optional sign and decimal
    digits. Every reading of numbers agrees with it on these texts. *)
Fixpoint digits_value (acc : Z) (s : string) : option Z :=
  match s with
  | EmptyString => Some acc
  | String c s' =>
      match Ascii.is_nat c with
      | Some d => digits_value (10 * acc + Z.of_nat d) s'
      | None => None
      end
  end.

Definition int_literal (s : string) : option Z :=
  match s with
  | EmptyString => None
  | String "-" (String _ _ as s') => Z.opp <$> digits_value 0 s'
  | String "+" (String _ _ as s') => digits_value 0 s'
  | _ => digits_value 0 s
  end.

(** ** The page script *)

(** [df.dropna(axis=1, how="all")]: the columns with a cell that is not
    null; a table without rows keeps no column. *)
Definition dropna_columns (df : DataFrame) : DataFrame :=
  let kept := filter (λ j, Exists (λ r, iloc r j ≠ NaN) (rows df))
                (seq 0 (length (columns df))) in
  mkDataFrame ((λ j, default "" (columns df !! j)) <$> kept)
    (key_of kept <$> rows df).

(** [df.empty]: no row or no column. *)
Definition frame_empty (df : DataFrame) : bool :=
  bool_decide (rows df = [] ∨ columns df = []).

(** How a run of the script ends once a sheet is read: it stops with a
    message, or it calls [make_output_excel]. *)
Inductive page_outcome :=
| Stopped (message : string)
| Generated (r : result (list Sheet)).

(** Lines 152 and 153: the choice ["(none)"] of an optional select box
    becomes [None]. *)
Definition chosen (selection : string) : option string :=
  if decide (selection = "(none)") then None else Some selection.

(** Lines 111 to 170 for the table [df] read from the chosen sheet, the
    columns chosen in the select boxes (["(none)"] standing for no optional
    column) and the button pressed. *)
Definition page (str_to_number : string → option Z) (df : DataFrame)
    (class_col lesson_col item_col qty_col size_col uom_col : string)
  : page_outcome :=
  let df := dropna_columns df in
  if frame_empty df || bool_decide (length (columns df) = 0)
  then Stopped "This sheet looks empty or has no usable columns."
  else
    let required := [class_col; lesson_col; item_col; qty_col] in
    if decide (size (list_to_set required : gset string) < 4)
    then Stopped "Your required column selections must be four different columns."
    else
      let size_col := chosen size_col in
      let uom_col := chosen uom_col in
      Generated (make_output_excel str_to_number class_col lesson_col item_col
                   qty_col size_col uom_col df).

(** ** Notions of the specification *)

(** A frame as the reader of the workbook hands it over: distinct labels and
    one cell per column in every row. *)
Definition well_formed (df : DataFrame) : Prop :=
  NoDup (columns df) ∧ Forall (λ r, length r = length (columns df)) (rows df).

(** A role mapping is valid for a table when its four required columns are
    four distinct columns of the table; an optional column, when given, is
    none of the required ones. *)
Definition valid_mapping (cols : list string)
    (class_col lesson_col item_col qty_col : string)
    (size_col uom_col : option string) : Prop :=
  Forall (λ c, c ∈ cols) [class_col; lesson_col; item_col; qty_col]
  ∧ NoDup [class_col; lesson_col; item_col; qty_col]
  ∧ (∀ c, size_col = Some c → c ∉ [class_col; lesson_col; item_col; qty_col])
  ∧ (∀ c, uom_col = Some c → c ∉ [class_col; lesson_col; item_col; qty_col]).

Section roles.
Variables (df : DataFrame) (class_col lesson_col item_col : string).

(** The (class, lesson, item) values of a row. *)
Definition triple (r : list cell) : list cell :=
  cell_of (columns df) r <$> [class_col; lesson_col; item_col].

(** The rows that survive cleaning: class, lesson and item are not null. *)
Definition cleaned : list (list cell) :=
  filter (λ r, Forall (λ v, v ≠ NaN) (triple r)) (rows df).

(** The cleaned rows of one (class, lesson, item) triple, in table order. *)
Definition group_of (k : list cell) : list (list cell) :=
  filter (λ r, triple r = k) cleaned.
End roles.

(** The coerced quantity of a cell: its number, and zero for a null or a
    text that is no number. *)
Definition coerced (str_to_number : string → option Z) (v : cell) : Z :=
  match to_numeric str_to_number v with
  | Num z => z
  | _ => 0%Z
  end.

Definition sum_Z (zs : list Z) : Z := foldr Z.add 0%Z zs.

(** The first cell of a list that is not null, null when there is none. *)
Definition first_notna (vs : list cell) : cell := default NaN (List.find notna vs).

(** The optional columns that reach the output: those given, not empty and
    present in the table, each one once. *)
Definition optional_cols (cols : list string) (size_col uom_col : option string)
  : list string :=
  match given_in size_col cols, given_in uom_col cols with
  | Some a, Some b => if decide (a = b) then [a] else [a; b]
  | Some a, None => [a]
  | None, Some b => [b]
  | None, None => []
  end.

(** The row of the index for the sheet [s] of the group of key [k]. *)
Definition index_row_of (k : list cell) (s : Sheet) : list cell :=
  [iloc k 0; iloc k 1; Str (sheet_name s); Num (Z.of_nat (length (body s)))].

Section aggregated.
Variable str_to_number : string → option Z.
Variables (df : DataFrame) (class_col lesson_col item_col qty_col : string).
Variable opts : list string.

(** The triples of the cleaned rows, each once, in ascending order. *)
Definition aggregated_keys : list (list cell) :=
  merge_sort key_le
    (remove_dups (triple df class_col lesson_col item_col
                    <$> cleaned df class_col lesson_col item_col)).

(** The aggregated record of a triple: the triple, the sum of the coerced
    quantities of its rows, and for every optional column its first value
    that is not null. *)
Definition aggregated_row (k : list cell) : list cell :=
  let group := group_of df class_col lesson_col item_col k in
  k ++ Num (sum_Z ((λ r, coerced str_to_number (cell_of (columns df) r qty_col)) <$> group))
    :: ((λ oc, first_notna ((λ r, cell_of (columns df) r oc) <$> group)) <$> opts).

(** The aggregated table: the records of the triples in ascending order. *)
Definition aggregated_frame : DataFrame :=
  mkDataFrame ([class_col; lesson_col; item_col; qty_col] ++ opts)
    (aggregated_row <$> aggregated_keys).

(** The keys of the sheets: the (class, lesson) pairs of the records, each
    once, in ascending order. *)
Definition sheet_keys : list (list cell) :=
  group_keys [0; 1] (rows aggregated_frame).

(** The groups of line 57: every key with the records of its sheet. *)
Definition sheet_groups : list (list cell * DataFrame) :=
  (λ k, (k, mkDataFrame (columns aggregated_frame)
              (group_rows [0; 1] k (rows aggregated_frame)))) <$> sheet_keys.
End aggregated.

(** Line 41 on one row: the coerced quantity is written at position [iq]. *)
Definition coerce_row (str_to_number : string → option Z) (iq : nat)
    (r : list cell) : list cell :=
  <[iq := fillna 0 (to_numeric str_to_number (iloc r iq))]> r.

Section sheets.
Variables (item_col qty_col : string) (size_col uom_col : option string).

(** The sheet written for the group [g] of key [k]: its name, the renamed
    labels of its columns, and its rows in ascending order of the item. *)
Definition sheet_of_group (kg : list cell * DataFrame) (s : Sheet) : Prop :=
  ∃ sel sorted,
    getitem_list (out_cols_of item_col qty_col size_col uom_col kg.2) kg.2 = Ok sel
    ∧ sort_values item_col sel = Ok sorted
    ∧ s = mkSheet
            (safe_sheet_name (str (iloc kg.1 0) +:+ " - " +:+ str (iloc kg.1 1)))
            (columns (rename (rename_dict item_col qty_col size_col uom_col) sorted))
            (rows sorted).
End sheets.

(** ** Sample tables *)

Module Samples.

(** The three pencil rows of the specification. *)
Definition pencils : DataFrame :=
  mkDataFrame ["Class"; "Lesson"; "Item"; "Qty"]
    [ [Str "Math"; Str "L1"; Str "Pencil"; Str "3"];
      [Str "Math"; Str "L1"; Str "Pencil"; Str "2"];
      [Str "Math"; Str "L1"; Str "Pencil"; Str "abc"] ].

(** A table whose rows all lack the class or the lesson. *)
Definition incomplete : DataFrame :=
  mkDataFrame ["Class"; "Lesson"; "Item"; "Qty"]
    [ [NaN; Str "L1"; Str "Pencil"; Num 3];
      [Str "Math"; NaN; Str "Eraser"; Num 2] ].

(** A table without rows. *)
Definition no_rows : DataFrame :=
  mkDataFrame ["Class"; "Lesson"; "Item"; "Qty"] [].

(** Two rows of one triple, the first one without a size. *)
Definition late_size : DataFrame :=
  mkDataFrame ["Class"; "Lesson"; "Item"; "Qty"; "Size"]
    [ [Str "Math"; Str "L1"; Str "Pencil"; Num 3; NaN];
      [Str "Math"; Str "L1"; Str "Pencil"; Num 2; Str "HB"] ].

(** A table with one column of notes, chosen both as size and as unit. *)
Definition notes : DataFrame :=
  mkDataFrame ["Class"; "Lesson"; "Item"; "Qty"; "Notes"]
    [ [Str "Math"; Str "L1"; Str "Pencil"; Num 3; Str "box"] ].

(** A table with two classes and a row without lesson. *)
Definition supplies : DataFrame :=
  mkDataFrame ["Class"; "Lesson"; "Item"; "Qty"; "Size"]
    [ [Str "Math"; Str "L1"; Str "Pencil"; Str "3"; NaN];
      [Str "Art"; Str "L2"; Str "Brush"; Num 4; Str "S"];
      [Str "Math"; Str "L1"; Str "Eraser"; NaN; Str "M"];
      [Str "Math"; NaN; Str "Ruler"; Num 1; Str "L"];
      [Str "Math"; Str "L1"; Str "Pencil"; Str "2"; Str "HB"] ].

End Samples.

(** A closed decidable fact is settled by evaluating its decision. *)
Ltac by_evaluation := apply (bool_decide_unpack _); vm_compute; exact I.

(** ** The rest of the page script *)

(** The inner loop of lines 92 to 95: [preferred] becomes the first sheet
    whose normalized name contains [key], and is left as it was when there
    is none. *)
Fixpoint preferred_scan (key : string) (sheet_names : list string)
    (preferred : option string) : option string :=
  match sheet_names with
  | [] => preferred
  | s :: sheet_names' =>
      if PyStr.contains key (normalize s) then Some s
      else preferred_scan key sheet_names' preferred
  end.

(** The outer loop of lines 91 to 97; it is left as soon as [preferred] is
    true, that is, neither [None] nor the empty string. *)
Fixpoint preferred_loop (keys sheet_names : list string)
    (preferred : option string) : option string :=
  match keys with
  | [] => preferred
  | key :: keys' =>
      let preferred := preferred_scan key sheet_names preferred in
      if truthy preferred then preferred
      else preferred_loop keys' sheet_names preferred
  end.

(** Lines 90 to 97. *)
Definition preferred_sheet (sheet_names : list string) : option string :=
  preferred_loop ["master"; "purch"; "bulk"; "order"; "list"] sheet_names None.

(** [l.index(x)]: the position of the first [x], [ValueError] without one. *)
Definition list_index (x : string) (l : list string) : result nat :=
  match get_loc x l with
  | Some i => Ok i
  | None => Raise ValueError
  end.

(** The expression [options.index(x) if x in l else 0] of lines 102 and
    135 to 143, for a value [x] that is a text or [None]. *)
Definition index_if_in (x : option string) (l options : list string) : result nat :=
  match x with
  | Some v => if decide (v ∈ l) then list_index v options else Ok 0
  | None => Ok 0
  end.

(** The option a select box shows before the user picks one: the one at
    [index]; there is none when [index] is out of range. *)
Definition selectbox_default (options : list string) (index : nat) : option string :=
  options !! index.

(** The index given to the select box of the sheets, line 102. *)
Definition sheet_index (sheet_names : list string) : result nat :=
  index_if_in (preferred_sheet sheet_names) sheet_names sheet_names.

(** The guesses of the optional columns, lines 130 and 131. *)
Definition default_size (cols : list string) : option string :=
  guess_col cols ["size"].
Definition default_uom (cols : list string) : option string :=
  guess_col cols ["unit of measure"; "uom"; "units"; "unit"].

(** The index of a select box of a required column, lines 135 to 138. *)
Definition required_index (guess : option string) (cols : list string) : result nat :=
  index_if_in guess cols cols.

(** The index of a select box of an optional column, lines 140 to 143: the
    options are ["(none)"] and the columns. *)
Definition optional_index (guess : option string) (cols : list string) : result nat :=
  index_if_in guess cols ("(none)" :: cols).

(** [df.head(n)] *)
Definition DataFrame_head (n : nat) (df : DataFrame) : DataFrame :=
  mkDataFrame (columns df) (take n (rows df)).

(** The preview of line 156: the chosen columns, the optional ones when
    they are not [None], and the first 25 rows. *)
Definition preview (df : DataFrame)
    (class_col lesson_col item_col qty_col : string)
    (size_col uom_col : option string) : result DataFrame :=
  let chosen_cols :=
    omap id [Some class_col; Some lesson_col; Some item_col; Some qty_col;
             size_col; uom_col] in
  let? sel := getitem_list chosen_cols df in
  Ok (DataFrame_head 25 sel).

(** ** Further notions used in the statements *)

(** The form of a normalized text: no character that [lower] would change,
    and no white space except single spaces that stand between two other
    characters. *)
Definition normal_form (s : string) : Prop :=
  ∀ i c, String.get i s = Some c →
    PyStr.lower_char c = c
    ∧ (PyStr.is_space c = true →
         c = " "%char ∧ 0 < i
         ∧ ∃ d, String.get (S i) s = Some d ∧ PyStr.is_space d = false).

(** The number in a cell of a sheet, zero for a cell that holds no number. *)
Definition number_of (v : cell) : Z :=
  match v with
  | Num z => z
  | _ => 0%Z
  end.

(** The items of the cleaned rows of the class and lesson [k]. *)
Definition sheet_items (df : DataFrame) (class_col lesson_col item_col : string)
    (k : list cell) : list cell :=
  (λ r, cell_of (columns df) r item_col)
    <$> filter (λ r, [cell_of (columns df) r class_col;
                      cell_of (columns df) r lesson_col] = k)
          (cleaned df class_col lesson_col item_col).

(** ** More sample tables *)

Module Uploads.

(** An export with a column that holds no value. *)
Definition with_blank : DataFrame :=
  mkDataFrame ["Class"; "Blank"; "Lesson"; "Item"; "Qty"]
    [ [Str "Math"; NaN; Str "L1"; Str "Pencil"; Num 3];
      [Str "Art"; NaN; Str "L2"; Str "Brush"; NaN] ].

(** A table with three columns. *)
Definition three_columns : DataFrame :=
  mkDataFrame ["Class"; "Lesson"; "Item"]
    [ [Str "Math"; Str "L1"; Str "Pencil"] ].

(** The table [Samples.supplies] with its columns in another order and a
    column more. *)
Definition supplies_wide : DataFrame :=
  mkDataFrame ["Qty"; "Room"; "Item"; "Size"; "Lesson"; "Class"]
    [ [Str "3"; Str "A1"; Str "Pencil"; NaN; Str "L1"; Str "Math"];
      [Num 4; Str "B2"; Str "Brush"; Str "S"; Str "L2"; Str "Art"];
      [NaN; NaN; Str "Eraser"; Str "M"; Str "L1"; Str "Math"];
      [Num 1; Str "A1"; Str "Ruler"; Str "L"; NaN; Str "Math"];
      [Str "2"; Str "C3"; Str "Pencil"; Str "HB"; Str "L1"; Str "Math"] ].

End Uploads.

(** * Properties *)

(** ** Characters *)

Lemma is_space_lower_char c : PyStr.is_space (PyStr.lower_char c) = PyStr.is_space c.
Proof. by destruct c as [[] [] [] [] [] [] [] []]. Qed.

Lemma lower_char_idemp c : PyStr.lower_char (PyStr.lower_char c) = PyStr.lower_char c.
Proof. by destruct c as [[] [] [] [] [] [] [] []]. Qed.

(** ** Strings *)

Section strings.
Import PyStr.

Lemma str_app_cons c s t : String c s +:+ t = String c (s +:+ t).
Proof. reflexivity. Qed.

Lemma str_app_nil_l t : "" +:+ t = t.
Proof. reflexivity. Qed.

Lemma str_app_nil_inv s t : s = s +:+ t → t = "".
Proof.
  induction s as [|c s IH]; [by rewrite str_app_nil_l|].
  rewrite str_app_cons. intros [= H]. by apply IH.
Qed.

Lemma length_map f s : String.length (map f s) = String.length s.
Proof. induction s; simpl; congruence. Qed.

Lemma get_map f s i :
  String.get i (map f s) = f <$> String.get i s.
Proof.
  revert i. induction s as [|c s IH]; intros [|i]; simpl; auto.
Qed.

Lemma map_app f s t : map f (s +:+ t) = map f s +:+ map f t.
Proof. induction s as [|c s IH]; [done|]. rewrite str_app_cons. simpl. by rewrite IH. Qed.

Lemma length_take n s : String.length (take n s) = min n (String.length s).
Proof.
  revert s. induction n as [|n IH]; intros [|c s]; simpl; try done.
  by rewrite IH.
Qed.

Lemma take_prefix n s : ∃ rest, s = take n s +:+ rest.
Proof.
  revert s. induction n as [|n IH]; intros s.
  - exists s. by destruct s.
  - destruct s as [|c s]; [by exists ""|].
    destruct (IH s) as [rest Hr]. exists rest. simpl.
    change (String c (take n s) +:+ rest) with (String c (take n s +:+ rest)).
    by rewrite <- Hr.
Qed.

Lemma take_all n s : String.length s ≤ n → take n s = s.
Proof.
  revert s. induction n as [|n IH]; intros [|c s]; simpl; try done; [lia|].
  intros. f_equal. apply IH. lia.
Qed.

(** A slice shorter than its bound is the whole string. *)
Lemma take_short n s u : take n s = u → String.length u < n → s = u.
Proof.
  intros <-. rewrite length_take. intros. symmetry. apply take_all. lia.
Qed.

Lemma lstrip_split s : ∃ l, s = l +:+ lstrip s ∧ all_space l = true.
Proof.
  induction s as [|c s (l & Hl & Hs)]; [by exists ""|]. simpl.
  destruct (is_space c) eqn:Hc.
  - exists (String c l). split; [|by simpl; rewrite Hc].
    change (String c l +:+ lstrip s) with (String c (l +:+ lstrip s)).
    by rewrite <- Hl.
  - by exists "".
Qed.

Lemma rstrip_split s : ∃ r, s = rstrip s +:+ r ∧ all_space r = true.
Proof.
  induction s as [|c s (r & Hr & Hs)]; [by exists ""|]. simpl.
  destruct (rstrip s) as [|c' t] eqn:Ht.
  - destruct (is_space c) eqn:Hc.
    + exists (String c r). split; [|by simpl; rewrite Hc].
      by rewrite Hr at 1.
    + exists r. split; [|done]. by rewrite Hr at 1.
  - exists r. split; [|done]. by rewrite Hr at 1.
Qed.

Lemma head_lstrip s c : head (lstrip s) = Some c → is_space c = false.
Proof.
  induction s as [|c' s IH]; simpl; [done|].
  destruct (is_space c') eqn:Hc; [done|]. unfold head; simpl. congruence.
Qed.

Lemma last_rstrip s c : last (rstrip s) = Some c → is_space c = false.
Proof.
  induction s as [|c' s IH]; simpl; [done|].
  destruct (rstrip s) as [|c'' t] eqn:Ht.
  - destruct (is_space c') eqn:Hc; simpl; [done|]. congruence.
  - intros H. apply IH. exact H.
Qed.

Lemma head_rstrip s c :
  head s = Some c → is_space c = false → head (rstrip s) = Some c.
Proof.
  destruct s as [|c' s]; unfold head; simpl; [done|].
  intros [= ->] Hc. destruct (rstrip s); [by rewrite Hc|done].
Qed.

Lemma lstrip_fixed s :
  (∀ c, head s = Some c → is_space c = false) → lstrip s = s.
Proof.
  destruct s as [|c s]; simpl; [done|]. intros H.
  by rewrite (H c eq_refl).
Qed.

Lemma lstrip_rstrip_lstrip s : lstrip (rstrip (lstrip s)) = rstrip (lstrip s).
Proof.
  apply lstrip_fixed. intros c Hc.
  destruct (lstrip s) as [|c' t] eqn:Ht; [done|].
  assert (is_space c' = false) as Hc' by (apply (head_lstrip s); by rewrite Ht).
  rewrite (head_rstrip (String c' t) c') in Hc by done. congruence.
Qed.

Lemma rstrip_idemp s : rstrip (rstrip s) = rstrip s.
Proof.
  induction s as [|c s IH]; simpl; [done|].
  destruct (rstrip s) as [|c' t] eqn:Ht.
  - destruct (is_space c) eqn:Hc; simpl; [done|]. by rewrite Hc.
  - simpl in IH |- *. by rewrite IH.
Qed.

Lemma single_spaced_sub b s : single_spaced b (sub_space_runs b s).
Proof.
  revert b. induction s as [|c s IH]; intros b; simpl; [done|].
  destruct (is_space c) eqn:Hc.
  - destruct b; [apply IH|]. simpl. by split_and!.
  - simpl. rewrite Hc. apply IH.
Qed.

Lemma sub_single_spaced b s : single_spaced b s → sub_space_runs b s = s.
Proof.
  revert b. induction s as [|c s IH]; intros b; simpl; [done|].
  destruct (is_space c).
  - intros (-> & -> & ?). f_equal. by apply IH.
  - intros ?. f_equal. by apply IH.
Qed.

Lemma single_spaced_lstrip b s : single_spaced b s → single_spaced false (lstrip s).
Proof.
  revert b. induction s as [|c s IH]; intros b; simpl; [done|].
  destruct (is_space c) eqn:Hc.
  - intros (_ & _ & ?). by eapply IH.
  - intros ?. simpl. by rewrite Hc.
Qed.

Lemma single_spaced_rstrip b s : single_spaced b s → single_spaced b (rstrip s).
Proof.
  revert b. induction s as [|c s IH]; intros b; simpl; [done|].
  destruct (is_space c) eqn:Hc.
  - intros (-> & -> & H%IH). destruct (rstrip s); [done|].
    simpl. by split_and!.
  - intros H%IH. destruct (rstrip s); simpl; by rewrite Hc.
Qed.

Lemma lstrip_lower s : lstrip (lower s) = lower (lstrip s).
Proof.
  induction s as [|c s IH]; simpl; [done|].
  rewrite is_space_lower_char. by destruct (is_space c).
Qed.

Lemma rstrip_lower s : rstrip (lower s) = lower (rstrip s).
Proof.
  induction s as [|c s IH]; simpl; [done|]. fold (lower s).
  rewrite IH, is_space_lower_char.
  destruct (rstrip s); simpl; [by destruct (is_space c)|done].
Qed.

Lemma sub_space_runs_lower b s :
  sub_space_runs b (lower s) = lower (sub_space_runs b s).
Proof.
  revert b. induction s as [|c s IH]; intros b; simpl; [done|].
  fold (lower s). rewrite is_space_lower_char.
  destruct (is_space c); [destruct b|]; simpl; by rewrite IH.
Qed.

Lemma lower_idemp s : lower (lower s) = lower s.
Proof. unfold lower. induction s; simpl; [done|]. by rewrite lower_char_idemp; f_equal. Qed.

(** The substring test finds exactly the occurrences. *)
Lemma startswith_spec p s : startswith p s = true ↔ ∃ b, s = p +:+ b.
Proof.
  revert s. induction p as [|a p IH]; intros s; simpl.
  - split; [by exists s|done].
  - destruct s as [|c s]; [split; [done|by intros [? ?]]|].
    case_decide as Hac; [subst; rewrite IH|]; split.
    + intros [b ->]. by exists b.
    + intros [b Hb]. rewrite str_app_cons in Hb. injection Hb as ->. by exists b.
    + done.
    + intros [b Hb]. rewrite str_app_cons in Hb. congruence.
Qed.

Lemma contains_spec p s : contains p s = true ↔ ∃ a b, s = a +:+ p +:+ b.
Proof.
  induction s as [|c s IH]; simpl.
  - rewrite orb_false_r, startswith_spec. split.
    + intros [b ->]. by exists "", b.
    + intros ([|??] & b & H); [by exists b|by rewrite str_app_cons in H].
  - rewrite orb_true_iff, startswith_spec, IH. split.
    + intros [[b ->]|(a & b & ->)]; [by exists "", b|by exists (String c a), b].
    + intros ([|c' a] & b & H); [left; by exists b|right].
      rewrite str_app_cons in H. injection H as -> ->. by exists a, b.
Qed.

Lemma occurs_app c s t : occurs c (s +:+ t) ↔ occurs c s ∨ occurs c t.
Proof.
  induction s as [|c' s IH]; [rewrite str_app_nil_l; simpl; tauto|].
  rewrite str_app_cons. simpl. tauto.
Qed.

Lemma occurs_lstrip c s : is_space c = false → occurs c s → occurs c (lstrip s).
Proof.
  intros Hc. induction s as [|c' s IH]; simpl; [done|].
  destruct (is_space c') eqn:Hc'; [|done]. intros [->|?]; [congruence|auto].
Qed.

Lemma occurs_rstrip c s : is_space c = false → occurs c s → occurs c (rstrip s).
Proof.
  intros Hc. induction s as [|c' s IH]; simpl; [done|].
  intros [<-|H%IH].
  - destruct (rstrip s); [rewrite Hc|]; simpl; auto.
  - destruct (rstrip s); [done|]. simpl in *. tauto.
Qed.
End strings.

(** A sheet name made of two parts joined by [" - "] keeps its hyphen, so
    that it is never the name of the index sheet. *)
Lemma safe_sheet_name_not_INDEX a b : safe_sheet_name (a +:+ " - " +:+ b) ≠ "INDEX".
Proof.
  unfold safe_sheet_name.
  set (t := PyStr.strip _).
  assert (PyStr.occurs "-" t) as Ht.
  { apply occurs_rstrip, occurs_lstrip; try done.
    unfold sub_forbidden. rewrite !map_app, !occurs_app. right; left.
    simpl. tauto. }
  case_decide as Hd; [rewrite Hd in Ht; done|].
  intros H. apply take_short in H; [|simpl; lia].
  rewrite H in Ht. simpl in Ht. intuition discriminate.
Qed.

(** C10 — [normalize] is idempotent: normalizing a normalized string
    changes nothing. *)
Theorem normalize_idempotent (s : string) : normalize (normalize s) = normalize s.
Proof.
  unfold normalize, PyStr.strip.
  rewrite sub_space_runs_lower, lstrip_lower, rstrip_lower, lower_idemp.
  f_equal.
  rewrite (sub_single_spaced false).
  - by rewrite lstrip_rstrip_lstrip, rstrip_idemp.
  - apply single_spaced_rstrip, (single_spaced_lstrip false), single_spaced_sub.
Qed.

(** C9 — [safe_sheet_name] replaces each of the characters [: \ / ? * [ ]]
    by a hyphen and leaves the other characters, trims the white space around
    the result, takes ["Sheet"] when nothing is left, and keeps at most the
    first 31 characters; class ["Art: Intro"] with lesson ["Unit 1/2"] gives
    ["Art- Intro - Unit 1-2"]. *)
Theorem safe_sheet_name_spec (name : string) :
  let replaced := sub_forbidden name in
  let trimmed := PyStr.strip replaced in
  (String.length replaced = String.length name
   ∧ ∀ i c, String.get i name = Some c →
       String.get i replaced = Some (if forbidden c then "-"%char else c))
  ∧ (∃ l r, replaced = l +:+ trimmed +:+ r
       ∧ PyStr.all_space l = true ∧ PyStr.all_space r = true
       ∧ (∀ c, PyStr.head trimmed = Some c → PyStr.is_space c = false)
       ∧ (∀ c, PyStr.last trimmed = Some c → PyStr.is_space c = false))
  ∧ (∃ rest, (if decide (trimmed = "") then "Sheet" else trimmed)
               = safe_sheet_name name +:+ rest
       ∧ (rest ≠ "" → String.length (safe_sheet_name name) = 31))
  ∧ String.length (safe_sheet_name name) ≤ 31
  ∧ safe_sheet_name ("Art: Intro" +:+ " - " +:+ "Unit 1/2") = "Art- Intro - Unit 1-2".
Proof.
  intros replaced trimmed. split_and!.
  - apply length_map.
  - intros i c Hi. unfold replaced, sub_forbidden. by rewrite get_map, Hi.
  - destruct (lstrip_split replaced) as (l & Hl & Hls).
    destruct (rstrip_split (PyStr.lstrip replaced)) as (r & Hr & Hrs).
    exists l, r. split_and!; try done.
    + by rewrite Hl at 1; rewrite Hr at 1.
    + intros c Hc. unfold trimmed, PyStr.strip in Hc.
      rewrite <- lstrip_rstrip_lstrip in Hc. by apply head_lstrip in Hc.
    + intros c. apply last_rstrip.
  - unfold safe_sheet_name. fold replaced trimmed.
    set (u := if decide (trimmed = "") then "Sheet" else trimmed).
    destruct (take_prefix 31 u) as [rest Hrest]. exists rest. split; [done|].
    intros Hne. rewrite length_take.
    destruct (decide (String.length u ≤ 31)) as [Hle|]; [|lia].
    rewrite (take_all _ _ Hle) in Hrest. destruct Hne.
    by apply (str_app_nil_inv u).
  - unfold safe_sheet_name. rewrite length_take. lia.
  - reflexivity.
Qed.


(** ** Dictionaries and [guess_col] *)

Section dict_facts.
Context {K V : Type} `{EqDecision K}.
Implicit Types (d : list (K * V)).

Lemma of_items_snoc (items : list (K * V)) kv :
  PyDict.of_items (items ++ [kv]) = PyDict.set kv.1 kv.2 (PyDict.of_items items).
Proof. unfold PyDict.of_items. by rewrite foldl_app. Qed.

Lemma get_set k k' (v : V) d :
  PyDict.get k' (PyDict.set k v d) = if decide (k' = k) then Some v else PyDict.get k' d.
Proof.
  induction d as [|[k0 v0] d IH]; simpl; [done|].
  destruct (decide (k = k0)) as [->|Hk]; simpl.
  - by destruct (decide (k' = k0)).
  - rewrite IH. destruct (decide (k' = k0)) as [->|]; [|done].
    by rewrite decide_False.
Qed.

End dict_facts.

Lemma find_snoc {A} (P : A → bool) l x :
  List.find P (l ++ [x])
  = match List.find P l with Some y => Some y | None => if P x then Some x else None end.
Proof. induction l as [|y l IH]; simpl; [done|]. by destruct (P y). Qed.

Lemma find_Some_lookup {A} (P : A → bool) l x :
  List.find P l = Some x ↔
  ∃ j, l !! j = Some x ∧ P x = true
       ∧ ∀ j' y, j' < j → l !! j' = Some y → P y = false.
Proof.
  induction l as [|y l IH]; simpl.
  - split; [done|]. by intros (j & ? & _).
  - destruct (P y) eqn:Hy.
    + split.
      * intros [= ->]. exists 0. split_and!; [done..|]. intros; lia.
      * intros ([|j] & Hj & Hx & Hlt); [by injection Hj as ->|].
        specialize (Hlt 0 y). rewrite Hlt in Hy; [done|lia|done].
    + rewrite IH. split.
      * intros (j & ? & ? & Hlt). exists (S j). split_and!; [done..|].
        intros [|j'] z ?; simpl; [congruence|]. apply Hlt. lia.
      * intros ([|j] & Hj & Hx & Hlt); simpl in Hj; [congruence|].
        exists j. split_and!; [done..|]. intros j' z ??. apply (Hlt (S j')); [lia|done].
Qed.

Lemma find_None_iff {A} (P : A → bool) l :
  List.find P l = None ↔ ∀ x, x ∈ l → P x = false.
Proof.
  induction l as [|y l IH]; simpl.
  - split; [|done]. by intros _ x ?%elem_of_nil.
  - destruct (P y) eqn:Hy.
    + split; [done|]. intros H. rewrite H in Hy; [done|constructor].
    + rewrite IH. split.
      * intros H x [->|?]%elem_of_cons; auto.
      * intros H x ?. apply H. by constructor.
Qed.

(** In a dict whose values are a function [g] of the keys, storing [g k]
    under [k] adds [k] to the scan after the keys already there. *)
Lemma guess_col_scan_set (g : string → string) phrase k d :
  Forall (λ kv, kv.2 = g kv.1) d →
  Forall (λ kv : string * string, kv.2 = g kv.1) (PyDict.set k (g k) d)
  ∧ guess_col_scan phrase (PyDict.set k (g k) d)
    = match guess_col_scan phrase d with
      | Some h => Some h
      | None => if PyStr.contains phrase (g k) then Some k else None
      end.
Proof.
  induction d as [|[k0 v0] d IH]; simpl.
  - intros _. split; [by repeat constructor|done].
  - intros [Hv Hd]%Forall_cons. simpl in Hv. subst v0.
    destruct (IH Hd) as [IH1 IH2]. case_decide as Hk; simpl.
    + subst k0. split; [by constructor|].
      destruct (PyStr.contains phrase (g k)); [done|].
      by destruct (guess_col_scan phrase d).
    + split; [by constructor|]. rewrite IH2.
      by destruct (PyStr.contains phrase (g k0)).
Qed.

Lemma guess_col_scan_of_items (g : string → string) phrase cols :
  Forall (λ kv, kv.2 = g kv.1) (PyDict.of_items ((λ c, (c, g c)) <$> cols))
  ∧ guess_col_scan phrase (PyDict.of_items ((λ c, (c, g c)) <$> cols))
    = List.find (λ h, PyStr.contains phrase (g h)) cols.
Proof.
  induction cols as [|c cols [IH1 IH2]] using rev_ind; [by split|].
  rewrite fmap_app, list_fmap_singleton, of_items_snoc. cbn [fst snd].
  destruct (guess_col_scan_set g phrase c _ IH1) as [H1 H2].
  split; [done|]. by rewrite H2, IH2, find_snoc.
Qed.

(** [guess_col] follows the rule of the specification. *)
Lemma guess_col_guessColumn columns candidates :
  guess_col columns candidates = guessColumn columns candidates.
Proof.
  unfold guess_col. induction candidates as [|p ps IH]; simpl; [done|].
  destruct (guess_col_scan_of_items normalize p columns) as [_ ->].
  by rewrite IH.
Qed.

(** C6 — [guess_col] tries the phrases in their order and, for each phrase,
    the headers in their order, and returns the first header whose normalized
    form contains the phrase as a substring: the header returned is the first
    match of the first phrase that matches any header, whatever later phrases
    match; it returns nothing exactly when no phrase is contained in any
    normalized header. *)
Theorem guess_col_first_match (columns candidates : list string) :
  guess_col columns candidates = guessColumn columns candidates
  ∧ (∀ h, guess_col columns candidates = Some h ↔
       ∃ i phrase j,
         candidates !! i = Some phrase ∧ columns !! j = Some h
         ∧ PyStr.contains phrase (normalize h) = true
         ∧ (∀ j' h', j' < j → columns !! j' = Some h' →
              PyStr.contains phrase (normalize h') = false)
         ∧ (∀ i' phrase' h', i' < i → candidates !! i' = Some phrase' →
              h' ∈ columns → PyStr.contains phrase' (normalize h') = false))
  ∧ (guess_col columns candidates = None ↔
       ∀ phrase h, phrase ∈ candidates → h ∈ columns →
         PyStr.contains phrase (normalize h) = false)
  ∧ (∀ p s, PyStr.contains p s = true ↔ ∃ a b, s = a +:+ p +:+ b)
  ∧ guess_col ["Unit"; "Lesson"] ["lesson"; "unit"] = Some "Lesson".
Proof.
  split; [apply guess_col_guessColumn|].
  rewrite guess_col_guessColumn. split_and!; [| |apply contains_spec|done].
  - intros h. induction candidates as [|p ps IH]; simpl.
    + split; [done|]. by intros (i & ? & ? & ? & _).
    + destruct (List.find _ columns) as [h0|] eqn:Hfind.
      * split.
        -- intros [= ->]. apply find_Some_lookup in Hfind as (j & ? & ? & ?).
           exists 0, p, j. split_and!; [done..|]. intros; lia.
        -- intros ([|i] & phrase & j & Hi & Hj & Hm & Hfirst & Hprev).
           ++ injection Hi as ->. f_equal.
              apply find_Some_lookup in Hfind as (j0 & Hj0 & Hm0 & Hfirst0).
              destruct (Nat.lt_trichotomy j j0) as [?|[->|?]].
              ** rewrite (Hfirst0 j h) in Hm; done.
              ** congruence.
              ** rewrite (Hfirst j0 h0) in Hm0; done.
           ++ apply find_Some_lookup in Hfind as (j0 & Hj0 & Hm0 & _).
              rewrite (Hprev 0 p h0) in Hm0; [done|lia|done|].
              by eapply list_elem_of_lookup_2.
      * rewrite IH. rewrite find_None_iff in Hfind. split.
        -- intros (i & phrase & j & ? & ? & ? & ? & Hprev).
           exists (S i), phrase, j. split_and!; [done..|].
           intros [|i'] p' h' ? Hp' ?; simpl in Hp'.
           ++ injection Hp' as <-. by apply Hfind.
           ++ apply (Hprev i'); [lia|done..].
        -- intros ([|i] & phrase & j & Hi & Hj & Hm & Hfirst & Hprev); simpl in Hi.
           ++ injection Hi as ->. rewrite Hfind in Hm; [done|].
              by eapply list_elem_of_lookup_2.
           ++ exists i, phrase, j. split_and!; [done..|].
              intros i' p' h' ???. apply (Hprev (S i')); [lia|done..].
  - induction candidates as [|p ps IH]; simpl.
    + split; [|done]. by intros _ ?? ?%elem_of_nil.
    + destruct (List.find _ columns) as [h0|] eqn:Hfind.
      * split; [done|]. intros H.
        apply find_Some_lookup in Hfind as (j0 & Hj0 & Hm0 & _).
        rewrite H in Hm0; [done|constructor|by eapply list_elem_of_lookup_2].
      * rewrite IH. rewrite find_None_iff in Hfind. split.
        -- intros H phrase h [->|?]%elem_of_cons ?; auto.
        -- intros H phrase h ??. apply H; [by constructor|done].
Qed.

(** ** Data frames *)

Lemma get_loc_lookup c cols j : get_loc c cols = Some j → cols !! j = Some c.
Proof.
  revert j. induction cols as [|c' cols IH]; intros j; simpl; [done|].
  case_decide as Hc; [by intros [= <-]; subst|].
  destruct (get_loc c cols) as [j'|]; simpl; [|done].
  intros [= <-]. by apply IH.
Qed.

Lemma get_loc_elem c cols : c ∈ cols → ∃ j, get_loc c cols = Some j.
Proof.
  induction cols as [|c' cols IH]; [by intros ?%elem_of_nil|].
  simpl. case_decide; [by exists 0|].
  intros [->|Hin]%elem_of_cons; [done|].
  destruct (IH Hin) as [j ->]. by exists (S j).
Qed.

Lemma get_loc_lt c cols j : get_loc c cols = Some j → j < length cols.
Proof. intros ?%get_loc_lookup. by eapply lookup_lt_Some. Qed.

Lemma get_loc_inj c c' cols j :
  get_loc c cols = Some j → get_loc c' cols = Some j → c = c'.
Proof. intros ?%get_loc_lookup ?%get_loc_lookup. congruence. Qed.

Lemma get_locs_ok by_ cols :
  Forall (λ c, c ∈ cols) by_ →
  ∃ locs, get_locs by_ cols = Ok locs
          ∧ Forall2 (λ c j, get_loc c cols = Some j) by_ locs.
Proof.
  induction 1 as [|c by_ Hc _ (locs & Hlocs & IH)]; simpl.
  - exists []. by split.
  - destruct (get_loc_elem _ _ Hc) as [j Hj]. rewrite Hj, Hlocs. simpl.
    exists (j :: locs). split; [done|]. by constructor.
Qed.

Lemma get_locs_inv by_ cols locs :
  get_locs by_ cols = Ok locs → Forall2 (λ c j, get_loc c cols = Some j) by_ locs.
Proof.
  revert locs. induction by_ as [|c by_ IH]; intros locs; simpl.
  - intros [= <-]. constructor.
  - destruct (get_loc c cols) as [j|] eqn:Hj; [|done].
    destruct (get_locs by_ cols) as [locs'|]; simpl; [|done].
    intros [= <-]. constructor; auto.
Qed.

Lemma cell_of_fmap cols (F : string → cell) c :
  c ∈ cols → cell_of cols (F <$> cols) c = F c.
Proof.
  intros [j Hj]%get_loc_elem. unfold cell_of, iloc. rewrite Hj.
  apply get_loc_lookup in Hj. by rewrite list_lookup_fmap, Hj.
Qed.

Lemma iloc_insert_ne (r : list cell) j j' v : j ≠ j' → iloc (<[j := v]> r) j' = iloc r j'.
Proof. intros. unfold iloc. by rewrite list_lookup_insert_ne. Qed.

Lemma iloc_insert_eq (r : list cell) j v : j < length r → iloc (<[j := v]> r) j = v.
Proof. intros. unfold iloc. by rewrite list_lookup_insert_eq. Qed.

Lemma zip_with_fmap_same {A B C} (f : A → B → C) (g : A → B) (l : list A) :
  zip_with f l (g <$> l) = (λ x, f x (g x)) <$> l.
Proof. induction l as [|x l IH]; [done|]. rewrite !fmap_cons. simpl. by rewrite IH. Qed.

(** ** The order of the keys *)

Lemma cell_leb_total a b : cell_leb a b = true ∨ cell_leb b a = true.
Proof.
  destruct a as [|x|s], b as [|y|t]; simpl; auto.
  - destruct (Z.leb_spec x y); [auto|right]. apply Z.leb_le. lia.
  - apply String.leb_total.
Qed.

Global Instance key_le_total : Total key_le.
Proof.
  unfold key_le. intros k1. induction k1 as [|a k1 IH]; intros [|b k2]; simpl; auto.
  destruct (decide (a = b)) as [->|Hne].
  - rewrite decide_True by done. apply IH.
  - rewrite (decide_False (P := b = a)) by congruence. apply cell_leb_total.
Qed.

Global Instance rows_le_total locs : Total (rows_le locs).
Proof. intros r1 r2. apply key_le_total. Qed.


Lemma filter_all {A} (P : A → Prop) `{∀ x, Decision (P x)} (l : list A) :
  Forall P l → filter P l = l.
Proof.
  induction 1 as [|x l Hx _ IH]; [done|].
  rewrite filter_cons_True by done. by rewrite IH.
Qed.

Lemma filter_none {A} (P : A → Prop) `{∀ x, Decision (P x)} (l : list A) :
  Forall (λ x, ¬ P x) l → filter P l = [].
Proof.
  induction 1 as [|x l Hx _ IH]; [done|].
  by rewrite filter_cons_False.
Qed.

Lemma filter_fmap {A B} (f : A → B) (P : B → Prop) `{∀ y, Decision (P y)} (l : list A) :
  filter P (f <$> l) = f <$> filter (λ x, P (f x)) l.
Proof.
  induction l as [|x l IH]; [done|]. rewrite fmap_cons.
  destruct (decide (P (f x))).
  - rewrite !filter_cons_True by done. by rewrite fmap_cons, IH.
  - by rewrite !filter_cons_False.
Qed.

Lemma dropna_ok subset df :
  Forall (λ c, c ∈ columns df) subset →
  dropna subset df
  = Ok (mkDataFrame (columns df)
          (filter (λ r, Forall (λ c, cell_of (columns df) r c ≠ NaN) subset) (rows df))).
Proof.
  intros Hin. unfold dropna. rewrite filter_none; [done|].
  eapply Forall_impl; [exact Hin|]. naive_solver.
Qed.

Lemma dropna_cleaned df c l i :
  Forall (λ x, x ∈ columns df) [c; l; i] →
  dropna [c; l; i] df = Ok (mkDataFrame (columns df) (cleaned df c l i)).
Proof.
  intros Hin. rewrite dropna_ok by done. do 2 f_equal.
  apply list_filter_iff. intros r. unfold triple. by rewrite Forall_fmap.
Qed.

Lemma given_in_Some c cols a :
  given_in c cols = Some a ↔ c = Some a ∧ a ≠ "" ∧ a ∈ cols.
Proof.
  unfold given_in, truthy. destruct c as [s|]; [|split; [done|by intros [? _]]].
  destruct (decide (s ≠ "")) as [H1|H1], (decide (s ∈ cols)) as [H2|H2].
  all: rewrite ?(bool_decide_eq_true_2 _ H1), ?(bool_decide_eq_false_2 _ H1),
         ?(bool_decide_eq_true_2 _ H2), ?(bool_decide_eq_false_2 _ H2); simpl.
  all: split; [intros [= <-]|intros ([= <-] & ? & ?)]; done.
Qed.

Lemma optional_cols_spec cols s u oc :
  oc ∈ optional_cols cols s u ↔ given_in s cols = Some oc ∨ given_in u cols = Some oc.
Proof.
  unfold optional_cols.
  destruct (given_in s cols) as [a|], (given_in u cols) as [b|];
    try destruct (decide (a = b)) as [->|?].
  all: rewrite ?elem_of_cons, ?elem_of_nil.
  all: split; [intros H|intros [H|H]].
  all: try (injection H as ->); try discriminate; try tauto.
  all: destruct H as [<-|H]; auto. all: try destruct H as [<-|H]; auto; try done.
Qed.

Lemma fillna_to_numeric str_to_number v :
  fillna 0 (to_numeric str_to_number v) = Num (coerced str_to_number v).
Proof.
  unfold coerced. destruct v as [|z|s]; simpl; [done..|].
  by destruct (str_to_number s).
Qed.

Lemma agg_sum_nums (zs : list Z) : agg_apply AggSum (Num <$> zs) = Num (sum_Z zs).
Proof.
  unfold agg_apply, sum_Z. f_equal. induction zs as [|z zs IH]; [done|].
  rewrite fmap_cons. simpl. by rewrite IH.
Qed.

Lemma get_agg_optional q (opts : list string) oc :
  oc ≠ q → oc ∈ opts →
  PyDict.get oc ((q, AggSum) :: ((λ x, (x, AggFirst)) <$> opts)) = Some AggFirst.
Proof.
  intros Hne Hin. simpl. rewrite decide_False by done.
  induction opts as [|x opts IH]; [by apply elem_of_nil in Hin|].
  simpl. case_decide; [done|]. apply IH.
  apply elem_of_cons in Hin as [?|?]; [congruence|done].
Qed.

Lemma get_agg_other q (opts : list string) c :
  c ≠ q → c ∉ opts →
  PyDict.get c ((q, AggSum) :: ((λ x, (x, AggFirst)) <$> opts)) = None.
Proof.
  intros Hne Hnin. simpl. rewrite decide_False by done.
  induction opts as [|x opts IH]; [done|].
  simpl. apply not_elem_of_cons in Hnin as [? ?].
  rewrite decide_False by done. by apply IH.
Qed.

Lemma get_loc_app_r c pre cols :
  c ∉ pre → get_loc c (pre ++ cols) = (λ j, length pre + j) <$> get_loc c cols.
Proof.
  intros Hn. induction pre as [|p pre IH]; simpl.
  - by destruct (get_loc c cols).
  - apply not_elem_of_cons in Hn as [? ?]. rewrite decide_False by done.
    rewrite IH by done. by destruct (get_loc c cols).
Qed.

Lemma cell_of_app_r c pre cols (vs ws : list cell) :
  c ∉ pre → length vs = length pre →
  cell_of (pre ++ cols) (vs ++ ws) c = cell_of cols ws c.
Proof.
  intros Hn Hlen. unfold cell_of. rewrite get_loc_app_r by done.
  destruct (get_loc c cols) as [j|]; simpl; [|done].
  unfold iloc. rewrite lookup_app_r by lia. do 2 f_equal. lia.
Qed.

Section aggregated_keys_facts.
Variables (df : DataFrame) (class_col lesson_col item_col : string).
Abbreviation keys := (aggregated_keys df class_col lesson_col item_col).
Abbreviation clean := (cleaned df class_col lesson_col item_col).
Abbreviation triple1 := (triple df class_col lesson_col item_col).

Lemma aggregated_keys_elem k : k ∈ keys ↔ ∃ r, r ∈ clean ∧ triple1 r = k.
Proof.
  unfold aggregated_keys. rewrite merge_sort_Permutation, elem_of_remove_dups.
  rewrite list_elem_of_fmap. naive_solver.
Qed.

Lemma aggregated_keys_NoDup : NoDup keys.
Proof.
  unfold aggregated_keys. rewrite merge_sort_Permutation. apply NoDup_remove_dups.
Qed.

Lemma aggregated_keys_sorted : Sorted key_le keys.
Proof. apply Sorted_merge_sort, _. Qed.
End aggregated_keys_facts.

Section aggregate_facts.
Variable str_to_number : string → option Z.
Variables (class_col lesson_col item_col qty_col : string).
Variables (size_col uom_col : option string).
Variable df : DataFrame.
Hypothesis Hwf : well_formed df.
Hypothesis Hvalid :
  valid_mapping (columns df) class_col lesson_col item_col qty_col size_col uom_col.

Abbreviation cols := (columns df).
Abbreviation clean := (cleaned df class_col lesson_col item_col).
Abbreviation opts := (optional_cols (columns df) size_col uom_col).
Abbreviation keys := (aggregated_keys df class_col lesson_col item_col).
Abbreviation row_of := (aggregated_row str_to_number df class_col lesson_col item_col qty_col opts).

Local Lemma required_in : Forall (λ c, c ∈ cols) [class_col; lesson_col; item_col; qty_col].
Proof. apply Hvalid. Qed.

Local Lemma required_distinct :
  class_col ≠ lesson_col ∧ class_col ≠ item_col ∧ class_col ≠ qty_col
  ∧ lesson_col ≠ item_col ∧ lesson_col ≠ qty_col ∧ item_col ≠ qty_col.
Proof.
  destruct Hvalid as (_ & Hnd & _). rewrite !NoDup_cons in Hnd. set_solver.
Qed.

Local Lemma optional_not_required oc :
  oc ∈ opts → (oc ∉ [class_col; lesson_col; item_col; qty_col]) ∧ oc ∈ cols.
Proof.
  destruct Hvalid as (_ & _ & Hs & Hu).
  intros [H|H]%optional_cols_spec; apply given_in_Some in H as (-> & _ & ?); auto.
Qed.

Local Lemma clean_rows_length r : r ∈ clean → length r = length cols.
Proof.
  intros [_ Hr]%list_elem_of_filter. destruct Hwf as [_ Hlen].
  by eapply Forall_forall in Hlen.
Qed.

(** The dict [agg] of lines 44 to 48. *)
Local Lemma agg_dict_eq :
  let agg := [(qty_col, AggSum)] in
  let agg := match given_in size_col cols with
             | Some c => PyDict.set c AggFirst agg
             | None => agg
             end in
  match given_in uom_col cols with
  | Some c => PyDict.set c AggFirst agg
  | None => agg
  end = (qty_col, AggSum) :: ((λ x, (x, AggFirst)) <$> opts).
Proof.
  assert (∀ a, given_in size_col cols = Some a ∨ given_in uom_col cols = Some a →
               a ≠ qty_col) as Hopt.
  { intros a Ha%optional_cols_spec%optional_not_required.
    destruct Ha as [Ha _]. rewrite !not_elem_of_cons in Ha. tauto. }
  unfold optional_cols.
  destruct (given_in size_col cols) as [a|], (given_in uom_col cols) as [b|]; simpl.
  - rewrite (decide_False (P := a = qty_col)) by auto. simpl.
    rewrite (decide_False (P := b = qty_col)) by auto.
    destruct (decide (a = b)) as [->|?]; simpl.
    + by rewrite decide_True.
    + by rewrite (decide_False (P := b = a)) by congruence.
  - by rewrite decide_False by auto.
  - by rewrite decide_False by auto.
  - done.
Qed.

(** The frame [df2] of line 50: the aggregated records of the triples of
    the cleaned rows, in ascending order of the triples. *)
Lemma aggregate_eq :
  aggregate str_to_number class_col lesson_col item_col qty_col size_col uom_col df
  = Ok (aggregated_frame str_to_number df class_col lesson_col item_col qty_col opts).
Proof.
  unfold aggregated_frame.
  pose proof required_in as Hin.
  pose proof required_distinct as (Hcl & Hci & Hcq & Hli & Hlq & Hiq).
  rewrite !Forall_cons in Hin. destruct Hin as (Hc & Hl & Hi & Hq & _).
  destruct (get_loc_elem _ _ Hc) as [ic Hic].
  destruct (get_loc_elem _ _ Hl) as [il Hil].
  destruct (get_loc_elem _ _ Hi) as [ii Hii].
  destruct (get_loc_elem _ _ Hq) as [iq Hiq'].
  assert (ic ≠ iq) by (intros ->; eauto using get_loc_inj).
  assert (il ≠ iq) by (intros ->; eauto using get_loc_inj).
  assert (ii ≠ iq) by (intros ->; eauto using get_loc_inj).
  unfold aggregate.
  rewrite dropna_cleaned by (by repeat constructor). cbn [result_bind].
  unfold getitem. cbn [columns rows]. rewrite Hiq'. cbn [result_bind].
  unfold setitem. cbn [columns rows]. rewrite Hiq'. cbn [columns].
  rewrite <- !list_fmap_compose, zip_with_fmap_same.
  pose proof agg_dict_eq as Hagg. cbv zeta in Hagg. rewrite Hagg. clear Hagg.
  change (_ <$> clean) with (coerce_row str_to_number iq <$> clean).
  unfold groupby_agg, groupby. cbn [columns rows get_locs].
  rewrite Hic, Hil, Hii. cbn [result_bind].
  (* the columns *)
  assert (insert_inaxis_grouper [class_col; lesson_col; item_col] (qty_col :: opts)
          = [class_col; lesson_col; item_col; qty_col] ++ opts) as Hcols.
  { assert (∀ x, x ∈ opts → x ≠ class_col ∧ x ≠ lesson_col ∧ x ≠ item_col) as Hopt.
    { intros x [Hx _]%optional_not_required.
      rewrite !not_elem_of_cons in Hx. tauto. }
    unfold insert_inaxis_grouper. cbn [foldr].
    rewrite (decide_False (P := item_col ∈ _)).
    2:{ rewrite elem_of_cons. intros [?|?%Hopt]; [done|tauto]. }
    rewrite (decide_False (P := lesson_col ∈ _)).
    2:{ rewrite !elem_of_cons. intros [?|[?|?%Hopt]]; [done..|tauto]. }
    rewrite (decide_False (P := class_col ∈ _)); [done|].
    rewrite !elem_of_cons. intros [?|[?|[?|?%Hopt]]]; [done..|tauto]. }
  assert (PyDict.keys ((qty_col, AggSum) :: ((λ x, (x, AggFirst)) <$> opts))
          = qty_col :: opts) as ->.
  { unfold PyDict.keys. rewrite fmap_cons, <- list_fmap_compose. f_equal.
    rewrite <- (list_fmap_id opts) at 2. by apply list_fmap_ext. }
  rewrite Hcols. f_equal. f_equal.
  (* the keys *)
  assert (∀ r, key_of [ic; il; ii] (coerce_row str_to_number iq r)
               = triple df class_col lesson_col item_col r) as Hkey.
  { intros r. unfold key_of, triple, coerce_row, cell_of. simpl.
    rewrite Hic, Hil, Hii. by rewrite !iloc_insert_ne by done. }
  assert (group_keys [ic; il; ii] (coerce_row str_to_number iq <$> clean) = keys) as Hkeys.
  { unfold group_keys, aggregated_keys. do 2 f_equal.
    rewrite <- list_fmap_compose.
    rewrite (list_fmap_ext _ (triple df class_col lesson_col item_col) clean)
      by (intros; apply Hkey).
    apply filter_all. apply Forall_fmap, Forall_forall.
    by intros r [? _]%list_elem_of_filter. }
  rewrite Hkeys, <- list_fmap_compose.
  apply list_fmap_ext. intros ? k Hk. unfold compose. cbn [columns rows].
  (* the group of a key *)
  assert (group_rows [ic; il; ii] k (coerce_row str_to_number iq <$> clean)
          = coerce_row str_to_number iq <$> group_of df class_col lesson_col item_col k) as ->.
  { unfold group_rows, group_of. rewrite filter_fmap. f_equal.
    apply list_filter_iff. intros r. by rewrite Hkey. }
  assert (∃ a b c, k = [a; b; c]) as (a & b & c & ->).
  { apply list_elem_of_lookup_2 in Hk.
    unfold aggregated_keys in Hk. rewrite merge_sort_Permutation in Hk.
    apply elem_of_remove_dups, list_elem_of_fmap in Hk as (r & -> & _).
    unfold triple. simpl. eauto. }
  assert (∀ x, x ∈ opts → (x ∉ [class_col; lesson_col; item_col; qty_col]) ∧ x ∈ cols)
    as Hopt by apply optional_not_required.
  assert (∀ x, x ∈ [class_col; lesson_col; item_col] →
          PyDict.get x ((qty_col, AggSum) :: ((λ x, (x, AggFirst)) <$> opts)) = None)
    as Hget.
  { intros x Hx. apply get_agg_other.
    - rewrite !elem_of_cons, elem_of_nil in Hx. naive_solver.
    - intros [Hn _]%Hopt. apply Hn. rewrite !elem_of_cons in *. tauto. }
  unfold aggregated_row. cbn [app fmap list_fmap].
  rewrite !Hget by (rewrite !elem_of_cons; tauto).
  assert (PyDict.get qty_col ((qty_col, AggSum) :: ((λ x, (x, AggFirst)) <$> opts))
          = Some AggSum) as -> by (cbn [PyDict.get]; by rewrite decide_True).
  unfold cell_of at 1 2 3. cbn [get_loc].
  rewrite (decide_True (P := class_col = class_col)) by done.
  rewrite (decide_False (P := lesson_col = class_col)) by done.
  rewrite (decide_True (P := lesson_col = lesson_col)) by done.
  rewrite (decide_False (P := item_col = class_col)) by done.
  rewrite (decide_False (P := item_col = lesson_col)) by done.
  rewrite (decide_True (P := item_col = item_col)) by done.
  cbn [fmap option_fmap option_map iloc]. do 3 f_equal.
  f_equal.
  - (* the quantity *)
    rewrite <- list_fmap_compose.
    rewrite <- agg_sum_nums, <- list_fmap_compose. f_equal.
    apply list_fmap_ext. intros ? r Hr. unfold compose.
    unfold cell_of. rewrite Hiq'. unfold coerce_row.
    rewrite iloc_insert_eq; [apply fillna_to_numeric|].
    apply list_elem_of_lookup_2, list_elem_of_filter in Hr as [_ Hr].
    rewrite (clean_rows_length r Hr). by eapply get_loc_lt.
  - (* the optional columns *)
    apply list_fmap_ext. intros ? oc Hoc.
    apply list_elem_of_lookup_2 in Hoc.
    destruct (Hopt oc Hoc) as [Hnr Hoc_in].
    rewrite get_agg_optional; [|rewrite !not_elem_of_cons in Hnr; tauto|done].
    unfold agg_apply, first_notna. do 2 f_equal.
    rewrite <- list_fmap_compose. apply list_fmap_ext. intros ? r _. unfold compose.
    destruct (get_loc_elem _ _ Hoc_in) as [io Hio].
    unfold cell_of. cbn [columns]. rewrite Hio. unfold coerce_row.
    apply iloc_insert_ne. intros <-. apply Hnr.
    rewrite (get_loc_inj _ _ _ _ Hio Hiq'). rewrite !elem_of_cons. tauto.
Qed.

Abbreviation cols2 := ([class_col; lesson_col; item_col; qty_col] ++ opts).
Abbreviation df2 := (mkDataFrame cols2 (row_of <$> keys)).
Abbreviation triple1 := (triple df class_col lesson_col item_col).
Abbreviation triple2 := (triple df2 class_col lesson_col item_col).

Lemma aggregated_keys_shape k :
  k ∈ keys → ∃ a b c, k = [a; b; c] ∧ a ≠ NaN ∧ b ≠ NaN ∧ c ≠ NaN.
Proof.
  intros (r & [Hr _]%list_elem_of_filter & <-)%aggregated_keys_elem.
  unfold triple in *. rewrite !fmap_cons, !Forall_cons in Hr. naive_solver.
Qed.

Lemma group_of_nonempty k : k ∈ keys → group_of df class_col lesson_col item_col k ≠ [].
Proof.
  intros (r & Hr & Hk)%aggregated_keys_elem Hnil.
  assert (r ∈ group_of df class_col lesson_col item_col k) as Hin
    by (by apply list_elem_of_filter).
  rewrite Hnil in Hin. by apply elem_of_nil in Hin.
Qed.

Lemma triple_aggregated_row k : k ∈ keys → triple2 (row_of k) = k.
Proof.
  pose proof required_distinct as (Hcl & Hci & Hcq & Hli & Hlq & Hiq).
  intros (a & b & c & -> & _)%aggregated_keys_shape.
  unfold triple, aggregated_row, cell_of. simpl.
  rewrite (decide_True (P := class_col = class_col)) by done.
  rewrite (decide_False (P := lesson_col = class_col)) by done.
  rewrite (decide_True (P := lesson_col = lesson_col)) by done.
  rewrite (decide_False (P := item_col = class_col)) by done.
  rewrite (decide_False (P := item_col = lesson_col)) by done.
  rewrite (decide_True (P := item_col = item_col)) by done. done.
Qed.

Lemma quantity_aggregated_row k :
  k ∈ keys →
  cell_of cols2 (row_of k) qty_col
  = Num (sum_Z ((λ r, coerced str_to_number (cell_of cols r qty_col))
                  <$> group_of df class_col lesson_col item_col k)).
Proof.
  pose proof required_distinct as (Hcl & Hci & Hcq & Hli & Hlq & Hiq).
  intros (a & b & c & -> & _)%aggregated_keys_shape.
  unfold aggregated_row, cell_of. simpl.
  rewrite (decide_False (P := qty_col = class_col)) by done.
  rewrite (decide_False (P := qty_col = lesson_col)) by done.
  rewrite (decide_False (P := qty_col = item_col)) by done.
  rewrite (decide_True (P := qty_col = qty_col)) by done. done.
Qed.

Lemma optional_aggregated_row k oc :
  k ∈ keys → oc ∈ opts →
  cell_of cols2 (row_of k) oc
  = first_notna ((λ r, cell_of cols r oc)
                   <$> group_of df class_col lesson_col item_col k).
Proof.
  intros (a & b & c & -> & _)%aggregated_keys_shape Hoc.
  destruct (optional_not_required oc Hoc) as [Hnr _].
  unfold aggregated_row.
  change ([a; b; c] ++ ?z :: ?rest) with ([a; b; c; z] ++ rest).
  rewrite cell_of_app_r by done.
  by rewrite (cell_of_fmap opts (λ oc, first_notna _)).
Qed.
End aggregate_facts.

(** ** Cleaning, grouping and aggregation *)

Section aggregation_claims.
Variable str_to_number : string → option Z.
Variables (class_col lesson_col item_col qty_col : string).
Variables (size_col uom_col : option string).
Variable df : DataFrame.

Local Abbreviation aggregate_ :=
  (aggregate str_to_number class_col lesson_col item_col qty_col size_col uom_col).
Local Abbreviation triple_ d := (triple d class_col lesson_col item_col).
Local Abbreviation group_ := (group_of df class_col lesson_col item_col).


(** The first two statements of [make_output_excel] do not see a row with a
    null class, lesson or item. *)
Lemma dropna_discards subset cols pre r post :
  ¬ Forall (λ c, cell_of cols r c ≠ NaN) subset →
  dropna subset (mkDataFrame cols (pre ++ r :: post))
  = dropna subset (mkDataFrame cols (pre ++ post)).
Proof.
  intros Hr. unfold dropna. cbn [columns rows].
  by rewrite !filter_app, filter_cons_False.
Qed.


(** C7, amended — the size of a record is the first value that is not null
    of the size column among the cleaned rows of its triple, in table order,
    and null when all are null; the same for the unit. An optional column
    that is not given, or is no column of the table, is in no record, and
    the aggregation does not fail. *)
Theorem optional_first_notna :
  well_formed df →
  valid_mapping (columns df) class_col lesson_col item_col qty_col size_col uom_col →
  ∃ df2, aggregate_ df = Ok df2
    ∧ columns df2 = [class_col; lesson_col; item_col; qty_col]
                    ++ optional_cols (columns df) size_col uom_col
    ∧ (∀ c, c ∈ optional_cols (columns df) size_col uom_col ↔
            (size_col = Some c ∨ uom_col = Some c) ∧ c ≠ "" ∧ c ∈ columns df)
    ∧ (∀ row c, row ∈ rows df2 → c ∈ optional_cols (columns df) size_col uom_col →
         cell_of (columns df2) row c
         = first_notna ((λ r, cell_of (columns df) r c) <$> group_ (triple_ df2 row)))
    ∧ (∀ c, (size_col = Some c ∨ uom_col = Some c) → c ∉ columns df →
         c ∉ columns df2).
Proof.
  intros Hwf Hvalid. eexists. split; [by apply aggregate_eq|].
  unfold aggregated_frame. cbn [rows columns].
  split_and!.
  - done.
  - intros c. rewrite optional_cols_spec, !given_in_Some. naive_solver.
  - intros row c (k & -> & Hk)%list_elem_of_fmap Hc.
    rewrite triple_aggregated_row by done. by apply optional_aggregated_row.
  - intros c Hc Hnin. destruct Hvalid as (Hreq & _).
    rewrite !Forall_cons in Hreq.
    rewrite elem_of_app, !elem_of_cons, elem_of_nil, optional_cols_spec, !given_in_Some.
    naive_solver.
Qed.
End aggregation_claims.

(** ** The workbook *)

Section writer_facts.
Variables (item_col qty_col : string) (size_col uom_col : option string).

Local Abbreviation write_group_ := (write_group item_col qty_col size_col uom_col).
Local Abbreviation write_groups_ := (write_groups item_col qty_col size_col uom_col).
Local Abbreviation sheet_of_group_ := (sheet_of_group item_col qty_col size_col uom_col).

Lemma write_group_Ok index_rows kg w index_rows' w' :
  write_group_ index_rows kg w = (Ok index_rows', w') →
  ∃ s, sheet_of_group_ kg s ∧ w' = w ++ [s]
       ∧ index_rows' = index_rows ++ [index_row_of kg.1 s].
Proof.
  destruct kg as [k g]. unfold write_group, wbind, wlift, to_excel, wret.
  destruct (getitem_list _ g) as [sel|] eqn:Hsel; [|done].
  destruct (sort_values item_col sel) as [sorted|] eqn:Hsorted; [|done].
  intros [= <- <-]. eexists. split; [|done].
  exists sel, sorted. by split_and!.
Qed.

Lemma write_group_Raise index_rows kg w e w' :
  write_group_ index_rows kg w = (Raise e, w') → w' = w.
Proof.
  destruct kg as [k g]. unfold write_group, wbind, wlift, to_excel, wret.
  destruct (getitem_list _ g) as [sel|]; [|by intros [= _ <-]].
  destruct (sort_values item_col sel) as [sorted|]; [done|by intros [= _ <-]].
Qed.

Lemma write_group_sheet index_rows kg w s :
  sheet_of_group_ kg s →
  write_group_ index_rows kg w = (Ok (index_rows ++ [index_row_of kg.1 s]), w ++ [s]).
Proof.
  destruct kg as [k g]. intros (sel & sorted & Hsel & Hsorted & ->).
  unfold write_group, wbind, wlift, to_excel, wret. cbn [fst snd] in *.
  by rewrite Hsel, Hsorted.
Qed.

Lemma write_groups_Ok groups index_rows w index_rows' w' :
  write_groups_ index_rows groups w = (Ok index_rows', w') →
  ∃ sheets, Forall2 sheet_of_group_ groups sheets ∧ w' = w ++ sheets
            ∧ index_rows' = index_rows ++ zip_with index_row_of groups.*1 sheets.
Proof.
  revert index_rows w. induction groups as [|kg groups IH]; intros index_rows w.
  - intros [= <- <-]. exists []. by rewrite !app_nil_r.
  - cbn [write_groups]. unfold wbind at 1.
    destruct (write_group_ index_rows kg w) as [[idx1|e] w1] eqn:H1; [|done].
    apply write_group_Ok in H1 as (s & Hs & -> & ->).
    intros (sheets & Hsheets & -> & ->)%IH.
    exists (s :: sheets). rewrite <- !app_assoc. by split_and!; [constructor|..].
Qed.

Lemma write_groups_sheets groups sheets index_rows w :
  Forall2 sheet_of_group_ groups sheets →
  write_groups_ index_rows groups w
  = (Ok (index_rows ++ zip_with index_row_of groups.*1 sheets), w ++ sheets).
Proof.
  intros H. revert index_rows w.
  induction H as [|kg s groups sheets Hs _ IH]; intros index_rows w.
  - by rewrite !app_nil_r.
  - cbn [write_groups]. unfold wbind at 1.
    rewrite (write_group_sheet _ _ _ _ Hs), IH. by rewrite <- !app_assoc.
Qed.

(** After an exception in the loop the writer holds exactly the sheets of
    the groups before the failing one. *)
Lemma write_groups_Raise groups index_rows w e w' :
  write_groups_ index_rows groups w = (Raise e, w') →
  ∃ sheets, w' = w ++ sheets ∧ length sheets < length groups.
Proof.
  revert index_rows w. induction groups as [|kg groups IH]; intros index_rows w.
  - done.
  - cbn [write_groups]. unfold wbind at 1.
    destruct (write_group_ index_rows kg w) as [[idx1|e1] w1] eqn:H1.
    + apply write_group_Ok in H1 as (s & Hs & -> & ->).
      intros (sheets & -> & ?)%IH. exists (s :: sheets).
      rewrite <- app_assoc. split; [done|]. simpl. lia.
    + apply write_group_Raise in H1 as ->. intros [= _ <-].
      exists []. rewrite app_nil_r. split; [done|]. simpl. lia.
Qed.
End writer_facts.

Lemma sort_values_Ok c df df' :
  sort_values c df = Ok df' →
  ∃ j, get_loc c (columns df) = Some j
       ∧ mixed ((λ r, cell_of (columns df) r c) <$> rows df) = false
       ∧ df' = mkDataFrame (columns df) (sort_rows [j] (rows df)).
Proof.
  unfold sort_values.
  destruct (filter _ (columns df)) as [|? [|??]]; [done| |done].
  cbn [get_locs]. destruct (get_loc c (columns df)) as [j|]; [|done].
  cbn [result_bind]. destruct (mixed _); [done|].
  intros [= <-]. eauto.
Qed.

Lemma sort_rows_sorted locs rs : Sorted (rows_le locs) (sort_rows locs rs).
Proof. apply Sorted_merge_sort, _. Qed.

Lemma sort_rows_perm locs rs : sort_rows locs rs ≡ₚ rs.
Proof. apply merge_sort_Permutation. Qed.

Lemma group_keys_NoDup locs rs : NoDup (group_keys locs rs).
Proof. unfold group_keys. rewrite merge_sort_Permutation. apply NoDup_remove_dups. Qed.

Lemma group_keys_elem locs rs k :
  k ∈ group_keys locs rs ↔
  Forall (λ v, v ≠ NaN) k ∧ ∃ r, r ∈ rs ∧ key_of locs r = k.
Proof.
  unfold group_keys.
  rewrite merge_sort_Permutation, elem_of_remove_dups, list_elem_of_filter.
  rewrite list_elem_of_fmap. naive_solver.
Qed.

Section workbook_facts.
Variable str_to_number : string → option Z.
Variables (class_col lesson_col item_col qty_col : string).
Variables (size_col uom_col : option string).

Local Abbreviation make_output_excel_ :=
  (make_output_excel str_to_number class_col lesson_col item_col qty_col
     size_col uom_col).
Local Abbreviation aggregate_ :=
  (aggregate str_to_number class_col lesson_col item_col qty_col size_col uom_col).
Local Abbreviation sheet_of_group_ := (sheet_of_group item_col qty_col size_col uom_col).

(** The workbook returned: the sheets of the groups of [df2] in the order
    of their keys, then the index, whose rows are those of the sheets in
    ascending order of (class, lesson). *)
Lemma make_output_excel_Ok df wb :
  make_output_excel_ df = Ok wb →
  ∃ df2 groups sheets,
    aggregate_ df = Ok df2
    ∧ groupby [class_col; lesson_col] df2 = Ok groups
    ∧ Forall2 sheet_of_group_ groups sheets
    ∧ groups ≠ []
    ∧ wb = sheets
           ++ [mkSheet "INDEX" ["Class"; "Lesson"; "Sheet"; "Items"]
                 (sort_rows [0; 1] (zip_with index_row_of groups.*1 sheets))].
Proof.
  unfold make_output_excel.
  destruct (aggregate_ df) as [df2|] eqn:Hagg; [|done]. cbn [result_bind].
  unfold with_ExcelWriter, write_workbook, wbind, wlift.
  destruct (groupby _ df2) as [groups|] eqn:Hgroups; [|done].
  destruct (write_groups _ _ _ _ [] groups []) as [[idx|e] w] eqn:Hw.
  - apply write_groups_Ok in Hw as (sheets & Hsheets & -> & ->).
    rewrite !app_nil_l.
    destruct Hsheets as [|kg s groups sheets Hs Hsheets]; [done|].
    cbn [fmap list_fmap zip_with index_frame].
    unfold sort_values_list, to_excel. cbn.
    intros [= <-]. exists df2, (kg :: groups), (s :: sheets).
    split_and!; try done. by constructor.
  - by destruct w.
Qed.
End workbook_facts.

Lemma make_output_excel_sheets str_to_number class_col lesson_col item_col qty_col
    size_col uom_col df df2 groups sheets :
  aggregate str_to_number class_col lesson_col item_col qty_col size_col uom_col df
    = Ok df2 →
  groupby [class_col; lesson_col] df2 = Ok groups →
  Forall2 (sheet_of_group item_col qty_col size_col uom_col) groups sheets →
  groups ≠ [] →
  make_output_excel str_to_number class_col lesson_col item_col qty_col
    size_col uom_col df
  = Ok (sheets
        ++ [mkSheet "INDEX" ["Class"; "Lesson"; "Sheet"; "Items"]
              (sort_rows [0; 1] (zip_with index_row_of groups.*1 sheets))]).
Proof.
  intros Hagg Hgroups Hsheets Hne. unfold make_output_excel.
  rewrite Hagg. cbn [result_bind].
  unfold with_ExcelWriter, write_workbook, wbind, wlift. rewrite Hgroups.
  rewrite (write_groups_sheets _ _ _ _ _ _ _ _ Hsheets). rewrite !app_nil_l.
  destruct Hsheets as [|kg s groups sheets Hs Hsheets]; [done|].
  cbn [fmap list_fmap zip_with index_frame].
  unfold sort_values_list, to_excel. by cbn.
Qed.

Lemma mixed_incl (l1 l2 : list cell) :
  (∀ v, v ∈ l1 → v ∈ l2) → mixed l2 = false → mixed l1 = false.
Proof.
  intros Hincl. unfold mixed.
  rewrite !andb_false_iff, <- !not_true_iff_false, !existsb_exists.
  intros [H|H]; [left|right]; intros (v & Hv%list_elem_of_In%Hincl & ?);
    apply H; exists v; by rewrite <- list_elem_of_In.
Qed.

Lemma Forall_exists_Forall2 {A B} (R : A → B → Prop) (l : list A) :
  Forall (λ x, ∃ y, R x y) l → ∃ k, Forall2 R l k.
Proof.
  induction 1 as [|x l [y Hy] _ [k Hk]]; [by exists []|].
  exists (y :: k). by constructor.
Qed.

Section sheets_facts.
Variable str_to_number : string → option Z.
Variables (class_col lesson_col item_col qty_col : string).
Variables (size_col uom_col : option string).
Variable df : DataFrame.
Hypothesis Hwf : well_formed df.
Hypothesis Hvalid :
  valid_mapping (columns df) class_col lesson_col item_col qty_col size_col uom_col.

Local Abbreviation cols := (columns df).
Local Abbreviation clean := (cleaned df class_col lesson_col item_col).
Local Abbreviation opts := (optional_cols (columns df) size_col uom_col).
Local Abbreviation keys3 := (aggregated_keys df class_col lesson_col item_col).
Local Abbreviation row_of :=
  (aggregated_row str_to_number df class_col lesson_col item_col qty_col opts).
Local Abbreviation cols2 := ([class_col; lesson_col; item_col; qty_col] ++ opts).
Local Abbreviation rows2 := (row_of <$> keys3).

Local Abbreviation df2 :=
  (aggregated_frame str_to_number df class_col lesson_col item_col qty_col opts).
Local Abbreviation sheet_keys_ :=
  (sheet_keys str_to_number df class_col lesson_col item_col qty_col opts).
Local Abbreviation sheet_groups_ :=
  (sheet_groups str_to_number df class_col lesson_col item_col qty_col opts).

Lemma groupby_df2 :
  groupby [class_col; lesson_col] df2 = Ok sheet_groups_.
Proof.
  destruct Hvalid as (_ & Hnd & _). rewrite !NoDup_cons in Hnd.
  destruct Hnd as (Hc & _). rewrite !not_elem_of_cons in Hc.
  unfold groupby, aggregated_frame. cbn [columns rows get_locs app get_loc].
  rewrite (decide_True (P := class_col = class_col)) by done.
  rewrite (decide_False (P := lesson_col = class_col)) by naive_solver.
  rewrite (decide_True (P := lesson_col = lesson_col)) by done.
  done.
Qed.

Lemma sheet_keys_elem k :
  k ∈ sheet_keys_ ↔
  ∃ r, r ∈ clean ∧ k = [cell_of cols r class_col; cell_of cols r lesson_col].
Proof.
  unfold sheet_keys, aggregated_frame. cbn [rows]. rewrite group_keys_elem. split.
  - intros (_ & row & (k3 & -> & Hk3)%list_elem_of_fmap & <-).
    pose proof Hk3 as (r & Hr & <-)%aggregated_keys_elem.
    exists r. split; [done|]. by unfold aggregated_row, triple.
  - intros (r & Hr & ->).
    assert (triple df class_col lesson_col item_col r ∈ keys3) as Hk3
      by (apply aggregated_keys_elem; eauto).
    split.
    + apply list_elem_of_filter in Hr as [Hr _]. unfold triple in Hr.
      rewrite !fmap_cons, !Forall_cons in Hr. repeat constructor; tauto.
    + eexists. split; [apply list_elem_of_fmap; eauto|].
      by unfold aggregated_row, triple.
Qed.
End sheets_facts.

Lemma valid_mapping_distinct cols c l i q s u :
  valid_mapping cols c l i q s u →
  c ≠ l ∧ c ≠ i ∧ c ≠ q ∧ l ≠ i ∧ l ≠ q ∧ i ≠ q.
Proof.
  intros (_ & Hnd & _). rewrite !NoDup_cons, !not_elem_of_cons in Hnd. tauto.
Qed.

Section sheets_exist.
Variable str_to_number : string → option Z.
Variables (class_col lesson_col item_col qty_col : string).
Variables (size_col uom_col : option string).
Variable df : DataFrame.
Hypothesis Hwf : well_formed df.
Hypothesis Hvalid :
  valid_mapping (columns df) class_col lesson_col item_col qty_col size_col uom_col.

Local Abbreviation cols := (columns df).
Local Abbreviation clean := (cleaned df class_col lesson_col item_col).
Local Abbreviation opts := (optional_cols (columns df) size_col uom_col).
Local Abbreviation keys3 := (aggregated_keys df class_col lesson_col item_col).
Local Abbreviation row_of :=
  (aggregated_row str_to_number df class_col lesson_col item_col qty_col opts).
Local Abbreviation cols2 := ([class_col; lesson_col; item_col; qty_col] ++ opts).
Local Abbreviation df2 :=
  (aggregated_frame str_to_number df class_col lesson_col item_col qty_col opts).
Local Abbreviation sheet_keys_ :=
  (sheet_keys str_to_number df class_col lesson_col item_col qty_col opts).
Local Abbreviation sheet_groups_ :=
  (sheet_groups str_to_number df class_col lesson_col item_col qty_col opts).
Local Abbreviation out_cols_of_ := (out_cols_of item_col qty_col size_col uom_col).

Lemma optional_outside x :
  x ∈ opts → (x ∉ [class_col; lesson_col; item_col; qty_col]) ∧ x ∈ cols.
Proof.
  destruct Hvalid as (_ & _ & Hs & Hu).
  intros [H|H]%optional_cols_spec; apply given_in_Some in H as (-> & _ & ?); auto.
Qed.

(** An optional column is looked up in [df2] as in the table. *)
Lemma given_in_df2 o :
  o = size_col ∨ o = uom_col → given_in o cols2 = given_in o cols.
Proof.
  intros Ho. unfold given_in. destruct o as [x|]; [|done].
  destruct (truthy (Some x)) eqn:Ht; [|done]. cbn [andb].
  rewrite (bool_decide_ext (x ∈ cols2) (x ∈ cols)); [done|].
  rewrite elem_of_app. split.
  - intros [Hx|Hx]; [|by apply optional_outside].
    destruct Hvalid as (_ & _ & Hs & Hu).
    destruct Ho as [Ho|Ho]; symmetry in Ho; [by apply Hs in Ho|by apply Hu in Ho].
  - intros Hx. right. apply optional_cols_spec.
    assert (given_in (Some x) cols = Some x) as Hg.
    { apply given_in_Some. split_and!; [done| |done].
      unfold truthy in Ht. by apply bool_decide_eq_true in Ht. }
    destruct Ho as [Ho|Ho]; rewrite <- Ho; auto.
Qed.

(** The columns of every sheet: item, quantity, then the optional columns. *)
Lemma out_cols_df2 g :
  columns g = cols2 →
  ∃ rest, out_cols_of_ g = item_col :: qty_col :: rest
          ∧ Forall (λ x, x ∈ opts) rest.
Proof.
  intros Hg. unfold out_cols_of. rewrite Hg. rewrite !given_in_df2 by auto.
  eexists. split; [reflexivity|]. apply Forall_app. split.
  - destruct (given_in size_col cols) eqn:Hs; repeat constructor.
    apply optional_cols_spec. auto.
  - destruct (given_in uom_col cols) eqn:Hu; repeat constructor.
    apply optional_cols_spec. auto.
Qed.

Lemma aggregated_row_item k3 :
  k3 ∈ keys3 →
  ∃ r, r ∈ clean ∧ iloc (row_of k3) 2 = cell_of cols r item_col.
Proof.
  intros (r & Hr & <-)%aggregated_keys_elem. exists r. split; [done|].
  by unfold aggregated_row, triple.
Qed.

(** Every group whose items are all integers or all texts gets its sheet. *)
Lemma sheet_groups_sheets :
  mixed ((λ r, cell_of cols r item_col) <$> clean) = false →
  ∃ sheets, Forall2 (sheet_of_group item_col qty_col size_col uom_col)
              sheet_groups_ sheets.
Proof.
  intros Hmixed. apply Forall_exists_Forall2, Forall_forall.
  intros kg (k & -> & _)%list_elem_of_fmap.
  unfold aggregated_frame. cbn [columns rows].
  set (g := mkDataFrame cols2 _).
  destruct (out_cols_df2 g eq_refl) as (rest & Hout & Hrest).
  destruct (valid_mapping_distinct _ _ _ _ _ _ _ Hvalid)
    as (Hcl & Hci & Hcq & Hli & Hlq & Hiq).
  assert (Forall (λ x, x ≠ item_col) rest) as Hrest_item.
  { eapply Forall_impl; [exact Hrest|]. intros x [Hx _]%optional_outside ->.
    apply Hx. rewrite !elem_of_cons. tauto. }
  assert (get_loc item_col cols2 = Some 2) as Hitem.
  { cbn [app get_loc]. rewrite (decide_False (P := item_col = class_col)) by done.
    rewrite (decide_False (P := item_col = lesson_col)) by done.
    by rewrite (decide_True (P := item_col = item_col)). }
  assert (Forall (λ c, c ∈ columns g) (out_cols_of_ g)) as Hin.
  { rewrite Hout. cbn [columns g]. repeat apply Forall_cons_2.
    - rewrite !elem_of_app, !elem_of_cons. tauto.
    - rewrite !elem_of_app, !elem_of_cons. tauto.
    - eapply Forall_impl; [exact Hrest|]. intros x ?. rewrite elem_of_app. tauto. }
  destruct (get_locs_ok _ _ Hin) as (locs & Hlocs & Hlocs2).
  rewrite Hout in Hlocs2.
  apply Forall2_cons_inv_l in Hlocs2 as (j & locs' & Hj & _ & ->).
  cbn [columns g] in Hj. rewrite Hitem in Hj. injection Hj as <-.
  eexists. exists (mkDataFrame (out_cols_of_ g) (key_of (2 :: locs') <$> rows g)).
  exists (mkDataFrame (out_cols_of_ g)
            (sort_rows [0] (key_of (2 :: locs') <$> rows g))).
  cbn [fst snd]. split_and!; [| |reflexivity].
  - unfold getitem_list. by rewrite Hlocs.
  - unfold sort_values. cbn [columns rows]. rewrite Hout.
    rewrite filter_cons_True by done.
    rewrite filter_cons_False by done.
    rewrite filter_none by done.
    cbn [get_locs get_loc]. rewrite (decide_True (P := item_col = item_col)) by done.
    cbn [result_bind].
    rewrite (mixed_incl _ ((λ r, cell_of cols r item_col) <$> clean));
      [reflexivity| |exact Hmixed].
    intros v (r' & -> & (r & -> & Hr)%list_elem_of_fmap)%list_elem_of_fmap.
    apply list_elem_of_filter in Hr as [_ Hr]. cbn [rows] in Hr.
    apply list_elem_of_fmap in Hr as (k3 & -> & Hk3).
    destruct (aggregated_row_item k3 Hk3) as (r0 & Hr0 & Hitem0).
    apply list_elem_of_fmap. exists r0. split; [|done].
    rewrite <- Hitem0. unfold cell_of. cbn [get_loc].
    by rewrite (decide_True (P := item_col = item_col)).
Qed.
End sheets_exist.

(** ** The sheets and the index *)

Lemma sheet_keys_nil_iff str_to_number df class_col lesson_col item_col qty_col
    size_col uom_col :
  well_formed df →
  valid_mapping (columns df) class_col lesson_col item_col qty_col size_col uom_col →
  sheet_keys str_to_number df class_col lesson_col item_col qty_col
    (optional_cols (columns df) size_col uom_col) = []
  ↔ cleaned df class_col lesson_col item_col = [].
Proof.
  intros Hwf Hvalid. split.
  - intros Hnil. destruct (cleaned _ _ _ _) as [|r rs] eqn:Hc; [done|].
    assert ([cell_of (columns df) r class_col; cell_of (columns df) r lesson_col]
            ∈ sheet_keys str_to_number df class_col lesson_col item_col qty_col
                (optional_cols (columns df) size_col uom_col)) as Hin.
    { eapply sheet_keys_elem; [done..|]. exists r. split; [|done].
      rewrite Hc. constructor. }
    rewrite Hnil in Hin. by apply elem_of_nil in Hin.
  - intros Hnil.
    destruct (sheet_keys _ _ _ _ _ _ _) as [|k ks] eqn:Hk; [done|].
    assert (k ∈ sheet_keys str_to_number df class_col lesson_col item_col qty_col
                  (optional_cols (columns df) size_col uom_col)) as Hin
      by (rewrite Hk; constructor).
    eapply sheet_keys_elem in Hin as (r & Hr & _); [|done..].
    rewrite Hnil in Hr. by apply elem_of_nil in Hr.
Qed.

(** Without any cleaned row no sheet is written and no index either: the
    frame of the index has no column to sort by, and the book cannot be
    saved without a sheet. *)
Lemma make_output_excel_no_group str_to_number df class_col lesson_col item_col
    qty_col size_col uom_col :
  well_formed df →
  valid_mapping (columns df) class_col lesson_col item_col qty_col size_col uom_col →
  cleaned df class_col lesson_col item_col = [] →
  make_output_excel str_to_number class_col lesson_col item_col qty_col
    size_col uom_col df = Raise IndexError.
Proof.
  intros Hwf Hvalid Hnil. unfold make_output_excel.
  rewrite aggregate_eq by done. cbn [result_bind].
  unfold with_ExcelWriter, write_workbook, wbind, wlift.
  rewrite groupby_df2 by done. unfold sheet_groups.
  destruct (sheet_keys_nil_iff str_to_number _ _ _ _ _ _ _ Hwf Hvalid) as [_ Hk].
  by rewrite (Hk Hnil).
Qed.

(** With a cleaned row, and items that are all integers or all texts, the
    workbook is written: a sheet for every (class, lesson) pair, then the
    index. *)
Lemma make_output_excel_succeeds str_to_number df class_col lesson_col item_col
    qty_col size_col uom_col :
  well_formed df →
  valid_mapping (columns df) class_col lesson_col item_col qty_col size_col uom_col →
  cleaned df class_col lesson_col item_col ≠ [] →
  mixed ((λ r, cell_of (columns df) r item_col)
           <$> cleaned df class_col lesson_col item_col) = false →
  ∃ sheets,
    Forall2 (sheet_of_group item_col qty_col size_col uom_col)
      (sheet_groups str_to_number df class_col lesson_col item_col qty_col
         (optional_cols (columns df) size_col uom_col)) sheets
    ∧ sheets ≠ []
    ∧ make_output_excel str_to_number class_col lesson_col item_col qty_col
        size_col uom_col df
      = Ok (sheets
            ++ [mkSheet "INDEX" ["Class"; "Lesson"; "Sheet"; "Items"]
                  (sort_rows [0; 1]
                     (zip_with index_row_of
                        (sheet_groups str_to_number df class_col lesson_col item_col
                           qty_col (optional_cols (columns df) size_col uom_col)).*1
                        sheets))]).
Proof.
  intros Hwf Hvalid Hne Hmixed.
  destruct (sheet_groups_sheets str_to_number _ _ _ _ _ _ _ Hvalid Hmixed)
    as [sheets Hsheets].
  assert (sheet_groups str_to_number df class_col lesson_col item_col qty_col
            (optional_cols (columns df) size_col uom_col) ≠ []) as Hgroups.
  { unfold sheet_groups. intros Hnil%fmap_nil_inv.
    destruct (sheet_keys_nil_iff str_to_number _ _ _ _ _ _ _ Hwf Hvalid) as [Hk _].
    auto. }
  exists sheets. split_and!; [done| |].
  - intros ->. apply Forall2_nil_inv_r in Hsheets. done.
  - eapply make_output_excel_sheets; [by apply aggregate_eq| |exact Hsheets|done].
    by apply groupby_df2.
Qed.

Section index_claims.
Variable str_to_number : string → option Z.
Variables (class_col lesson_col item_col qty_col : string).
Variables (size_col uom_col : option string).
Variable df : DataFrame.

Local Abbreviation make_output_excel_ :=
  (make_output_excel str_to_number class_col lesson_col item_col qty_col
     size_col uom_col).
Local Abbreviation clean := (cleaned df class_col lesson_col item_col).

End index_claims.

(** ** The labels and the order of a sheet *)

Lemma Forall2_elem_of_r {A B} (R : A → B → Prop) l k y :
  Forall2 R l k → y ∈ k → ∃ x, x ∈ l ∧ R x y.
Proof.
  induction 1 as [|x y' l k HR _ IH]; [by intros ?%elem_of_nil|].
  intros [->|Hy]%elem_of_cons.
  - exists x. split; [constructor|done].
  - destruct (IH Hy) as (x' & ? & ?). exists x'. split; [by constructor|done].
Qed.

Lemma getitem_list_Ok cols df sel :
  getitem_list cols df = Ok sel → columns sel = cols.
Proof.
  unfold getitem_list. destruct (get_locs cols (columns df)); [|done].
  by intros [= <-].
Qed.

Section sheet_claims.
Variable str_to_number : string → option Z.
Variables (class_col lesson_col item_col qty_col : string).
Variables (size_col uom_col : option string).
Variable df : DataFrame.

Local Abbreviation cols := (columns df).
Local Abbreviation opts := (optional_cols (columns df) size_col uom_col).

(** The labels under which the columns of a sheet are written. *)
Lemma rename_dict_labels :
  valid_mapping cols class_col lesson_col item_col qty_col size_col uom_col →
  (∀ x, given_in size_col cols = Some x → given_in uom_col cols ≠ Some x) →
  let d := rename_dict item_col qty_col size_col uom_col in
  PyDict.get (Some item_col) d = Some "Item"
  ∧ PyDict.get (Some qty_col) d = Some "Quantity"
  ∧ (∀ x, given_in size_col cols = Some x → PyDict.get (Some x) d = Some "Size")
  ∧ (∀ x, given_in uom_col cols = Some x → PyDict.get (Some x) d = Some "Unit/Notes").
Proof.
  intros Hvalid Hdiff d.
  destruct (valid_mapping_distinct _ _ _ _ _ _ _ Hvalid)
    as (Hcl & Hci & Hcq & Hli & Hlq & Hiq).
  destruct Hvalid as (_ & _ & Hs & Hu).
  assert (∀ x, x ∈ [class_col; lesson_col; item_col; qty_col] →
          Some x ≠ size_col ∧ Some x ≠ uom_col) as Hreq.
  { intros x Hx. split; intros Heq; symmetry in Heq;
      [apply Hs in Heq|apply Hu in Heq]; done. }
  assert (item_col ∈ [class_col; lesson_col; item_col; qty_col]) as Hi
    by (rewrite !elem_of_cons; tauto).
  assert (qty_col ∈ [class_col; lesson_col; item_col; qty_col]) as Hq
    by (rewrite !elem_of_cons; tauto).
  destruct (Hreq _ Hi) as [His Hiu]. destruct (Hreq _ Hq) as [Hqs Hqu].
  subst d. unfold rename_dict, PyDict.of_items. cbn [foldl fst snd].
  assert ((if truthy size_col then "Size" else "Size") = "Size") as ->
    by (by destruct (truthy size_col)).
  assert ((if truthy uom_col then "Unit/Notes" else "Unit/Notes") = "Unit/Notes") as ->
    by (by destruct (truthy uom_col)).
  split_and!.
  - rewrite !get_set. rewrite (decide_False (P := Some item_col = uom_col)) by done.
    rewrite (decide_False (P := Some item_col = size_col)) by done.
    rewrite (decide_False (P := Some item_col = Some qty_col)) by congruence.
    cbn [PyDict.get PyDict.set]. by rewrite decide_True.
  - rewrite !get_set. rewrite (decide_False (P := Some qty_col = uom_col)) by done.
    rewrite (decide_False (P := Some qty_col = size_col)) by done.
    by rewrite decide_True.
  - intros x Hx. pose proof Hx as (-> & Hne & Hin)%given_in_Some.
    rewrite !get_set. rewrite (decide_False (P := Some x = uom_col)).
    + by rewrite decide_True.
    + intros <-. apply (Hdiff x Hx). by apply given_in_Some.
  - intros x (-> & _)%given_in_Some. rewrite !get_set. by rewrite decide_True.
Qed.

(** In every sheet of a (class, lesson) pair the rows are in ascending order
    of the item, which is the first column, and the columns are labelled
    Item, Quantity, then Size and Unit/Notes for the optional columns that
    reach the output, as long as these are two different columns. *)
Lemma sheets_sorted_and_labelled wb :
  well_formed df →
  valid_mapping cols class_col lesson_col item_col qty_col size_col uom_col →
  (∀ x, given_in size_col cols = Some x → given_in uom_col cols ≠ Some x) →
  make_output_excel str_to_number class_col lesson_col item_col qty_col
    size_col uom_col df = Ok wb →
  ∀ s, s ∈ wb → sheet_name s ≠ "INDEX" →
    header s = "Item" :: "Quantity"
               :: match given_in size_col cols with Some _ => ["Size"] | None => [] end
               ++ match given_in uom_col cols with Some _ => ["Unit/Notes"] | None => [] end
    ∧ Sorted (rows_le [0]) (body s).
Proof.
  intros Hwf Hvalid Hdiff
    (df2 & groups & sheets & Hagg & Hgroups & Hsheets & Hne & ->)%make_output_excel_Ok.
  rewrite aggregate_eq in Hagg by done. injection Hagg as <-.
  rewrite groupby_df2 in Hgroups by done. injection Hgroups as <-.
  intros s [Hs|Hs%list_elem_of_singleton]%elem_of_app Hname; [|by subst s].
  destruct (Forall2_elem_of_r _ _ _ _ Hsheets Hs) as (kg & Hkg & sel & sorted & Hsel & Hsorted & ->).
  apply list_elem_of_fmap in Hkg as (k & -> & _). cbn [fst snd] in *.
  set (g := mkDataFrame _ _) in *.
  apply getitem_list_Ok in Hsel.
  apply sort_values_Ok in Hsorted as (j & Hj & _ & ->).
  rewrite Hsel in Hj |- *.
  assert (out_cols_of item_col qty_col size_col uom_col g
          = item_col :: qty_col
            :: match given_in size_col cols with Some c => [c] | None => [] end
            ++ match given_in uom_col cols with Some c => [c] | None => [] end) as Hout.
  { unfold out_cols_of, g, aggregated_frame. cbn [columns].
    by rewrite !(given_in_df2 _ _ _ _ _ _ _ Hvalid) by auto. }
  rewrite Hout in Hj |- *. cbn [get_loc] in Hj.
  rewrite (decide_True (P := item_col = item_col)) in Hj by done. injection Hj as <-.
  cbn [header body columns rows rename]. split; [|apply sort_rows_sorted].
  destruct (rename_dict_labels Hvalid Hdiff) as (Hi & Hq & Hsz & Hum).
  rewrite !fmap_cons, fmap_app, Hi, Hq. cbn [default]. do 2 f_equal.
  f_equal.
  - destruct (given_in size_col cols) as [x|] eqn:Hx; [|done].
    rewrite list_fmap_singleton. by rewrite (Hsz x eq_refl).
  - destruct (given_in uom_col cols) as [x|] eqn:Hx; [|done].
    rewrite list_fmap_singleton. by rewrite (Hum x eq_refl).
Qed.
End sheet_claims.

(** ** The distinctness check *)

Lemma size_list_to_set_le (l : list string) :
  size (list_to_set l : gset string) ≤ length l.
Proof.
  induction l as [|x l IH]; [by rewrite list_to_set_nil, size_empty|].
  rewrite list_to_set_cons, size_union_alt, size_singleton. cbn [length].
  assert (size (list_to_set l ∖ {[x]} : gset string) ≤ size (list_to_set l : gset string))
    by (apply subseteq_size; set_solver).
  lia.
Qed.

Lemma size_list_to_set_lt (l : list string) :
  size (list_to_set l : gset string) < length l ↔ ¬ NoDup l.
Proof.
  split.
  - intros Hlt Hnd. rewrite size_list_to_set in Hlt by done. lia.
  - induction l as [|x l IH]; intros Hnd; [destruct Hnd; constructor|].
    rewrite list_to_set_cons. cbn [length].
    destruct (decide (x ∈ l)) as [Hin|Hnin].
    + assert (({[x]} ∪ list_to_set l : gset string) = list_to_set l) as ->
        by set_solver.
      pose proof (size_list_to_set_le l). lia.
    + assert (¬ NoDup l) as Hl by (intros ?; apply Hnd; by constructor).
      apply IH in Hl. rewrite size_union_alt, size_singleton.
      assert (size (list_to_set l ∖ {[x]} : gset string)
              ≤ size (list_to_set l : gset string))
        by (apply subseteq_size; set_solver).
      lia.
Qed.

Lemma page_usable str_to_number df class_col lesson_col item_col qty_col
    size_col uom_col :
  frame_empty (dropna_columns df) = false →
  page str_to_number df class_col lesson_col item_col qty_col size_col uom_col
  = if decide (NoDup [class_col; lesson_col; item_col; qty_col])
    then Generated (make_output_excel str_to_number class_col lesson_col item_col
                      qty_col (chosen size_col) (chosen uom_col) (dropna_columns df))
    else Stopped "Your required column selections must be four different columns.".
Proof.
  intros Hne. unfold page. cbv zeta. rewrite Hne.
  rewrite bool_decide_eq_false_2.
  2:{ unfold frame_empty in Hne. apply bool_decide_eq_false in Hne.
      intros Hlen%length_zero_iff_nil. tauto. }
  cbn [orb].
  pose proof (size_list_to_set_lt [class_col; lesson_col; item_col; qty_col]) as H.
  cbn [length] in H.
  destruct (decide (NoDup [class_col; lesson_col; item_col; qty_col])) as [Hnd|Hnd].
  - rewrite decide_False; [done|]. rewrite H. by intros ?.
  - rewrite decide_True; [done|]. by apply H.
Qed.

Lemma page_empty str_to_number df class_col lesson_col item_col qty_col
    size_col uom_col :
  frame_empty (dropna_columns df) = true →
  page str_to_number df class_col lesson_col item_col qty_col size_col uom_col
  = Stopped "This sheet looks empty or has no usable columns.".
Proof. intros He. unfold page. cbv zeta. by rewrite He. Qed.

Lemma dropna_columns_no_rows df : rows df = [] → frame_empty (dropna_columns df) = true.
Proof.
  intros Hrows. unfold frame_empty, dropna_columns. cbn [rows].
  apply bool_decide_eq_true. left. by rewrite Hrows.
Qed.

(** C3, amended — the distinctness of the four required columns is checked
    by the page before generation: when they are not four different columns
    [make_output_excel] is not called, and the page of a usable sheet stops
    with the message that four different columns are required; with four
    different columns it calls [make_output_excel], which itself makes no
    such check. *)
Theorem distinctness_checked_by_page (str_to_number : string → option Z)
    (df : DataFrame) (class_col lesson_col item_col qty_col size_col uom_col : string) :
  let outcome :=
    page str_to_number df class_col lesson_col item_col qty_col size_col uom_col in
  (¬ NoDup [class_col; lesson_col; item_col; qty_col] → ∀ r, outcome ≠ Generated r)
  ∧ (frame_empty (dropna_columns df) = false →
     ¬ NoDup [class_col; lesson_col; item_col; qty_col] →
     outcome
     = Stopped "Your required column selections must be four different columns.")
  ∧ (frame_empty (dropna_columns df) = false →
     NoDup [class_col; lesson_col; item_col; qty_col] →
     outcome
     = Generated (make_output_excel str_to_number class_col lesson_col item_col
                    qty_col (chosen size_col) (chosen uom_col) (dropna_columns df))).
Proof.
  intros outcome. subst outcome. split_and!.
  - intros Hnd r. destruct (frame_empty (dropna_columns df)) eqn:He.
    + by rewrite page_empty.
    + rewrite page_usable by done. by rewrite decide_False.
  - intros He Hnd. rewrite page_usable by done. by rewrite decide_False.
  - intros He Hnd. rewrite page_usable by done. by rewrite decide_True.
Qed.

(** With the class column chosen as item column too, [make_output_excel]
    raises nothing: it writes a workbook whose items are the class names. *)
Lemma generate_without_distinct_columns :
  make_output_excel int_literal "Class" "Lesson" "Class" "Qty" None None
    Samples.pencils
  = Ok [ mkSheet "Math - L1" ["Item"; "Quantity"] [[Str "Math"; Num 5]];
         mkSheet "INDEX" ["Class"; "Lesson"; "Sheet"; "Items"]
           [[Str "Math"; Str "L1"; Str "Math - L1"; Num 1]] ].
Proof. vm_compute. reflexivity. Qed.

(** ** Sample runs *)



(** The size of the record is not the size of the first row of its group
    when that one is null: it is the first size that is not null. *)
Lemma size_of_first_row_null :
  aggregate int_literal "Class" "Lesson" "Item" "Qty" (Some "Size") None
    Samples.late_size
  = Ok (mkDataFrame ["Class"; "Lesson"; "Item"; "Qty"; "Size"]
          [[Str "Math"; Str "L1"; Str "Pencil"; Num 5; Str "HB"]])
  ∧ head (group_of Samples.late_size "Class" "Lesson" "Item"
            [Str "Math"; Str "L1"; Str "Pencil"])
    = Some [Str "Math"; Str "L1"; Str "Pencil"; Num 3; NaN]
  ∧ cell_of (columns Samples.late_size)
      [Str "Math"; Str "L1"; Str "Pencil"; Num 3; NaN] "Size" = NaN.
Proof. split_and!; vm_compute; reflexivity. Qed.

(** C8 — with one column chosen both as size and as unit, the sheet has no
    column labelled Size: the column is written twice, both times under
    Unit/Notes. *)
Theorem same_size_and_unit_column :
  make_output_excel int_literal "Class" "Lesson" "Item" "Qty"
    (Some "Notes") (Some "Notes") Samples.notes
  = Ok [ mkSheet "Math - L1" ["Item"; "Quantity"; "Unit/Notes"; "Unit/Notes"]
           [[Str "Pencil"; Num 3; Str "box"; Str "box"]];
         mkSheet "INDEX" ["Class"; "Lesson"; "Sheet"; "Items"]
           [[Str "Math"; Str "L1"; Str "Math - L1"; Num 1]] ].
Proof. vm_compute. reflexivity. Qed.

(** ** The theorems at sample tables *)




(** The unit column that is no column of the table is left out. *)
Lemma supplies_optional_columns :
  ∃ df2,
    aggregate int_literal "Class" "Lesson" "Item" "Qty" (Some "Size") (Some "Unit")
      Samples.supplies = Ok df2
    ∧ columns df2 = ["Class"; "Lesson"; "Item"; "Qty"; "Size"].
Proof.
  destruct (optional_first_notna int_literal "Class" "Lesson" "Item" "Qty"
              (Some "Size") (Some "Unit") Samples.supplies)
    as (df2 & Hagg & Hcols & _).
  - split; by_evaluation.
  - split_and!; [by_evaluation|by_evaluation|intros c [= <-]; by_evaluation..].
  - exists df2. split; [exact Hagg|]. rewrite Hcols. vm_compute. reflexivity.
Defined.

(** * Further properties of the code *)

(** ** [normalize] and [safe_sheet_name] *)

Section more_strings.
Import PyStr.

Lemma get_occurs i s c : String.get i s = Some c → occurs c s.
Proof.
  revert i. induction s as [|c' s IH]; intros [|i]; simpl; try done.
  - intros [= ->]. by left.
  - intros H. right. eauto.
Qed.

Lemma occurs_get c s : occurs c s → ∃ i, String.get i s = Some c.
Proof.
  induction s as [|c' s IH]; simpl; [done|].
  intros [->|[i Hi]%IH]; [by exists 0|by exists (S i)].
Qed.

Lemma occurs_lower c s : occurs c (lower s) → lower_char c = c.
Proof.
  induction s as [|c' s IH]; simpl; [done|].
  intros [->|H]; [apply lower_char_idemp|auto].
Qed.

Lemma lower_fixed s : (∀ c, occurs c s → lower_char c = c) → lower s = s.
Proof.
  unfold lower. induction s as [|c s IH]; simpl; [done|]. intros H.
  rewrite (H c) by auto. f_equal. apply IH. auto.
Qed.

Lemma last_get s i c :
  String.get i s = Some c → String.get (S i) s = None → last s = Some c.
Proof.
  revert i. induction s as [|c' s IH]; intros i; [done|].
  destruct i as [|i]; simpl.
  - intros [= ->]. by destruct s.
  - intros Hi Hn. destruct s as [|c'' s]; [done|]. by apply (IH i).
Qed.

Lemma get_last s c : last s = Some c → ∃ i, String.get i s = Some c ∧ String.get (S i) s = None.
Proof.
  induction s as [|c' s IH]; [done|].
  destruct s as [|c'' s].
  - intros [= ->]. by exists 0.
  - intros H. destruct (IH H) as (i & ? & ?). by exists (S i).
Qed.

Lemma single_spaced_get b s i c :
  single_spaced b s → String.get i s = Some c → is_space c = true →
  c = " "%char ∧ (i = 0 → b = false)
  ∧ ∀ d, String.get (S i) s = Some d → is_space d = false.
Proof.
  revert b i. induction s as [|c' s IH]; intros b i; [done|].
  destruct i as [|i]; cbn [single_spaced String.get].
  - intros Hs [= ->] Hc. rewrite Hc in Hs. destruct Hs as (-> & -> & Hs).
    split_and!; [done..|]. intros d Hd.
    destruct s as [|d' s]; simplify_eq/=.
    destruct (is_space d); [by destruct Hs as (_ & ? & _)|done].
  - intros Hs Hi Hc.
    assert (∃ b', single_spaced b' s) as [b' Hs']
      by (destruct (is_space c'); [exists true; tauto|by exists false]).
    destruct (IH _ _ Hs' Hi Hc) as (-> & _ & Hd). split_and!; [done|lia|done].
Qed.

Lemma get_single_spaced b s :
  (∀ i c, String.get i s = Some c → is_space c = true →
     c = " "%char ∧ (i = 0 → b = false)
     ∧ ∀ d, String.get (S i) s = Some d → is_space d = false) →
  single_spaced b s.
Proof.
  revert b. induction s as [|c s IH]; intros b H; [done|].
  cbn [single_spaced]. destruct (is_space c) eqn:Hc.
  - destruct (H 0 c eq_refl Hc) as (-> & Hb & Hd). split_and!; [done|auto|].
    apply IH. intros i d Hi Hsp.
    destruct (H (S i) d Hi Hsp) as (-> & _ & Hd'). split_and!; [done| |done].
    intros ->. rewrite (Hd _ Hi) in Hsp. done.
  - apply IH. intros i d Hi Hsp.
    destruct (H (S i) d Hi Hsp) as (-> & _ & Hd'). split_and!; [done..].
Qed.

Lemma single_spaced_head b s :
  single_spaced b s → (∀ c, head s = Some c → is_space c = false) →
  single_spaced true s.
Proof.
  destruct s as [|c s]; [done|]. intros Hs Hh. cbn [single_spaced] in *.
  by rewrite (Hh c eq_refl) in *.
Qed.

Lemma rstrip_fixed s : (∀ c, last s = Some c → is_space c = false) → rstrip s = s.
Proof.
  induction s as [|c s IH]; [done|]. intros H. cbn [rstrip].
  destruct s as [|c' s].
  - simpl. by rewrite (H c eq_refl).
  - rewrite IH by (intros d Hd; by apply H). done.
Qed.

Lemma single_spaced_weaken b s : single_spaced b s → single_spaced false s.
Proof.
  destruct s as [|c s]; [done|]. cbn [single_spaced].
  destruct (is_space c); [|done]. tauto.
Qed.

Lemma str_app_nil_r s : s +:+ "" = s.
Proof. induction s as [|c s IH]; [done|]. by rewrite str_app_cons, IH. Qed.

Lemma str_app_assoc s t u : (s +:+ t) +:+ u = s +:+ t +:+ u.
Proof. induction s as [|c s IH]; [done|]. by rewrite !str_app_cons, IH. Qed.

Lemma length_app s t : String.length (s +:+ t) = String.length s + String.length t.
Proof. induction s as [|c s IH]; [done|]. rewrite str_app_cons. simpl. lia. Qed.

Lemma lstrip_rstrip s : lstrip (rstrip s) = rstrip (lstrip s).
Proof.
  induction s as [|c s IH]; [done|]. cbn [lstrip rstrip].
  destruct (is_space c) eqn:Hc.
  - rewrite <- IH. destruct (rstrip s); simpl; by rewrite ?Hc.
  - cbn [rstrip]. destruct (rstrip s); simpl; by rewrite Hc.
Qed.

Lemma lstrip_sub_space_runs b b' s :
  lstrip (sub_space_runs b s) = lstrip (sub_space_runs b' s).
Proof.
  destruct s as [|c s]; [done|]. cbn [sub_space_runs].
  destruct (is_space c); [|done]. by destruct b, b'.
Qed.

Lemma lstrip_sub_space_runs_pad b b' l s :
  all_space l = true →
  lstrip (sub_space_runs b (l +:+ s)) = lstrip (sub_space_runs b' s).
Proof.
  revert b. induction l as [|c l IH]; intros b Hl.
  - rewrite str_app_nil_l. apply lstrip_sub_space_runs.
  - simpl in Hl. apply andb_true_iff in Hl as [Hc Hl].
    rewrite str_app_cons. cbn [sub_space_runs]. rewrite Hc.
    destruct b; [by apply IH|]. cbn [lstrip]. by apply IH.
Qed.

Lemma all_space_sub_space_runs b s :
  all_space (sub_space_runs b s) = all_space s.
Proof.
  revert b. induction s as [|c s IH]; intros b; [done|].
  cbn [sub_space_runs all_space]. destruct (is_space c) eqn:Hc.
  - destruct b; [apply IH|]. cbn [all_space]. by rewrite IH.
  - cbn [all_space]. by rewrite Hc.
Qed.

Lemma rstrip_all_space s : rstrip s = "" ↔ all_space s = true.
Proof.
  induction s as [|c s IH]; [done|]. cbn [rstrip all_space].
  destruct (rstrip s) eqn:Hr.
  - destruct (is_space c); [|split; done].
    split; [|done]. intros _. by apply IH.
  - split; [done|]. intros [_ Hs%IH]%andb_true_iff. done.
Qed.

Lemma all_space_app s t :
  all_space (s +:+ t) = all_space s && all_space t.
Proof.
  induction s as [|c s IH]; [done|]. rewrite str_app_cons. cbn [all_space].
  by rewrite IH, andb_assoc.
Qed.

Lemma rstrip_cons_eq c s t : rstrip s = rstrip t → rstrip (String c s) = rstrip (String c t).
Proof. intros H. cbn [rstrip]. by rewrite H. Qed.

Lemma rstrip_sub_space_runs_pad b s r :
  all_space r = true →
  rstrip (sub_space_runs b (s +:+ r)) = rstrip (sub_space_runs b s).
Proof.
  intros Hr. revert b. induction s as [|c s IH]; intros b.
  - rewrite str_app_nil_l. simpl.
    apply rstrip_all_space. by rewrite all_space_sub_space_runs.
  - rewrite str_app_cons. cbn [sub_space_runs].
    destruct (is_space c); [destruct b|]; auto using rstrip_cons_eq.
Qed.

Lemma sub_space_runs_in_run w s :
  all_space w = true → sub_space_runs true (w +:+ s) = sub_space_runs true s.
Proof.
  induction w as [|c w IH]; [done|]. intros [Hc Hw]%andb_true_iff.
  rewrite str_app_cons. cbn [sub_space_runs]. rewrite Hc. auto.
Qed.

Lemma sub_space_runs_run b a w s :
  w ≠ "" → all_space w = true →
  sub_space_runs b (a +:+ w +:+ s) = sub_space_runs b (a +:+ " " +:+ s).
Proof.
  intros Hne Hw. revert b. induction a as [|c a IH]; intros b.
  - rewrite !str_app_nil_l. destruct w as [|c w]; [done|].
    apply andb_true_iff in Hw as [Hc Hw].
    rewrite !str_app_cons, str_app_nil_l. cbn [sub_space_runs]. rewrite Hc.
    change (is_space " ") with true. cbv iota.
    by rewrite sub_space_runs_in_run.
  - rewrite !str_app_cons. cbn [sub_space_runs].
    destruct (is_space c); [destruct b|]; by rewrite IH.
Qed.

Lemma normalize_lower_first s :
  normalize s = rstrip (lstrip (sub_space_runs false (lower s))).
Proof.
  unfold normalize, strip.
  by rewrite sub_space_runs_lower, lstrip_lower, rstrip_lower.
Qed.

Lemma lower_nil_inv s : lower s = "" → s = "".
Proof. by destruct s. Qed.

Lemma normal_form_iff s :
  normal_form s ↔
  single_spaced true s
  ∧ (∀ c, last s = Some c → is_space c = false)
  ∧ (∀ c, occurs c s → lower_char c = c).
Proof.
  split.
  - intros H. split_and!.
    + apply get_single_spaced. intros i c Hi Hc.
      destruct (H i c Hi) as (_ & Hsp). destruct (Hsp Hc) as (-> & ? & d & Hd & ?).
      split_and!; [done|lia|]. intros d'. rewrite Hd. by intros [= <-].
    + intros c (i & Hi & Hn)%get_last.
      destruct (is_space c) eqn:Hc; [|done].
      destruct (H i c Hi) as (_ & Hsp). destruct (Hsp Hc) as (_ & _ & d & Hd & _).
      congruence.
    + intros c [i Hi]%occurs_get. by destruct (H i c Hi).
  - intros (Hs & Hl & Ho) i c Hi. split; [by eapply Ho, get_occurs|].
    intros Hc. destruct (single_spaced_get _ _ _ _ Hs Hi Hc) as (-> & Hi0 & Hd).
    split_and!; [done|destruct i; [by discriminate Hi0|lia]|].
    destruct (String.get (S i) s) as [d|] eqn:Hd'; [eauto|].
    rewrite (Hl _ (last_get _ _ _ Hi Hd')) in Hc. done.
Qed.

Lemma normalize_form s :
  single_spaced true (normalize s)
  ∧ (∀ c, last (normalize s) = Some c → is_space c = false)
  ∧ (∀ c, occurs c (normalize s) → lower_char c = c).
Proof.
  split_and!.
  - rewrite normalize_lower_first.
    apply single_spaced_rstrip, (single_spaced_head false); [|apply head_lstrip].
    apply (single_spaced_lstrip false), single_spaced_sub.
  - rewrite normalize_lower_first. apply last_rstrip.
  - intros c. apply occurs_lower.
Qed.
End more_strings.

(** X1 — the result of [normalize] has no character that lower-casing
    would change and no white space other than single spaces between two
    other characters; the strings that [normalize] leaves as they are are
    exactly those of this form. *)
Theorem normalize_normal_form (s : string) :
  normal_form (normalize s) ∧ (normalize s = s ↔ normal_form s).
Proof.
  assert (normal_form (normalize s)) as Hn
    by apply normal_form_iff, normalize_form.
  split; [done|]. split; [by intros <-|].
  intros (Hs & Hl & Ho)%normal_form_iff. unfold normalize, PyStr.strip.
  rewrite (sub_single_spaced false) by by eapply single_spaced_weaken.
  rewrite lstrip_fixed, rstrip_fixed, lower_fixed; try done.
  intros c Hc. destruct s as [|c' s]; [done|].
  injection Hc as ->. cbn [PyStr.single_spaced] in Hs.
  destruct (PyStr.is_space c); [by destruct Hs as (_ & ? & _)|done].
Qed.

(** X2 — [normalize] does not see letter case, white space around the
    text, or which and how many white-space characters separate two words;
    it gives the empty string exactly for the texts made of white space
    only. *)
Theorem normalize_insensitive :
  (∀ s s', PyStr.lower s = PyStr.lower s' → normalize s = normalize s')
  ∧ (∀ l s r, PyStr.all_space l = true → PyStr.all_space r = true →
       normalize (l +:+ s +:+ r) = normalize s)
  ∧ (∀ a w b, w ≠ "" → PyStr.all_space w = true →
       normalize (a +:+ w +:+ b) = normalize (a +:+ " " +:+ b))
  ∧ (∀ s, normalize s = "" ↔ PyStr.all_space s = true).
Proof.
  split_and!.
  - intros s s' H. by rewrite !normalize_lower_first, H.
  - intros l s r Hl Hr. unfold normalize, PyStr.strip. f_equal.
    rewrite (lstrip_sub_space_runs_pad _ false) by done.
    rewrite <- !lstrip_rstrip. f_equal. by apply rstrip_sub_space_runs_pad.
  - intros a w b Hne Hw. unfold normalize. by rewrite sub_space_runs_run.
  - intros s. unfold normalize, PyStr.strip. split.
    + intros H%lower_nil_inv. rewrite <- lstrip_rstrip in H.
      destruct (lstrip_split (PyStr.rstrip (PyStr.sub_space_runs false s)))
        as (l & Hl & Hls).
      rewrite H, str_app_nil_r in Hl.
      rewrite <- (all_space_sub_space_runs false).
      apply rstrip_all_space. apply rstrip_all_space in Hls.
      by rewrite <- Hl, rstrip_idemp in Hls.
    + intros Hs. rewrite <- lstrip_rstrip.
      replace (PyStr.rstrip _) with EmptyString; [done|]. symmetry.
      apply rstrip_all_space. by rewrite all_space_sub_space_runs.
Qed.

Section sheet_names.
Import PyStr.

Lemma occurs_sub_forbidden c s : occurs c (sub_forbidden s) → forbidden c = false.
Proof.
  unfold sub_forbidden. induction s as [|c' s IH]; simpl; [done|].
  intros [->|H]; [|auto]. by destruct (forbidden c') eqn:Hc.
Qed.

Lemma sub_forbidden_fixed s :
  (∀ c, occurs c s → forbidden c = false) → sub_forbidden s = s.
Proof.
  unfold sub_forbidden. induction s as [|c s IH]; simpl; [done|]. intros H.
  rewrite (H c) by auto. f_equal. apply IH. auto.
Qed.

Lemma occurs_strip c s : occurs c (strip s) → occurs c s.
Proof.
  unfold strip. intros H.
  destruct (lstrip_split s) as (l & Hl & _).
  destruct (rstrip_split (lstrip s)) as (r & Hr & _).
  rewrite Hl, Hr, !occurs_app. auto.
Qed.

Lemma occurs_take c n s : occurs c (take n s) → occurs c s.
Proof.
  intros H. destruct (take_prefix n s) as [rest Hrest].
  rewrite Hrest, occurs_app. auto.
Qed.

Lemma head_take n s : head (take (S n) s) = head s.
Proof. by destruct s. Qed.

Lemma head_strip s c : head (strip s) = Some c → is_space c = false.
Proof.
  unfold strip. rewrite <- lstrip_rstrip_lstrip. apply head_lstrip.
Qed.

Lemma length_rstrip s : String.length (rstrip s) ≤ String.length s.
Proof.
  destruct (rstrip_split s) as (r & Hr & _). rewrite Hr at 2.
  rewrite length_app. lia.
Qed.

Lemma length_lstrip s : String.length (lstrip s) ≤ String.length s.
Proof.
  destruct (lstrip_split s) as (l & Hl & _). rewrite Hl at 2.
  rewrite length_app. lia.
Qed.

Lemma lstrip_same_length s : String.length (lstrip s) = String.length s → lstrip s = s.
Proof.
  destruct s as [|c s]; [done|]. cbn [lstrip].
  destruct (is_space c); [|done]. intros H.
  pose proof (length_lstrip s). simpl in H. lia.
Qed.

Lemma rstrip_same_length s : String.length (rstrip s) = String.length s → rstrip s = s.
Proof.
  induction s as [|c s IH]; [done|]. cbn [rstrip].
  pose proof (length_rstrip s) as Hle.
  destruct (rstrip s) as [|c' r] eqn:Hr.
  - destruct (is_space c); simpl; [done|].
    intros H. destruct s; [done|]. simpl in H. lia.
  - intros H. simpl in H, Hle. rewrite IH; [done|]. simpl. lia.
Qed.

(** The form of every result of [safe_sheet_name]. *)
Lemma safe_sheet_name_form name :
  1 ≤ String.length (safe_sheet_name name) ≤ 31
  ∧ (∀ c, occurs c (safe_sheet_name name) → forbidden c = false)
  ∧ (∀ c, head (safe_sheet_name name) = Some c → is_space c = false).
Proof.
  unfold safe_sheet_name. set (t := strip (sub_forbidden name)).
  split_and!.
  - rewrite length_take. case_decide as Ht; [simpl; lia|].
    destruct t; [done|]. simpl. lia.
  - rewrite length_take. lia.
  - intros c Hc%occurs_take. case_decide.
    + simpl in Hc. destruct Hc as [->|[->|[->|[->|[->|[]]]]]]; done.
    + eapply occurs_sub_forbidden, occurs_strip, Hc.
  - intros c. rewrite head_take. case_decide.
    + by intros [= <-].
    + apply head_strip.
Qed.
End sheet_names.

(** X3 — every result of [safe_sheet_name] can be the title of a sheet: it
    has between 1 and 31 characters, none of them is one of the characters
    that [: \ / ? * [ ]] a title must not have, and it does not start with
    white space. *)
Theorem safe_sheet_name_valid (name : string) :
  1 ≤ String.length (safe_sheet_name name) ≤ 31
  ∧ (∀ i c, String.get i (safe_sheet_name name) = Some c → forbidden c = false)
  ∧ (∀ c, String.get 0 (safe_sheet_name name) = Some c → PyStr.is_space c = false).
Proof.
  destruct (safe_sheet_name_form name) as (Hlen & Hf & Hh).
  split_and!; [lia..| |done]. intros i c Hi. eapply Hf, get_occurs, Hi.
Qed.

(** X4 — the names that [safe_sheet_name] returns unchanged are exactly the
    names of 1 to 31 characters without a forbidden character and without
    white space at either end. *)
Theorem safe_sheet_name_fixed (name : string) :
  safe_sheet_name name = name ↔
  1 ≤ String.length name ≤ 31
  ∧ (∀ i c, String.get i name = Some c → forbidden c = false)
  ∧ (∀ c, String.get 0 name = Some c → PyStr.is_space c = false)
  ∧ (∀ c, PyStr.last name = Some c → PyStr.is_space c = false).
Proof.
  split.
  - intros Heq. destruct (safe_sheet_name_form name) as (Hlen & Hf & Hh).
    rewrite Heq in Hlen, Hf, Hh. split_and!; [lia..| |done|].
    { intros i c Hi. eapply Hf, get_occurs, Hi. }
    unfold safe_sheet_name in Heq. rewrite sub_forbidden_fixed in Heq by done.
    assert (PyStr.strip name = name) as Hstrip.
    { pose proof (length_rstrip (PyStr.lstrip name)) as H1.
      pose proof (length_lstrip name) as H2.
      case_decide as Ht.
      - rewrite <- Heq in Ht. done.
      - apply (f_equal String.length) in Heq. rewrite length_take in Heq.
        unfold PyStr.strip in *.
        assert (PyStr.lstrip name = name) as Hl by (apply lstrip_same_length; lia).
        rewrite Hl in *. apply rstrip_same_length. lia. }
    rewrite <- Hstrip. apply last_rstrip.
  - intros (Hlen & Hf & Hh & Hl). unfold safe_sheet_name.
    rewrite sub_forbidden_fixed by (intros c [i Hi]%occurs_get; eauto).
    unfold PyStr.strip. rewrite lstrip_fixed, rstrip_fixed by done.
    rewrite decide_False by (destruct name; [simpl in Hlen; lia|done]).
    apply take_all. lia.
Qed.

(** X5 — applying [safe_sheet_name] to one of its results only removes the
    white space that cutting at 31 characters may have left at the end; a
    name that was not cut is returned as it is, and a third application
    changes nothing any more. *)
Theorem safe_sheet_name_twice (name : string) :
  safe_sheet_name (safe_sheet_name name) = PyStr.rstrip (safe_sheet_name name)
  ∧ (String.length (PyStr.strip (sub_forbidden name)) ≤ 31 →
       safe_sheet_name (safe_sheet_name name) = safe_sheet_name name)
  ∧ safe_sheet_name (safe_sheet_name (safe_sheet_name name))
    = safe_sheet_name (safe_sheet_name name).
Proof.
  assert (∀ n, safe_sheet_name (safe_sheet_name n) = PyStr.rstrip (safe_sheet_name n))
    as Htwice.
  { intros n. destruct (safe_sheet_name_form n) as (Hlen & Hf & Hh).
    set (t := safe_sheet_name n) in *. unfold safe_sheet_name at 1.
    rewrite sub_forbidden_fixed by done. unfold PyStr.strip.
    rewrite lstrip_fixed by done.
    pose proof (length_rstrip t).
    rewrite decide_False; [apply take_all; lia|].
    intros Hr%rstrip_all_space. destruct t as [|c t]; [simpl in Hlen; lia|].
    simpl in Hr. rewrite (Hh c eq_refl) in Hr. done. }
  split_and!; [done| |].
  - intros Hle. rewrite Htwice. apply rstrip_fixed. unfold safe_sheet_name.
    case_decide as Ht; [by intros c [= <-]|].
    rewrite take_all by done. apply last_rstrip.
  - rewrite (Htwice (safe_sheet_name name)), Htwice. apply rstrip_idemp.
Qed.

Section long_names.
Import PyStr.

Lemma lstrip_app_space l s : all_space l = true → lstrip (l +:+ s) = lstrip s.
Proof.
  induction l as [|c l IH]; [done|]. intros [Hc Hl]%andb_true_iff.
  rewrite str_app_cons. cbn [lstrip]. rewrite Hc. auto.
Qed.

Lemma rstrip_app s t : rstrip t ≠ "" → rstrip (s +:+ t) = s +:+ rstrip t.
Proof.
  intros Ht. induction s as [|c s IH]; [done|].
  rewrite !str_app_cons. cbn [rstrip]. rewrite IH.
  destruct (s +:+ rstrip t) eqn:Hs; [|done].
  destruct s; [|done]. by rewrite str_app_nil_l in Hs.
Qed.

Lemma take_app_le n s t : n ≤ String.length s → take n (s +:+ t) = take n s.
Proof.
  revert s. induction n as [|n IH]; intros [|c s] Hn; simpl in *; try done; try lia.
  f_equal. apply IH. lia.
Qed.
End long_names.

(** X26 — a class name that fills the 31 characters of a title by itself
    leaves no room for the lesson: when the class name, with its forbidden
    characters replaced and the white space before it removed, has 31
    characters or more, the title is its first 31 characters, whatever the
    lesson is, so that all the lessons of the class get the same title. *)
Theorem safe_sheet_name_long_class (class_name lesson_name : string) :
  31 ≤ String.length (PyStr.lstrip (sub_forbidden class_name)) →
  safe_sheet_name (class_name +:+ " - " +:+ lesson_name)
  = PyStr.take 31 (PyStr.lstrip (sub_forbidden class_name)).
Proof.
  intros Hlen. unfold safe_sheet_name, sub_forbidden, PyStr.strip.
  rewrite !map_app. fold (sub_forbidden class_name) (sub_forbidden lesson_name).
  destruct (lstrip_split (sub_forbidden class_name)) as (l & Hl & Hspace).
  set (u := PyStr.lstrip (sub_forbidden class_name)) in *.
  set (rest := PyStr.map _ " - " +:+ sub_forbidden lesson_name).
  assert (PyStr.lstrip (sub_forbidden class_name +:+ rest) = u +:+ rest) as ->.
  { rewrite Hl, str_app_assoc, lstrip_app_space by done.
    apply lstrip_fixed. intros c Hc. apply (head_lstrip (sub_forbidden class_name)).
    fold u. destruct u; [simpl in Hlen; lia|exact Hc]. }
  assert (PyStr.rstrip rest ≠ "") as Hrest.
  { intros Hr%rstrip_all_space. unfold rest in Hr.
    rewrite all_space_app in Hr. by apply andb_true_iff in Hr as [Hr _]. }
  rewrite rstrip_app by done.
  rewrite decide_False by (destruct u; [simpl in Hlen; lia|done]).
  by apply take_app_le.
Qed.

(** ** [guess_col] *)

Lemma find_same_image {A B} (f : A → B) (P : B → bool) (l l' : list A) :
  f <$> l = f <$> l' →
  match List.find (λ x, P (f x)) l, List.find (λ x, P (f x)) l' with
  | Some h, Some h' => ∃ j, l !! j = Some h ∧ l' !! j = Some h'
  | None, None => True
  | _, _ => False
  end.
Proof.
  revert l'. induction l as [|x l IH]; intros [|x' l'] Heq; simplify_eq/=; [done|].
  rewrite H. destruct (P (f x')); [by exists 0|].
  specialize (IH _ H0). repeat case_match; try done.
  destruct IH as (j & ? & ?). by exists (S j).
Qed.

Lemma contains_occurs p s c :
  PyStr.contains p s = true → PyStr.occurs c p → PyStr.occurs c s.
Proof.
  intros (a & b & ->)%contains_spec Hc. rewrite !occurs_app. auto.
Qed.

Lemma guessColumn_app headers cands more :
  guessColumn headers (cands ++ more)
  = match guessColumn headers cands with
    | Some h => Some h
    | None => guessColumn headers more
    end.
Proof.
  induction cands as [|p cands IH]; simpl; [done|].
  by destruct (List.find _ headers).
Qed.

(** X6 — the guess does not depend on how the headers are written: two
    header lists with the same normalized headers give their guess at the
    same position, or both give none. *)
Theorem guess_col_header_variation (cols cols' cands : list string) :
  normalize <$> cols = normalize <$> cols' →
  match guess_col cols cands, guess_col cols' cands with
  | Some h, Some h' => ∃ j, cols !! j = Some h ∧ cols' !! j = Some h'
  | None, None => True
  | _, _ => False
  end.
Proof.
  intros Heq. rewrite !guess_col_guessColumn.
  induction cands as [|p cands IH]; simpl; [done|].
  pose proof (find_same_image normalize (PyStr.contains p) _ _ Heq) as Hfind.
  destruct (List.find _ cols), (List.find _ cols'); done.
Qed.


(** X8 — the phrases are tried in order of priority: with more phrases
    added after the candidates, a guess found with the candidates stays, and
    the added phrases are tried only when the candidates found nothing. *)
Theorem guess_col_app (cols cands more : list string) :
  guess_col cols (cands ++ more)
  = match guess_col cols cands with
    | Some h => Some h
    | None => guess_col cols more
    end.
Proof. rewrite !guess_col_guessColumn. apply guessColumn_app. Qed.

(** ** The choice of the sheet and the defaults of the select boxes *)

Lemma guessColumn_match headers cands h :
  guessColumn headers cands = Some h →
  h ∈ headers ∧ ∃ phrase, phrase ∈ cands ∧ PyStr.contains phrase (normalize h) = true.
Proof.
  induction cands as [|p cands IH]; simpl; [done|].
  destruct (List.find _ headers) as [h'|] eqn:Hfind.
  - intros [= ->]. apply find_Some_lookup in Hfind as (j & Hj & Hp & _).
    split; [by eapply list_elem_of_lookup_2|]. exists p. split; [left|done].
  - intros (? & p' & ? & ?)%IH. split; [done|]. exists p'. split; [by right|done].
Qed.

Lemma preferred_scan_find key sheet_names preferred :
  preferred_scan key sheet_names preferred
  = match List.find (λ s, PyStr.contains key (normalize s)) sheet_names with
    | Some s => Some s
    | None => preferred
    end.
Proof.
  induction sheet_names as [|s sheet_names IH]; simpl; [done|].
  by destruct (PyStr.contains key (normalize s)).
Qed.

(** A sheet whose normalized name contains a key that is not empty has a
    name that is not empty. *)
Lemma contains_normalize_nonempty key s :
  key ≠ "" → PyStr.contains key (normalize s) = true → s ≠ "".
Proof. intros Hkey Hc ->. by destruct key. Qed.

Lemma preferred_loop_guessColumn keys sheet_names :
  Forall (λ key, key ≠ "") keys →
  preferred_loop keys sheet_names None = guessColumn sheet_names keys.
Proof.
  induction 1 as [|key keys Hkey _ IH]; simpl; [done|].
  rewrite preferred_scan_find.
  destruct (List.find _ sheet_names) as [s|] eqn:Hfind; [|done].
  apply find_Some_lookup in Hfind as (_ & _ & Hc & _).
  apply contains_normalize_nonempty in Hc; [|done].
  unfold truthy. by rewrite bool_decide_true.
Qed.

Lemma index_if_in_default x l :
  (∀ v, x = Some v → v ∈ l) →
  ∃ i, index_if_in x l l = Ok i
       ∧ (l ≠ [] → i < length l)
       ∧ selectbox_default l i = match x with Some v => Some v | None => head l end.
Proof.
  intros Hx. unfold index_if_in, list_index, selectbox_default.
  destruct x as [v|].
  - destruct (get_loc_elem v l (Hx v eq_refl)) as [i Hi].
    rewrite decide_True, Hi by auto. exists i. split_and!; [done| |].
    + intros _. by eapply get_loc_lt.
    + by apply get_loc_lookup.
  - exists 0. split_and!; [done| |by rewrite head_lookup].
    destruct l; [done|simpl; lia].
Qed.

(** X9 — the choice of the preferred sheet is the search of [guess_col]
    among the sheet names with the keys master, purch, bulk, order and list:
    the first sheet, in the order of the workbook, whose normalized name
    contains the first key, in this order, that some sheet name contains. *)
Theorem preferred_sheet_guess_col (sheet_names : list string) :
  preferred_sheet sheet_names
  = guess_col sheet_names ["master"; "purch"; "bulk"; "order"; "list"].
Proof.
  rewrite guess_col_guessColumn. apply preferred_loop_guessColumn.
  repeat constructor; done.
Qed.

(** X10 — the index given to the select box of the sheets is never out of
    range and never fails to be found: the box starts on the preferred
    sheet when there is one, and on the first sheet otherwise. *)
Theorem sheet_index_default (sheet_names : list string) :
  ∃ i, sheet_index sheet_names = Ok i
       ∧ (sheet_names ≠ [] → i < length sheet_names)
       ∧ selectbox_default sheet_names i
         = match preferred_sheet sheet_names with
           | Some p => Some p
           | None => head sheet_names
           end.
Proof.
  apply index_if_in_default. intros v Hv. unfold preferred_sheet in Hv.
  rewrite preferred_loop_guessColumn in Hv by (repeat constructor; done).
  by apply guessColumn_match in Hv as [? _].
Qed.

(** X11 — the select boxes of the columns start on the guesses: a box of a
    required column on the guessed column, and on the first column without
    a guess; the boxes of the size and of the unit on the guessed column,
    and on ["(none)"] without a guess, so that the optional column handed
    over when nothing is changed is the guess itself. No index is out of
    range. *)
Theorem selectbox_defaults (cols cands : list string) :
  (∃ i, required_index (guess_col cols cands) cols = Ok i
        ∧ (cols ≠ [] → i < length cols)
        ∧ selectbox_default cols i
          = match guess_col cols cands with
            | Some h => Some h
            | None => head cols
            end)
  ∧ (∃ i, optional_index (guess_col cols cands) cols = Ok i
          ∧ selectbox_default ("(none)" :: cols) i
            = Some (default "(none)" (guess_col cols cands)))
  ∧ (∃ i s, optional_index (default_size cols) cols = Ok i
            ∧ selectbox_default ("(none)" :: cols) i = Some s
            ∧ chosen s = default_size cols)
  ∧ (∃ i s, optional_index (default_uom cols) cols = Ok i
            ∧ selectbox_default ("(none)" :: cols) i = Some s
            ∧ chosen s = default_uom cols).
Proof.
  assert (∀ cands', ∃ i,
            optional_index (guess_col cols cands') cols = Ok i
            ∧ selectbox_default ("(none)" :: cols) i
              = Some (default "(none)" (guess_col cols cands'))) as Hopt.
  { intros cands'. unfold optional_index, index_if_in, list_index, selectbox_default.
    destruct (guess_col cols cands') as [h|] eqn:Hg; [|by exists 0].
    rewrite guess_col_guessColumn in Hg. apply guessColumn_match in Hg as [Hh _].
    rewrite decide_True by done.
    destruct (get_loc_elem h ("(none)" :: cols)) as [i Hi]; [by right|].
    rewrite Hi. exists i. split; [done|]. by apply get_loc_lookup. }
  assert (∀ cands',
            Forall (λ p, PyStr.contains p (normalize "(none)") = false) cands' →
            ∃ i s, optional_index (guess_col cols cands') cols = Ok i
                   ∧ selectbox_default ("(none)" :: cols) i = Some s
                   ∧ chosen s = guess_col cols cands') as Hchosen.
  { intros cands' Hnone. destruct (Hopt cands') as (i & Hi & Hd).
    exists i, (default "(none)" (guess_col cols cands')). split_and!; [done..|].
    destruct (guess_col cols cands') as [h|] eqn:Hg; [|done]. simpl.
    unfold chosen. rewrite decide_False; [done|]. intros ->.
    rewrite guess_col_guessColumn in Hg.
    apply guessColumn_match in Hg as (_ & p & Hp & Hc).
    rewrite Forall_forall in Hnone. by rewrite (Hnone p Hp) in Hc. }
  split_and!.
  - apply index_if_in_default. intros v Hv.
    rewrite guess_col_guessColumn in Hv. by apply guessColumn_match in Hv as [? _].
  - apply Hopt.
  - apply Hchosen. by repeat constructor.
  - apply Hchosen. by repeat constructor.
Qed.

(** ** The table handed to [make_output_excel] and the preview *)

Lemma get_loc_NoDup cols j c :
  NoDup cols → cols !! j = Some c → get_loc c cols = Some j.
Proof.
  intros Hnd Hj. destruct (get_loc_elem c cols) as [j' Hj'].
  { by eapply list_elem_of_lookup_2. }
  rewrite Hj'. f_equal. eapply NoDup_lookup; [done| |done].
  by apply get_loc_lookup.
Qed.

Lemma lookup_seq_default (cols : list string) :
  (λ j, default "" (cols !! j)) <$> seq 0 (length cols) = cols.
Proof.
  apply list_eq. intros j. rewrite list_lookup_fmap.
  destruct (decide (j < length cols)) as [Hj|Hj].
  - rewrite lookup_seq_lt by done. simpl.
    destruct (lookup_lt_is_Some_2 cols j Hj) as [c Hc]. by rewrite Hc.
  - rewrite lookup_seq_ge, lookup_ge_None_2 by lia. done.
Qed.

Lemma iloc_seq (r : list cell) : iloc r <$> seq 0 (length r) = r.
Proof.
  apply list_eq. intros j. rewrite list_lookup_fmap. unfold iloc.
  destruct (decide (j < length r)) as [Hj|Hj].
  - rewrite lookup_seq_lt by done. simpl.
    destruct (lookup_lt_is_Some_2 r j Hj) as [c Hc]. by rewrite Hc.
  - rewrite lookup_seq_ge, lookup_ge_None_2 by lia. done.
Qed.

Lemma iloc_key_of locs r j' j :
  locs !! j' = Some j → iloc (key_of locs r) j' = iloc r j.
Proof.
  intros Hj. unfold key_of. unfold iloc at 1.
  by rewrite list_lookup_fmap, Hj.
Qed.

Lemma key_of_cell_of cols by_ locs r :
  Forall2 (λ c j, get_loc c cols = Some j) by_ locs →
  key_of locs r = cell_of cols r <$> by_.
Proof.
  induction 1 as [|c j by_ locs Hc _ IH]; [done|].
  unfold key_of in *. rewrite !fmap_cons. f_equal; [|done].
  unfold cell_of. by rewrite Hc.
Qed.

Lemma Forall_iff_in {A} (P Q : A → Prop) (l : list A) :
  (∀ x, x ∈ l → P x ↔ Q x) → Forall P l ↔ Forall Q l.
Proof.
  intros H. rewrite !Forall_forall. split; intros HF x Hx; apply H; auto.
Qed.

Section dropna_columns_facts.
Variable df : DataFrame.

Local Abbreviation kept :=
  (filter (λ j, Exists (λ r, iloc r j ≠ NaN) (rows df))
     (seq 0 (length (columns df)))).

Lemma kept_columns_sublist : sublist (columns (dropna_columns df)) (columns df).
Proof.
  unfold dropna_columns. cbn [columns].
  pose proof (fmap_sublist (λ j, default "" (columns df !! j)) _ _
                (sublist_filter (λ j, Exists (λ r, iloc r j ≠ NaN) (rows df))
                   (seq 0 (length (columns df))))) as H.
  by rewrite lookup_seq_default in H.
Qed.

Lemma kept_lookup j' j :
  kept !! j' = Some j →
  j < length (columns df) ∧ Exists (λ r, iloc r j ≠ NaN) (rows df)
  ∧ columns (dropna_columns df) !! j' = columns df !! j.
Proof.
  intros Hj. pose proof (list_elem_of_lookup_2 _ _ _ Hj) as Hin.
  apply list_elem_of_filter in Hin as [Hex Hin]. apply elem_of_seq in Hin.
  split_and!; [lia|done|].
  unfold dropna_columns. cbn [columns]. rewrite list_lookup_fmap, Hj. simpl.
  destruct (lookup_lt_is_Some_2 (columns df) j) as [c Hc]; [lia|]. by rewrite Hc.
Qed.

Lemma kept_column_lookup j' c :
  columns (dropna_columns df) !! j' = Some c →
  ∃ j, kept !! j' = Some j ∧ columns df !! j = Some c.
Proof.
  intros Hc. assert (is_Some (kept !! j')) as [j Hj].
  { apply lookup_lt_is_Some. apply lookup_lt_Some in Hc.
    unfold dropna_columns in Hc. cbn [columns] in Hc.
    by rewrite length_fmap in Hc. }
  exists j. split; [done|].
  destruct (kept_lookup _ _ Hj) as (_ & _ & Heq). by rewrite <- Heq.
Qed.

Lemma kept_elem j :
  j < length (columns df) → Exists (λ r, iloc r j ≠ NaN) (rows df) →
  ∃ j', kept !! j' = Some j.
Proof.
  intros Hj Hex. apply list_elem_of_lookup_1, list_elem_of_filter.
  split; [done|]. apply elem_of_seq. lia.
Qed.

Lemma dropna_columns_rows :
  rows (dropna_columns df) = key_of kept <$> rows df.
Proof. done. Qed.

Lemma dropna_columns_row_length :
  Forall (λ r, length r = length (columns (dropna_columns df)))
    (rows (dropna_columns df)).
Proof.
  rewrite dropna_columns_rows. apply Forall_fmap, Forall_true.
  intros r. unfold dropna_columns, key_of, compose. cbn [columns].
  by rewrite !length_fmap.
Qed.

Hypothesis Hnd : NoDup (columns df).

Lemma dropna_columns_NoDup : NoDup (columns (dropna_columns df)).
Proof. eapply sublist_NoDup; [done|apply kept_columns_sublist]. Qed.

(** A column kept stands where a column with a value stood, and every
    row has under it the cell it had. *)
Lemma dropna_columns_cell c :
  c ∈ columns (dropna_columns df) →
  ∃ j, columns df !! j = Some c
    ∧ Exists (λ r, iloc r j ≠ NaN) (rows df)
    ∧ ∀ r, cell_of (columns df) r c = iloc r j
         ∧ cell_of (columns (dropna_columns df)) (key_of kept r) c
           = cell_of (columns df) r c.
Proof.
  intros [j' Hc]%list_elem_of_lookup_1.
  destruct (kept_column_lookup _ _ Hc) as (j & Hj & Hcj).
  exists j. destruct (kept_lookup _ _ Hj) as (_ & Hex & _).
  split_and!; [done..|]. intros r.
  unfold cell_of. rewrite (get_loc_NoDup _ _ _ Hnd Hcj).
  rewrite (get_loc_NoDup _ _ _ dropna_columns_NoDup Hc).
  split; [done|]. by apply iloc_key_of.
Qed.

(** The cleaned rows of the table without its empty columns are those of
    the table, without the cells of these columns. *)
Lemma dropna_columns_cleaned class_col lesson_col item_col :
  Forall (λ c, c ∈ columns (dropna_columns df)) [class_col; lesson_col; item_col] →
  cleaned (dropna_columns df) class_col lesson_col item_col
  = key_of kept <$> cleaned df class_col lesson_col item_col.
Proof.
  intros Hin. unfold cleaned. rewrite dropna_columns_rows, filter_fmap. f_equal.
  apply list_filter_iff. intros r. unfold triple.
  rewrite !Forall_fmap. apply Forall_iff_in. intros c Hc. unfold compose.
  rewrite Forall_forall in Hin.
  destruct (dropna_columns_cell c (Hin c Hc)) as (j & _ & _ & Hcell).
  destruct (Hcell r) as [_ ->]. done.
Qed.
End dropna_columns_facts.

(** X12 — dropping the columns without any value keeps the table in
    order: the labels stay distinct and every row keeps one cell per
    column; no row is lost; the columns kept are those with a cell that is
    not null, in their former order; and under a column kept every row has
    the cell it had. *)
Theorem dropna_columns_invariant (df : DataFrame) :
  well_formed df →
  well_formed (dropna_columns df)
  ∧ length (rows (dropna_columns df)) = length (rows df)
  ∧ sublist (columns (dropna_columns df)) (columns df)
  ∧ (∀ c, c ∈ columns (dropna_columns df) ↔
          c ∈ columns df ∧ ∃ r, r ∈ rows df ∧ cell_of (columns df) r c ≠ NaN)
  ∧ (∀ i r, rows df !! i = Some r →
       ∃ r', rows (dropna_columns df) !! i = Some r'
         ∧ ∀ c, c ∈ columns (dropna_columns df) →
             cell_of (columns (dropna_columns df)) r' c = cell_of (columns df) r c).
Proof.
  intros [Hnd Hlen]. split_and!.
  - split; [by apply dropna_columns_NoDup|apply dropna_columns_row_length].
  - by rewrite dropna_columns_rows, length_fmap.
  - apply kept_columns_sublist.
  - intros c. split.
    + intros Hc. destruct (dropna_columns_cell df Hnd c Hc) as (j & Hj & Hex & Hcell).
      split; [by eapply list_elem_of_lookup_2|].
      apply Exists_exists in Hex as (r & Hr & Hne). exists r. split; [done|].
      by destruct (Hcell r) as [-> _].
    + intros (Hc & r & Hr & Hne).
      destruct (get_loc_elem _ _ Hc) as [j Hj].
      unfold cell_of in Hne. rewrite Hj in Hne.
      destruct (kept_elem df j) as [j' Hj'].
      * by eapply get_loc_lt.
      * apply Exists_exists. eauto.
      * destruct (kept_lookup _ _ _ Hj') as (_ & _ & Heq).
        apply list_elem_of_lookup_2 with j'.
        rewrite Heq. by apply get_loc_lookup.
  - intros i r Hr. eexists. split.
    + by rewrite dropna_columns_rows, list_lookup_fmap, Hr.
    + intros c Hc. destruct (dropna_columns_cell df Hnd c Hc) as (j & _ & _ & Hcell).
      by destruct (Hcell r) as [_ ->].
Qed.

(** X13 — dropping the empty columns a second time changes nothing. *)
Theorem dropna_columns_idempotent (df : DataFrame) :
  dropna_columns (dropna_columns df) = dropna_columns df.
Proof.
  set (df' := dropna_columns df).
  pose proof (dropna_columns_row_length df) as Hlen. fold df' in Hlen.
  unfold dropna_columns at 1. rewrite filter_all.
  - rewrite lookup_seq_default. destruct df' as [cols' rows']. cbn [columns rows] in *.
    f_equal. induction Hlen as [|r rs Hr _ IH]; [done|].
    rewrite fmap_cons, IH. f_equal. unfold key_of. rewrite <- Hr. apply iloc_seq.
  - apply Forall_forall. intros j' Hj'%elem_of_seq.
    destruct (lookup_lt_is_Some_2 (columns df') j') as [c Hc]; [lia|].
    destruct (kept_column_lookup _ _ _ Hc) as (j & Hj & _).
    destruct (kept_lookup _ _ _ Hj) as (_ & Hex & _).
    apply Exists_exists in Hex as (r & Hr & Hne).
    apply Exists_exists. exists (key_of (filter (λ j, Exists (λ r, iloc r j ≠ NaN) (rows df))
                                  (seq 0 (length (columns df)))) r).
    split.
    + unfold df'. rewrite dropna_columns_rows. apply list_elem_of_fmap. eauto.
    + by rewrite (iloc_key_of _ _ _ _ Hj).
Qed.

(** X14 — a table with fewer than four columns that hold a value never
    reaches the generation: whatever columns are chosen among those offered,
    the page stops with a message. *)
Theorem page_needs_four_columns (str_to_number : string → option Z)
    (df : DataFrame) (class_col lesson_col item_col qty_col size_col uom_col : string) :
  length (columns (dropna_columns df)) < 4 →
  Forall (λ c, c ∈ columns (dropna_columns df))
    [class_col; lesson_col; item_col; qty_col] →
  ∃ message,
    page str_to_number df class_col lesson_col item_col qty_col size_col uom_col
    = Stopped message.
Proof.
  intros Hlen Hin.
  destruct (frame_empty (dropna_columns df)) eqn:Hempty.
  { eexists. by apply page_empty. }
  rewrite page_usable by done. case_decide as Hnd; [|by eexists].
  apply NoDup_submseteq with (k := columns (dropna_columns df)) in Hnd.
  - apply submseteq_length in Hnd. cbn [length] in Hnd. lia.
  - by apply Forall_forall.
Qed.

(** X15 — the preview does not fail for columns chosen in the select
    boxes: it shows the chosen columns in the order class, lesson, item,
    quantity, size, unit, the optional ones when they are chosen, and the
    first 25 rows of the table, or all of them when there are fewer. *)
Theorem preview_spec (df : DataFrame)
    (class_col lesson_col item_col qty_col : string)
    (size_col uom_col : option string) :
  Forall (λ c, c ∈ columns df)
    ([class_col; lesson_col; item_col; qty_col]
     ++ option_list size_col ++ option_list uom_col) →
  ∃ p, preview df class_col lesson_col item_col qty_col size_col uom_col = Ok p
     ∧ columns p = [class_col; lesson_col; item_col; qty_col]
                   ++ option_list size_col ++ option_list uom_col
     ∧ length (rows p) = min 25 (length (rows df))
     ∧ ∀ j r, j < 25 → rows df !! j = Some r →
         rows p !! j = Some (cell_of (columns df) r <$> columns p).
Proof.
  intros Hin. unfold preview.
  replace (omap id _) with ([class_col; lesson_col; item_col; qty_col]
                            ++ option_list size_col ++ option_list uom_col)
    by (by destruct size_col, uom_col).
  set (chosen_cols := _ ++ _) in *.
  unfold getitem_list.
  destruct (get_locs_ok _ _ Hin) as (locs & -> & Hlocs). cbn [result_bind].
  unfold DataFrame_head. cbn [rows columns].
  eexists. split_and!; [done..| |]; cbn [rows columns].
  - by rewrite list.length_take, length_fmap.
  - intros j r Hj Hr.
    rewrite lookup_take_lt, list_lookup_fmap, Hr by done.
    cbn [fmap option_fmap option_map]. f_equal. by apply key_of_cell_of.
Qed.

(** ** Errors and contents of the workbook *)

(** X16 — when one of the four required columns is no column of the
    table, [make_output_excel] raises [KeyError]: with the missing ones among
    class, lesson and item, in this order, and with the quantity column when
    only that one is missing. *)
Theorem make_output_excel_missing_column (str_to_number : string → option Z)
    (class_col lesson_col item_col qty_col : string)
    (size_col uom_col : option string) (df : DataFrame) :
  ¬ Forall (λ c, c ∈ columns df) [class_col; lesson_col; item_col; qty_col] →
  make_output_excel str_to_number class_col lesson_col item_col qty_col
    size_col uom_col df
  = Raise (KeyError
             match filter (λ c, c ∉ columns df) [class_col; lesson_col; item_col] with
             | [] => [qty_col]
             | missing => missing
             end).
Proof.
  intros Hmissing. unfold make_output_excel, aggregate, dropna.
  destruct (filter _ [class_col; lesson_col; item_col]) as [|c missing] eqn:Hf;
    [|done].
  cbn [result_bind]. unfold getitem. cbn [columns].
  destruct (get_loc qty_col (columns df)) as [j|] eqn:Hq; [|done].
  destruct Hmissing.
  assert (∀ c, c ∈ [class_col; lesson_col; item_col] → c ∈ columns df) as Hin.
  { intros c Hc. destruct (decide (c ∈ columns df)) as [|Hn]; [done|].
    assert (c ∈ filter (λ c, c ∉ columns df) [class_col; lesson_col; item_col]) as Hc'
      by by apply list_elem_of_filter.
    rewrite Hf in Hc'. by apply elem_of_nil in Hc'. }
  repeat apply Forall_cons_2; try (apply Hin; rewrite !elem_of_cons; tauto).
  - by eapply list_elem_of_lookup_2, get_loc_lookup.
  - constructor.
Qed.


Lemma sum_Z_app (l1 l2 : list Z) : sum_Z (l1 ++ l2) = (sum_Z l1 + sum_Z l2)%Z.
Proof. induction l1 as [|z l1 IH]; simpl; [done|]. rewrite IH. lia. Qed.

Lemma sum_Z_perm (l1 l2 : list Z) : l1 ≡ₚ l2 → sum_Z l1 = sum_Z l2.
Proof. induction 1; simpl; lia. Qed.

Lemma sum_Z_fmap_add {A} (g h : A → Z) (l : list A) :
  sum_Z ((λ x, g x + h x)%Z <$> l) = (sum_Z (g <$> l) + sum_Z (h <$> l))%Z.
Proof.
  induction l as [|x l IH]; [done|]. rewrite !fmap_cons.
  unfold sum_Z in *. cbn [foldr]. rewrite IH. lia.
Qed.

Lemma sum_Z_indicator {K} `{EqDecision K} (k0 : K) (v : Z) (ks : list K) :
  NoDup ks →
  sum_Z ((λ k, if decide (k0 = k) then v else 0%Z) <$> ks)
  = if decide (k0 ∈ ks) then v else 0%Z.
Proof.
  induction 1 as [|k ks Hk _ IH]; [done|]. rewrite fmap_cons.
  unfold sum_Z in *. cbn [foldr]. rewrite IH.
  destruct (decide (k0 = k)) as [->|Hne].
  - rewrite decide_False by done. rewrite decide_True by left. lia.
  - destruct (decide (k0 ∈ ks)).
    + rewrite decide_True by by right. lia.
    + rewrite decide_False; [lia|]. by intros [?|?]%elem_of_cons.
Qed.

(** A sum over a list is the sum, over the keys, of the sums over the
    elements of each key. *)
Lemma sum_Z_partition {A K} `{EqDecision K} (key : A → K) (f : A → Z)
    (ks : list K) (l : list A) :
  NoDup ks → (∀ x, x ∈ l → key x ∈ ks) →
  sum_Z ((λ k, sum_Z (f <$> filter (λ x, key x = k) l)) <$> ks) = sum_Z (f <$> l).
Proof.
  intros Hnd. induction l as [|x l IH]; intros Hin.
  - clear. induction ks as [|k ks IHks]; [done|].
    rewrite fmap_cons. unfold sum_Z in *. cbn [foldr]. by rewrite IHks.
  - rewrite fmap_cons. unfold sum_Z at 3. cbn [foldr]. fold (sum_Z (f <$> l)).
    rewrite <- IH by (intros y Hy; apply Hin; by right).
    pose proof (sum_Z_indicator (key x) (f x) ks Hnd) as Hx.
    rewrite decide_True in Hx by (apply Hin; left).
    rewrite <- Hx at 1. rewrite <- sum_Z_fmap_add. f_equal.
    apply list_fmap_ext. intros _ k _.
    rewrite filter_cons. by destruct (decide (key x = k)).
Qed.

Lemma filter_ext_in {A} (P Q : A → Prop) `{∀ x, Decision (P x)}
    `{∀ x, Decision (Q x)} (l : list A) :
  (∀ x, x ∈ l → P x ↔ Q x) → filter P l = filter Q l.
Proof.
  induction l as [|x l IH]; intros Hext; [done|].
  rewrite !filter_cons, IH by (intros y Hy; apply Hext; by right).
  destruct (decide (P x)) as [HP|HP], (decide (Q x)) as [HQ|HQ]; try done;
    apply Hext in HP || apply Hext in HQ; done || by left.
Qed.

Section sheet_rows.
Variable str_to_number : string → option Z.
Variables (class_col lesson_col item_col qty_col : string).
Variables (size_col uom_col : option string).
Variable df : DataFrame.
Hypothesis Hwf : well_formed df.
Hypothesis Hvalid :
  valid_mapping (columns df) class_col lesson_col item_col qty_col size_col uom_col.

Local Abbreviation cols := (columns df).
Local Abbreviation clean := (cleaned df class_col lesson_col item_col).
Local Abbreviation opts := (optional_cols (columns df) size_col uom_col).
Local Abbreviation keys3 := (aggregated_keys df class_col lesson_col item_col).
Local Abbreviation row_of :=
  (aggregated_row str_to_number df class_col lesson_col item_col qty_col opts).
Local Abbreviation cols2 := ([class_col; lesson_col; item_col; qty_col] ++ opts).
Local Abbreviation rows2 := (row_of <$> keys3).
Local Abbreviation sheet_keys_ :=
  (sheet_keys str_to_number df class_col lesson_col item_col qty_col opts).
Local Abbreviation sheet_groups_ :=
  (sheet_groups str_to_number df class_col lesson_col item_col qty_col opts).
Local Abbreviation total_of k3 :=
  (sum_Z ((λ r, coerced str_to_number (cell_of cols r qty_col))
            <$> group_of df class_col lesson_col item_col k3)).

Lemma keys3_shape k3 :
  k3 ∈ keys3 →
  ∃ r, r ∈ clean
    ∧ k3 = [cell_of cols r class_col; cell_of cols r lesson_col;
            cell_of cols r item_col]
    ∧ Forall (λ v, v ≠ NaN) k3.
Proof.
  intros (r & Hr & <-)%aggregated_keys_elem. exists r. split_and!; [done..|].
  by apply list_elem_of_filter in Hr as [Hr _].
Qed.

(** The cells of an aggregated record. *)
Lemma row_of_cells a b c :
  let row := row_of [a; b; c] in
  iloc row 0 = a ∧ iloc row 1 = b ∧ iloc row 2 = c
  ∧ iloc row 3 = Num (total_of [a; b; c]).
Proof. done. Qed.

(** The records of the sheet of key [k]. *)
Lemma group_rows_rows2 k :
  group_rows [0; 1] k rows2
  = row_of <$> filter (λ k3, [iloc k3 0; iloc k3 1] = k) keys3.
Proof.
  unfold group_rows. rewrite filter_fmap. f_equal.
  apply filter_ext_in. intros k3 (r & _ & -> & _)%keys3_shape. done.
Qed.

(** The rows of a sheet are, in another order, the item, the quantity and
    the optional cells of the records of its key. *)
Lemma sheet_body k g s :
  columns g = cols2 →
  sheet_of_group item_col qty_col size_col uom_col (k, g) s →
  sheet_name s = safe_sheet_name (str (iloc k 0) +:+ " - " +:+ str (iloc k 1))
  ∧ ∃ locs', body s ≡ₚ key_of (2 :: 3 :: locs') <$> rows g.
Proof.
  intros Hg (sel & sorted & Hsel & Hsorted & ->). cbn [fst snd] in *.
  split; [done|].
  destruct (out_cols_df2 _ _ _ _ _ _ _ Hvalid g Hg) as (rest & Hout & _).
  destruct (valid_mapping_distinct _ _ _ _ _ _ _ Hvalid)
    as (Hcl & Hci & Hcq & Hli & Hlq & Hiq).
  unfold getitem_list in Hsel. rewrite Hout, Hg in Hsel.
  destruct (get_locs _ cols2) as [locs|] eqn:Hlocs; [|done].
  injection Hsel as <-.
  apply get_locs_inv in Hlocs.
  apply Forall2_cons_inv_l in Hlocs as (j1 & locs1 & Hj1 & Hlocs & ->).
  apply Forall2_cons_inv_l in Hlocs as (j2 & locs' & Hj2 & _ & ->).
  cbn [app get_loc] in Hj1, Hj2.
  rewrite (decide_False (P := item_col = class_col)) in Hj1 by done.
  rewrite (decide_False (P := item_col = lesson_col)) in Hj1 by done.
  rewrite (decide_True (P := item_col = item_col)) in Hj1 by done.
  rewrite (decide_False (P := qty_col = class_col)) in Hj2 by done.
  rewrite (decide_False (P := qty_col = lesson_col)) in Hj2 by done.
  rewrite (decide_False (P := qty_col = item_col)) in Hj2 by done.
  rewrite (decide_True (P := qty_col = qty_col)) in Hj2 by done.
  simplify_eq/=.
  apply sort_values_Ok in Hsorted as (j & _ & _ & ->). cbn [rows].
  exists locs'. apply sort_rows_perm.
Qed.

(** The sheets of a workbook returned, with their keys. *)
Lemma workbook_sheets wb :
  make_output_excel str_to_number class_col lesson_col item_col qty_col
    size_col uom_col df = Ok wb →
  ∃ sheets index,
    wb = sheets ++ [index] ∧ sheet_name index = "INDEX"
    ∧ Forall2 (λ k s,
         sheet_name s = safe_sheet_name (str (iloc k 0) +:+ " - " +:+ str (iloc k 1))
         ∧ ∃ locs', body s
             ≡ₚ key_of (2 :: 3 :: locs')
                  <$> (row_of <$> filter (λ k3, [iloc k3 0; iloc k3 1] = k) keys3))
       sheet_keys_ sheets.
Proof.
  intros (df2 & groups & sheets & Hagg & Hgroups & Hsheets & Hne & ->)%make_output_excel_Ok.
  rewrite aggregate_eq in Hagg by done. injection Hagg as <-.
  rewrite groupby_df2 in Hgroups by done. injection Hgroups as <-.
  eexists sheets, _. split_and!; [done..|].
  unfold sheet_groups in Hsheets. rewrite Forall2_fmap_l in Hsheets.
  eapply Forall2_impl; [exact Hsheets|]. intros k s Hs.
  unfold compose in Hs.
  apply sheet_body in Hs; [|done]. cbn [rows] in Hs.
  unfold aggregated_frame in Hs. cbn [rows] in Hs.
  by rewrite group_rows_rows2 in Hs.
Qed.
End sheet_rows.

Lemma Forall2_incl_l {A B} (R : A → B → Prop) (l0 l : list A) (k : list B) :
  Forall2 R l k → (∀ x, x ∈ l → x ∈ l0) →
  Forall2 (λ x y, x ∈ l0 ∧ R x y) l k.
Proof.
  induction 1 as [|x y l k HR _ IH]; intros Hincl; constructor.
  - split; [apply Hincl; left|done].
  - apply IH. intros z Hz. apply Hincl. by right.
Qed.

Lemma Forall2_elem_of_l_strong {A B} (R : A → B → Prop) (l : list A) (k : list B) :
  Forall2 R l k → Forall2 (λ x y, x ∈ l ∧ R x y) l k.
Proof. intros H. by apply Forall2_incl_l. Qed.

Section workbook_theorems.
Variable str_to_number : string → option Z.
Variables (class_col lesson_col item_col qty_col : string).
Variables (size_col uom_col : option string).
Variable df : DataFrame.

Local Abbreviation cols := (columns df).
Local Abbreviation clean := (cleaned df class_col lesson_col item_col).
Local Abbreviation opts := (optional_cols (columns df) size_col uom_col).
Local Abbreviation keys3 := (aggregated_keys df class_col lesson_col item_col).
Local Abbreviation row_of :=
  (aggregated_row str_to_number df class_col lesson_col item_col qty_col opts).
Local Abbreviation sheet_keys_ :=
  (sheet_keys str_to_number df class_col lesson_col item_col qty_col opts).
Local Abbreviation quantity r := (coerced str_to_number (cell_of cols r qty_col)).
Local Abbreviation make_output_excel_ :=
  (make_output_excel str_to_number class_col lesson_col item_col qty_col
     size_col uom_col).


End workbook_theorems.

(** ** The outcomes of [make_output_excel] *)

Lemma mixed_ext (l1 l2 : list cell) :
  (∀ v, v ∈ l1 ↔ v ∈ l2) → mixed l1 = mixed l2.
Proof.
  intros Hext. destruct (mixed l2) eqn:H2.
  - destruct (mixed l1) eqn:H1; [done|].
    rewrite (mixed_incl l2 l1) in H2; [done| |done]. intros v. apply Hext.
  - apply (mixed_incl l1 l2); [|done]. intros v. apply Hext.
Qed.

Section outcomes.
Variable str_to_number : string → option Z.
Variables (class_col lesson_col item_col qty_col : string).
Variables (size_col uom_col : option string).
Variable df : DataFrame.
Hypothesis Hwf : well_formed df.
Hypothesis Hvalid :
  valid_mapping (columns df) class_col lesson_col item_col qty_col size_col uom_col.

Local Abbreviation cols := (columns df).
Local Abbreviation clean := (cleaned df class_col lesson_col item_col).
Local Abbreviation opts := (optional_cols (columns df) size_col uom_col).
Local Abbreviation keys3 := (aggregated_keys df class_col lesson_col item_col).
Local Abbreviation row_of :=
  (aggregated_row str_to_number df class_col lesson_col item_col qty_col opts).
Local Abbreviation cols2 := ([class_col; lesson_col; item_col; qty_col] ++ opts).
Local Abbreviation rows2 := (row_of <$> keys3).
Local Abbreviation sheet_keys_ :=
  (sheet_keys str_to_number df class_col lesson_col item_col qty_col opts).
Local Abbreviation items := (sheet_items df class_col lesson_col item_col).
Local Abbreviation group_ k :=
  (k%list, mkDataFrame cols2 (group_rows [0; 1] k%list rows2)).
Local Abbreviation write_groups_ := (write_groups item_col qty_col size_col uom_col).
Local Abbreviation sheet_of_group_ := (sheet_of_group item_col qty_col size_col uom_col).

(** The items of the records of a sheet are those of its cleaned rows. *)
Lemma group_items k v :
  v ∈ (λ row, iloc row 2) <$> group_rows [0; 1] k rows2 ↔ v ∈ items k.
Proof.
  unfold sheet_items. rewrite (group_rows_rows2 str_to_number), !list_elem_of_fmap.
  split.
  - intros (row & -> & (k3 & -> & Hk3)%list_elem_of_fmap).
    apply list_elem_of_filter in Hk3 as [Hk Hk3].
    destruct (keys3_shape _ _ _ _ _ Hk3) as (r & Hr & -> & _).
    exists r. split; [done|]. by apply list_elem_of_filter.
  - intros (r & -> & [Hk Hr]%list_elem_of_filter).
    exists (row_of (triple df class_col lesson_col item_col r)). split; [done|].
    apply list_elem_of_fmap. eexists. split; [done|].
    apply list_elem_of_filter. split; [done|]. apply aggregated_keys_elem. eauto.
Qed.

(** One turn of the loop: the sheet is written, unless the items of the
    class and lesson are both integers and texts. *)
Lemma write_group_outcome k :
  if mixed (items k)
  then ∀ index_rows w,
         write_group item_col qty_col size_col uom_col index_rows (group_ k) w
         = (Raise TypeError, w)
  else ∃ s, sheet_of_group_ (group_ k) s.
Proof.
  set (g := mkDataFrame cols2 (group_rows [0; 1] k rows2)).
  destruct (out_cols_df2 _ _ _ _ _ _ _ Hvalid g eq_refl) as (rest & Hout & Hrest).
  destruct (valid_mapping_distinct _ _ _ _ _ _ _ Hvalid)
    as (Hcl & Hci & Hcq & Hli & Hlq & Hiq).
  assert (Forall (λ x, x ≠ item_col) rest) as Hrest_item.
  { eapply Forall_impl; [exact Hrest|].
    intros x [Hx _]%(optional_outside _ _ _ _ _ _ _ Hvalid) ->.
    apply Hx. rewrite !elem_of_cons. tauto. }
  assert (get_loc item_col cols2 = Some 2) as Hitem.
  { cbn [app get_loc]. rewrite (decide_False (P := item_col = class_col)) by done.
    rewrite (decide_False (P := item_col = lesson_col)) by done.
    by rewrite (decide_True (P := item_col = item_col)). }
  assert (Forall (λ c, c ∈ columns g) (out_cols_of item_col qty_col size_col uom_col g))
    as Hin.
  { rewrite Hout. cbn [columns g]. repeat apply Forall_cons_2.
    - rewrite !elem_of_app, !elem_of_cons. tauto.
    - rewrite !elem_of_app, !elem_of_cons. tauto.
    - eapply Forall_impl; [exact Hrest|]. intros x ?. rewrite elem_of_app. tauto. }
  destruct (get_locs_ok _ _ Hin) as (locs & Hlocs & Hlocs2).
  rewrite Hout in Hlocs2.
  apply Forall2_cons_inv_l in Hlocs2 as (j & locs' & Hj & _ & ->).
  cbn [columns g] in Hj. rewrite Hitem in Hj. injection Hj as <-.
  set (sel := mkDataFrame (out_cols_of item_col qty_col size_col uom_col g)
                (key_of (2 :: locs') <$> rows g)).
  assert (getitem_list (out_cols_of item_col qty_col size_col uom_col g) g = Ok sel)
    as Hsel by (unfold getitem_list; by rewrite Hlocs).
  assert (sort_values item_col sel
          = if mixed (items k) then Raise TypeError
            else Ok (mkDataFrame (columns sel) (sort_rows [0] (rows sel)))) as Hsort.
  { unfold sort_values. cbn [columns rows sel]. rewrite Hout.
    rewrite filter_cons_True by done.
    rewrite filter_cons_False by done.
    rewrite filter_none by done.
    cbn [get_locs get_loc]. rewrite (decide_True (P := item_col = item_col)) by done.
    cbn [result_bind].
    rewrite (mixed_ext _ (items k)); [done|]. intros v.
    rewrite <- group_items, <- list_fmap_compose. cbn [rows g].
    rewrite (list_fmap_ext _ (λ row, iloc row 2) (group_rows [0; 1] k rows2)); [done|].
    intros _ row _. unfold compose, cell_of. cbn [get_loc].
    by rewrite (decide_True (P := item_col = item_col)). }
  destruct (mixed (items k)).
  - intros index_rows w. unfold write_group, wbind, wlift. fold g.
    by rewrite Hsel, Hsort.
  - eexists. exists sel. eexists. cbn [fst snd]. fold g. by split_and!.
Qed.

(** The loop over the sheets: either every sheet is written, or the loop
    stops with [TypeError] at the first class and lesson whose items are
    of both kinds, after the sheets of the keys before it. *)
Lemma write_groups_outcome ks :
  (Forall (λ k, mixed (items k) = false) ks
   ∧ ∃ sheets, Forall2 sheet_of_group_ ((λ k, group_ k) <$> ks) sheets)
  ∨ ∃ pre k post, ks = pre ++ k :: post
      ∧ Forall (λ k, mixed (items k) = false) pre
      ∧ mixed (items k) = true
      ∧ ∀ index_rows w, ∃ sheets,
          length sheets = length pre
          ∧ write_groups_ index_rows ((λ k, group_ k) <$> ks) w
            = (Raise TypeError, w ++ sheets).
Proof.
  induction ks as [|k ks IH].
  - left. split; [done|]. by exists [].
  - pose proof (write_group_outcome k) as Hk.
    destruct (mixed (items k)) eqn:Hmixed.
    + right. exists [], k, ks. split_and!; [done..|].
      intros index_rows w. exists []. split; [done|].
      rewrite fmap_cons. cbn [write_groups]. unfold wbind at 1.
      by rewrite Hk, app_nil_r.
    + destruct Hk as [s Hs].
      destruct IH as [[Hall [sheets Hsheets]]
                     |(pre & k' & post & -> & Hpre & Hk' & Hw)].
      * left. split; [by constructor|]. exists (s :: sheets). by constructor.
      * right. exists (k :: pre), k', post. split_and!; [done|by constructor|done|].
        intros index_rows w.
        destruct (Hw (index_rows ++ [index_row_of k s]) (w ++ [s]))
          as (sheets & Hlen & Heq).
        exists (s :: sheets). split; [simpl; lia|].
        rewrite fmap_cons. cbn [write_groups]. unfold wbind at 1.
        rewrite (write_group_sheet _ _ _ _ _ _ _ _ Hs). cbn [fst].
        by rewrite Heq, <- app_assoc.
Qed.
End outcomes.

Section outcome_theorem.
Variable str_to_number : string → option Z.
Variables (class_col lesson_col item_col qty_col : string).
Variables (size_col uom_col : option string).
Variable df : DataFrame.

Local Abbreviation cols := (columns df).
Local Abbreviation clean := (cleaned df class_col lesson_col item_col).
Local Abbreviation items := (sheet_items df class_col lesson_col item_col).

End outcome_theorem.

(** *** An optional column that is the item column *)

Lemma insert_inaxis_grouper_elem by_ cols x :
  x ∈ insert_inaxis_grouper by_ cols ↔ x ∈ by_ ∨ x ∈ cols.
Proof.
  unfold insert_inaxis_grouper. revert x.
  induction by_ as [|name by_ IH]; intros x; simpl.
  - rewrite elem_of_nil. tauto.
  - case_decide as Hin; rewrite ?elem_of_cons, IH, ?elem_of_cons.
    + apply IH in Hin. split; [tauto|]. intros [[->|?]|?]; tauto.
    + tauto.
Qed.

Lemma elem_of_keys_set {V} (k' k : string) (v : V) d :
  k' ∈ PyDict.keys (PyDict.set k v d) ↔ k' = k ∨ k' ∈ PyDict.keys d.
Proof.
  unfold PyDict.keys. induction d as [|[k0 v0] d IH]; simpl.
  - rewrite elem_of_cons, elem_of_nil. tauto.
  - case_decide as Hk; simpl; rewrite !elem_of_cons, ?IH.
    + subst k0. tauto.
    + tauto.
Qed.

Section optional_item.
Variable str_to_number : string → option Z.
Variables (class_col lesson_col item_col qty_col : string).
Variables (size_col uom_col : option string).

Local Abbreviation aggregate_ :=
  (aggregate str_to_number class_col lesson_col item_col qty_col size_col uom_col).

(** The aggregation goes through when the four required columns exist,
    and its result has these columns and the optional columns given. *)
Lemma aggregate_columns df :
  Forall (λ c, c ∈ columns df) [class_col; lesson_col; item_col; qty_col] →
  ∃ df2, aggregate_ df = Ok df2
    ∧ ∀ x, x ∈ columns df2 ↔
           x ∈ [class_col; lesson_col; item_col; qty_col]
           ∨ given_in size_col (columns df) = Some x
           ∨ given_in uom_col (columns df) = Some x.
Proof.
  intros Hin. pose proof Hin as Hin'. rewrite !Forall_cons in Hin'.
  destruct Hin' as (Hc & Hl & Hi & Hq & _).
  unfold aggregate. rewrite dropna_ok by (repeat constructor; done).
  cbn [result_bind]. unfold getitem. cbn [columns].
  destruct (get_loc_elem _ _ Hq) as [jq Hjq]. rewrite Hjq. cbn [result_bind].
  unfold setitem. cbn [columns]. rewrite Hjq. cbn [columns].
  unfold groupby_agg, groupby. cbn [columns].
  destruct (get_locs_ok [class_col; lesson_col; item_col] (columns df))
    as (locs & -> & _); [repeat constructor; done|].
  cbn [result_bind]. eexists. split; [reflexivity|]. cbn [columns].
  intros x. rewrite insert_inaxis_grouper_elem, !elem_of_cons, !elem_of_nil.
  destruct (given_in size_col (columns df)) as [s|],
           (given_in uom_col (columns df)) as [u|];
    rewrite ?elem_of_keys_set; unfold PyDict.keys; simpl;
    rewrite ?elem_of_cons, ?elem_of_nil; naive_solver.
Qed.

(** A sheet whose columns name the item column twice is not written. *)
Lemma write_group_item_twice index_rows k g w :
  item_col ∈ columns g → qty_col ∈ columns g →
  given_in size_col (columns g) = Some item_col
  ∨ given_in uom_col (columns g) = Some item_col →
  write_group item_col qty_col size_col uom_col index_rows (k, g) w
  = (Raise ValueError, w).
Proof.
  intros Hi Hq Hopt. unfold write_group, wbind, wlift.
  set (out_cols := out_cols_of item_col qty_col size_col uom_col g).
  assert (Forall (λ c, c ∈ columns g) out_cols) as Hin.
  { unfold out_cols, out_cols_of. repeat apply Forall_cons_2; [done..|].
    apply Forall_app. split.
    - destruct (given_in size_col (columns g)) as [s|] eqn:Hs; [|constructor].
      apply given_in_Some in Hs as (_ & _ & ?). by repeat constructor.
    - destruct (given_in uom_col (columns g)) as [u|] eqn:Hu; [|constructor].
      apply given_in_Some in Hu as (_ & _ & ?). by repeat constructor. }
  unfold getitem_list. destruct (get_locs_ok _ _ Hin) as (locs & -> & _).
  cbn [result_bind]. unfold sort_values. cbn [columns rows].
  assert (∃ a b rest, filter (λ c', c' = item_col) out_cols = a :: b :: rest)
    as (a & b & rest & ->); [|done].
  unfold out_cols, out_cols_of. cbn [app]. rewrite filter_cons_True by done.
  assert (item_col ∈ filter (λ c', c' = item_col)
            (qty_col :: match given_in size_col (columns g) with
                        | Some c => [c]
                        | None => []
                        end
                        ++ match given_in uom_col (columns g) with
                           | Some c => [c]
                           | None => []
                           end)) as Hfilter.
  { apply list_elem_of_filter. split; [done|]. right. apply elem_of_app.
    destruct Hopt as [-> | ->]; [left|right]; left. }
  destruct (filter _ (qty_col :: _)) as [|b rest]; [by apply elem_of_nil in Hfilter|].
  eauto.
Qed.

(** X24 — when the item column is also chosen as the size or as the unit
    column, [make_output_excel] never returns a workbook: for every table
    with the four required columns the first sheet names the item column
    twice, cannot be sorted by it, and the book without a sheet cannot be
    saved, which raises [IndexError]. *)
Theorem item_column_as_optional (df : DataFrame) :
  Forall (λ c, c ∈ columns df) [class_col; lesson_col; item_col; qty_col] →
  item_col ≠ "" →
  size_col = Some item_col ∨ uom_col = Some item_col →
  make_output_excel str_to_number class_col lesson_col item_col qty_col
    size_col uom_col df
  = Raise IndexError.
Proof.
  intros Hin Hne Hopt. unfold make_output_excel.
  destruct (aggregate_columns df Hin) as (df2 & -> & Hcols). cbn [result_bind].
  assert (∀ x, x ∈ [class_col; lesson_col; item_col; qty_col] → x ∈ columns df2)
    as Hreq by (intros x Hx; apply Hcols; auto).
  unfold with_ExcelWriter, write_workbook, wbind, wlift, groupby.
  destruct (get_locs_ok [class_col; lesson_col] (columns df2)) as (locs & -> & _).
  { repeat constructor; apply Hreq; rewrite !elem_of_cons; tauto. }
  cbn [result_bind].
  destruct (group_keys locs (rows df2)) as [|k ks]; [done|].
  rewrite fmap_cons. cbn [write_groups]. unfold wbind.
  rewrite write_group_item_twice; [done|cbn [columns]..].
  - apply Hreq. rewrite !elem_of_cons. tauto.
  - apply Hreq. rewrite !elem_of_cons. tauto.
  - assert (item_col ∈ columns df2) as Hi
      by (apply Hreq; rewrite !elem_of_cons; tauto).
    destruct Hopt as [-> | ->]; [left|right]; by apply given_in_Some.
Qed.
End optional_item.

(** *** An optional column that is the quantity column *)

Lemma cell_of_triple (c l i : string) (a b d : cell) :
  c ≠ l → c ≠ i → l ≠ i →
  cell_of [c; l; i] [a; b; d] c = a
  ∧ cell_of [c; l; i] [a; b; d] l = b
  ∧ cell_of [c; l; i] [a; b; d] i = d.
Proof.
  intros Hcl Hci Hli. unfold cell_of. cbn [get_loc].
  rewrite (decide_True (P := c = c)) by done.
  rewrite (decide_False (P := l = c)) by done.
  rewrite (decide_True (P := l = l)) by done.
  rewrite (decide_False (P := i = c)) by done.
  rewrite (decide_False (P := i = l)) by done.
  rewrite (decide_True (P := i = i)) by done.
  done.
Qed.

Section optional_quantity.
Variable str_to_number : string → option Z.
Variables (class_col lesson_col item_col qty_col : string).
Variable uom_col : option string.
Variable df : DataFrame.

Local Abbreviation cols := (columns df).
Local Abbreviation clean := (cleaned df class_col lesson_col item_col).
Local Abbreviation keys3 := (aggregated_keys df class_col lesson_col item_col).
Local Abbreviation triple_ d := (triple d class_col lesson_col item_col).

(** X25 — when the quantity column is also chosen as the size column, the
    quantities are not added up any more: the aggregation ["first"] takes
    the place of ["sum"], and the record of every triple carries the
    coerced quantity of the first cleaned row of the triple. *)
Theorem quantity_column_as_size :
  well_formed df →
  Forall (λ c, c ∈ cols) [class_col; lesson_col; item_col; qty_col] →
  NoDup [class_col; lesson_col; item_col; qty_col] →
  qty_col ≠ "" →
  (∀ u, uom_col = Some u → u ∉ [class_col; lesson_col; item_col; qty_col]) →
  ∃ df2,
    aggregate str_to_number class_col lesson_col item_col qty_col
      (Some qty_col) uom_col df = Ok df2
    ∧ ∀ r, r ∈ clean →
        ∃ row first rest,
          row ∈ rows df2 ∧ triple_ df2 row = triple_ df r
          ∧ group_of df class_col lesson_col item_col (triple_ df r) = first :: rest
          ∧ cell_of (columns df2) row qty_col
            = Num (coerced str_to_number (cell_of cols first qty_col)).
Proof.
  intros [Hnd Hlen] Hin Hdistinct Hne Huom.
  rewrite !NoDup_cons, !not_elem_of_cons in Hdistinct.
  destruct Hdistinct as ((Hcl & Hci & Hcq & _) & (Hli & Hlq & _) & (Hiq & _) & _).
  pose proof Hin as Hin'. rewrite !Forall_cons in Hin'.
  destruct Hin' as (Hc & Hl & Hi & Hq & _).
  destruct (get_loc_elem _ _ Hc) as [ic Hic].
  destruct (get_loc_elem _ _ Hl) as [il Hil].
  destruct (get_loc_elem _ _ Hi) as [ii Hii].
  destruct (get_loc_elem _ _ Hq) as [iq Hiq'].
  assert (ic ≠ iq) by (intros ->; eauto using get_loc_inj).
  assert (il ≠ iq) by (intros ->; eauto using get_loc_inj).
  assert (ii ≠ iq) by (intros ->; eauto using get_loc_inj).
  unfold aggregate.
  rewrite dropna_cleaned by (by repeat constructor). cbn [result_bind].
  unfold getitem. cbn [columns rows]. rewrite Hiq'. cbn [result_bind].
  unfold setitem. cbn [columns rows]. rewrite Hiq'. cbn [columns].
  rewrite <- !list_fmap_compose, zip_with_fmap_same.
  change (_ <$> clean) with (coerce_row str_to_number iq <$> clean).
  assert (given_in (Some qty_col) cols = Some qty_col) as ->
    by by apply given_in_Some.
  cbn [PyDict.set]. rewrite (decide_True (P := qty_col = qty_col)) by done.
  set (agg := match given_in uom_col cols with
              | Some c => PyDict.set c AggFirst [(qty_col, AggFirst)]
              | None => [(qty_col, AggFirst)]
              end).
  assert (PyDict.get qty_col agg = Some AggFirst) as Hget_q.
  { unfold agg. destruct (given_in uom_col cols).
    - rewrite get_set. case_decide; [done|]. cbn [PyDict.get].
      by rewrite decide_True.
    - cbn [PyDict.get]. by rewrite decide_True. }
  assert (∀ x, x ∈ [class_col; lesson_col; item_col] → PyDict.get x agg = None)
    as Hget_key.
  { intros x Hx.
    assert (x ≠ qty_col) as Hxq
      by (rewrite !elem_of_cons, elem_of_nil in Hx; naive_solver).
    unfold agg. destruct (given_in uom_col cols) as [u|] eqn:Hu.
    - apply given_in_Some in Hu as (Hu & _). rewrite get_set.
      rewrite decide_False.
      + cbn [PyDict.get]. by rewrite decide_False.
      + intros ->. apply (Huom _ Hu). rewrite !elem_of_cons in *. tauto.
    - cbn [PyDict.get]. by rewrite decide_False. }
  unfold groupby_agg, groupby. cbn [columns rows get_locs].
  rewrite Hic, Hil, Hii. cbn [result_bind].
  set (cols2 := insert_inaxis_grouper _ _).
  assert (∀ x, x ∈ [class_col; lesson_col; item_col; qty_col] → x ∈ cols2) as Hcols2.
  { intros x Hx. apply insert_inaxis_grouper_elem.
    rewrite !elem_of_cons, elem_of_nil in Hx.
    destruct Hx as [->|[->|[->|[->|[]]]]];
      [left; rewrite !elem_of_cons; tauto..|right].
    unfold agg. destruct (given_in uom_col cols).
    - apply elem_of_keys_set. right. left.
    - left. }
  assert (∀ r, key_of [ic; il; ii] (coerce_row str_to_number iq r) = triple_ df r)
    as Hkey.
  { intros r. unfold key_of, triple, coerce_row, cell_of. simpl.
    rewrite Hic, Hil, Hii. by rewrite !iloc_insert_ne by done. }
  assert (group_keys [ic; il; ii] (coerce_row str_to_number iq <$> clean) = keys3)
    as Hkeys.
  { unfold group_keys, aggregated_keys. do 2 f_equal.
    rewrite <- list_fmap_compose.
    rewrite (list_fmap_ext _ (triple_ df) clean) by (intros; apply Hkey).
    apply filter_all. apply Forall_fmap, Forall_forall.
    by intros r [? _]%list_elem_of_filter. }
  rewrite Hkeys, <- list_fmap_compose.
  eexists. split; [reflexivity|]. cbn [rows columns].
  intros r Hr.
  assert (triple_ df r ∈ keys3) as Hk by (apply aggregated_keys_elem; eauto).
  set (k := triple_ df r) in *.
  assert (r ∈ group_of df class_col lesson_col item_col k) as Hgroup
    by (by apply list_elem_of_filter).
  destruct (group_of df class_col lesson_col item_col k) as [|first rest] eqn:Hg;
    [by apply elem_of_nil in Hgroup|].
  eexists _, first, rest. split_and!.
  - apply list_elem_of_fmap. exists k. split; [reflexivity|done].
  - unfold compose. cbn [columns rows]. unfold triple at 1. cbn [columns].
    rewrite !fmap_cons.
    rewrite !(cell_of_fmap cols2) by (apply Hcols2; rewrite !elem_of_cons; tauto).
    rewrite !Hget_key by (rewrite !elem_of_cons; tauto).
    unfold k, triple. rewrite !fmap_cons.
    destruct (cell_of_triple class_col lesson_col item_col
                (cell_of cols r class_col) (cell_of cols r lesson_col)
                (cell_of cols r item_col) Hcl Hci Hli) as (Ha & Hb & Hd).
    change (cell_of cols r <$> []) with (@nil cell).
    by rewrite Ha, Hb, Hd.
  - done.
  - unfold compose. cbn [columns rows].
    rewrite (cell_of_fmap cols2) by (apply Hcols2; rewrite !elem_of_cons; tauto).
    rewrite Hget_q.
    assert (group_rows [ic; il; ii] k (coerce_row str_to_number iq <$> clean)
            = coerce_row str_to_number iq <$> (first :: rest)) as ->.
    { rewrite <- Hg. unfold group_rows, group_of. rewrite filter_fmap. f_equal.
      apply list_filter_iff. intros r'. by rewrite Hkey. }
    rewrite fmap_cons. cbn [agg_apply fmap list_fmap List.find].
    assert (cell_of cols (coerce_row str_to_number iq first) qty_col
            = Num (coerced str_to_number (cell_of cols first qty_col))) as ->; [|done].
    unfold cell_of. rewrite Hiq'. unfold coerce_row.
    rewrite iloc_insert_eq; [apply fillna_to_numeric|].
    assert (first ∈ clean) as Hfirst.
    { assert (first ∈ group_of df class_col lesson_col item_col k) as Hf
        by (rewrite Hg; left).
      by apply list_elem_of_filter in Hf as [_ ?]. }
    apply list_elem_of_filter in Hfirst as [_ Hfirst].
    rewrite Forall_forall in Hlen. rewrite (Hlen _ Hfirst). by eapply get_loc_lt.
Qed.
End optional_quantity.

(** ** What the workbook depends on *)

Lemma Forall2_filter {A B} (R : A → B → Prop) (P : A → Prop) (Q : B → Prop)
    `{∀ x, Decision (P x)} `{∀ y, Decision (Q y)} (l : list A) (k : list B) :
  (∀ x y, R x y → P x ↔ Q y) →
  Forall2 R l k → Forall2 R (filter P l) (filter Q k).
Proof.
  intros HPQ. induction 1 as [|x y l k HR _ IH]; [constructor|].
  rewrite !filter_cons. specialize (HPQ _ _ HR).
  destruct (decide (P x)), (decide (Q y)); try tauto. by constructor.
Qed.

Lemma Forall2_fmap_eq {A B C} (R : A → B → Prop) (f : A → C) (g : B → C)
    (l : list A) (k : list B) :
  (∀ x y, R x y → f x = g y) → Forall2 R l k → f <$> l = g <$> k.
Proof.
  intros Hfg. induction 1 as [|x y l k HR _ IH]; [done|].
  by rewrite !fmap_cons, IH, (Hfg _ _ HR).
Qed.

Lemma given_in_ext o cols cols' :
  (∀ c, o = Some c → c ∈ cols ↔ c ∈ cols') → given_in o cols = given_in o cols'.
Proof.
  intros H. unfold given_in. destruct o as [x|]; [|done].
  by rewrite (bool_decide_ext (x ∈ cols) (x ∈ cols')) by by apply H.
Qed.

Section frame.
Variable str_to_number : string → option Z.
Variables (class_col lesson_col item_col qty_col : string).
Variables (size_col uom_col : option string).
Variables (df df' : DataFrame).

Local Abbreviation mapped c :=
  (c ∈ [class_col; lesson_col; item_col; qty_col]
   ∨ size_col = Some c ∨ uom_col = Some c).
Local Abbreviation same_cells :=
  (λ r r', ∀ c, mapped c → cell_of (columns df) r c = cell_of (columns df') r' c).

Hypothesis Hopt : ∀ c, size_col = Some c ∨ uom_col = Some c →
                       c ∈ columns df ↔ c ∈ columns df'.
Hypothesis Hrows : Forall2 same_cells (rows df) (rows df').

Lemma same_cells_triple r r' :
  same_cells r r' →
  triple df class_col lesson_col item_col r
  = triple df' class_col lesson_col item_col r'.
Proof.
  intros H. unfold triple. rewrite !fmap_cons.
  rewrite !H by (left; rewrite !elem_of_cons; tauto). done.
Qed.

Lemma same_cells_cleaned :
  Forall2 same_cells (cleaned df class_col lesson_col item_col)
    (cleaned df' class_col lesson_col item_col).
Proof.
  unfold cleaned. eapply Forall2_filter; [|done].
  intros r r' H. by rewrite (same_cells_triple _ _ H).
Qed.

Lemma same_cells_group_of k :
  Forall2 same_cells (group_of df class_col lesson_col item_col k)
    (group_of df' class_col lesson_col item_col k).
Proof.
  unfold group_of. eapply Forall2_filter; [|apply same_cells_cleaned].
  intros r r' H. by rewrite (same_cells_triple _ _ H).
Qed.

Lemma same_optional_cols :
  optional_cols (columns df) size_col uom_col
  = optional_cols (columns df') size_col uom_col.
Proof.
  unfold optional_cols.
  rewrite (given_in_ext size_col (columns df) (columns df')) by (intros; auto).
  by rewrite (given_in_ext uom_col (columns df) (columns df')) by (intros; auto).
Qed.

Lemma same_aggregated_frame :
  aggregated_frame str_to_number df class_col lesson_col item_col qty_col
    (optional_cols (columns df) size_col uom_col)
  = aggregated_frame str_to_number df' class_col lesson_col item_col qty_col
      (optional_cols (columns df') size_col uom_col).
Proof.
  unfold aggregated_frame, aggregated_keys. rewrite <- same_optional_cols.
  rewrite (Forall2_fmap_eq _ _ _ _ _ same_cells_triple same_cells_cleaned).
  f_equal. apply list_fmap_ext. intros _ k _. unfold aggregated_row.
  f_equal. f_equal.
  - do 2 f_equal.
    apply (Forall2_fmap_eq same_cells); [|apply same_cells_group_of].
    intros r r' H. rewrite H; [done|]. left. rewrite !elem_of_cons. tauto.
  - apply list_fmap_ext. intros _ oc Hoc%list_elem_of_lookup_2. f_equal.
    apply (Forall2_fmap_eq same_cells); [|apply same_cells_group_of].
    intros r r' H. apply H. right.
    apply optional_cols_spec in Hoc as [Hoc|Hoc];
      apply given_in_Some in Hoc as (? & _); auto.
Qed.
End frame.

(** X21 — the workbook depends on the table through the chosen columns
    only: two tables in order whose rows agree, one by one, on the cells of
    the four required columns and of the optional columns given, and which
    have the same of these optional columns, give the same result, whatever
    other columns they have and wherever the columns stand. *)
Theorem unmapped_columns_ignored (str_to_number : string → option Z)
    (class_col lesson_col item_col qty_col : string)
    (size_col uom_col : option string) (df df' : DataFrame) :
  well_formed df → well_formed df' →
  valid_mapping (columns df) class_col lesson_col item_col qty_col size_col uom_col →
  valid_mapping (columns df') class_col lesson_col item_col qty_col size_col uom_col →
  (∀ c, size_col = Some c ∨ uom_col = Some c → c ∈ columns df ↔ c ∈ columns df') →
  Forall2 (λ r r', ∀ c, c ∈ [class_col; lesson_col; item_col; qty_col]
                        ∨ size_col = Some c ∨ uom_col = Some c →
                        cell_of (columns df) r c = cell_of (columns df') r' c)
    (rows df) (rows df') →
  make_output_excel str_to_number class_col lesson_col item_col qty_col
    size_col uom_col df
  = make_output_excel str_to_number class_col lesson_col item_col qty_col
      size_col uom_col df'.
Proof.
  intros Hwf Hwf' Hvalid Hvalid' Hopt Hrows. unfold make_output_excel.
  rewrite !aggregate_eq by done.
  by rewrite (same_aggregated_frame _ _ _ _ _ _ _ _ _ Hopt Hrows).
Qed.

(** *** The order of the keys *)

Lemma string_leb_trans (s t u : string) :
  String.leb s t = true → String.leb t u = true → String.leb s u = true.
Proof.
  unfold String.leb. revert t u.
  induction s as [|a s IH]; intros [|b t] [|c u]; simpl; try done.
  unfold Ascii.compare.
  destruct (N.compare_spec (N_of_ascii a) (N_of_ascii b)) as [Hab|Hab|Hab];
    destruct (N.compare_spec (N_of_ascii b) (N_of_ascii c)) as [Hbc|Hbc|Hbc];
    destruct (N.compare_spec (N_of_ascii a) (N_of_ascii c)) as [Hac|Hac|Hac];
    try done; try lia.
  apply IH.
Qed.

Lemma cell_leb_trans a b c :
  cell_leb a b = true → cell_leb b c = true → cell_leb a c = true.
Proof.
  destruct a as [|x|s], b as [|y|t], c as [|z|u]; simpl; try done.
  - rewrite !Z.leb_le. lia.
  - apply string_leb_trans.
Qed.

Lemma cell_leb_antisym a b :
  cell_leb a b = true → cell_leb b a = true → a = b.
Proof.
  destruct a as [|x|s], b as [|y|t]; simpl; try done.
  - rewrite !Z.leb_le. intros. f_equal. lia.
  - intros H1 H2. f_equal. by apply String.leb_antisym.
Qed.

Global Instance key_le_antisym : AntiSymm eq key_le.
Proof.
  intros k1. unfold key_le. induction k1 as [|a k1 IH]; intros [|b k2]; simpl; try done.
  destruct (decide (a = b)) as [->|Hne].
  - rewrite decide_True by done. intros H1 H2. f_equal. by apply IH.
  - rewrite decide_False by done. intros H1 H2.
    destruct Hne. by apply cell_leb_antisym.
Qed.

Global Instance key_le_trans : Transitive key_le.
Proof.
  intros k1. unfold key_le.
  induction k1 as [|a k1 IH]; intros [|b k2] [|c k3]; simpl; try done.
  destruct (decide (a = b)) as [->|Hab], (decide (b = c)) as [->|Hbc].
  - apply IH.
  - done.
  - rewrite decide_False by done. done.
  - intros H1 H2. destruct (decide (a = c)) as [->|Hac].
    + destruct Hab. by apply cell_leb_antisym.
    + by eapply cell_leb_trans.
Qed.

Lemma remove_dups_Permutation {A} `{EqDecision A} (l k : list A) :
  l ≡ₚ k → remove_dups l ≡ₚ remove_dups k.
Proof.
  intros H. apply NoDup_Permutation; [apply NoDup_remove_dups..|].
  intros x. by rewrite !elem_of_remove_dups, H.
Qed.


(** ** The page as a whole *)


(** ** The further properties at sample inputs *)

(** Headers in capitals and with spaces give the guess at the same place. *)
Lemma item_header_in_capitals :
  ∃ j, ["Class"; "Item"] !! j = Some "Item"
       ∧ [" CLASS "; "  ITEM"] !! j = Some "  ITEM".
Proof.
  exact (guess_col_header_variation ["Class"; "Item"] [" CLASS "; "  ITEM"]
           ["item"; "product"] eq_refl).
Defined.


(** The export loses its blank column and nothing else. *)
Lemma blank_column_dropped :
  well_formed (dropna_columns Uploads.with_blank)
  ∧ columns (dropna_columns Uploads.with_blank) = ["Class"; "Lesson"; "Item"; "Qty"]
  ∧ length (rows (dropna_columns Uploads.with_blank)) = 2.
Proof.
  destruct (dropna_columns_invariant Uploads.with_blank) as (Hwf & Hlen & _).
  - split; by_evaluation.
  - split_and!; [exact Hwf|reflexivity|exact Hlen].
Defined.

(** With three columns the page stops, whatever is chosen. *)
Lemma three_columns_stopped :
  ∃ message,
    page int_literal Uploads.three_columns "Class" "Lesson" "Item" "Item"
      "(none)" "(none)" = Stopped message.
Proof.
  apply page_needs_four_columns.
  - vm_compute. lia.
  - by_evaluation.
Defined.

(** The preview of the supplies shows the five rows under five columns. *)
Lemma supplies_preview :
  ∃ p, preview Samples.supplies "Class" "Lesson" "Item" "Qty" (Some "Size") None
       = Ok p
     ∧ columns p = ["Class"; "Lesson"; "Item"; "Qty"; "Size"]
     ∧ length (rows p) = 5.
Proof.
  destruct (preview_spec Samples.supplies "Class" "Lesson" "Item" "Qty"
              (Some "Size") None) as (p & Hp & Hcols & Hlen & _).
  - by_evaluation.
  - exists p. split_and!; [exact Hp|exact Hcols|exact Hlen].
Defined.

(** A quantity column that the table does not have. *)
Lemma pencils_without_quantity :
  make_output_excel int_literal "Class" "Lesson" "Item" "Quantity" None None
    Samples.pencils
  = Raise (KeyError ["Quantity"]).
Proof.
  apply (make_output_excel_missing_column int_literal "Class" "Lesson" "Item"
           "Quantity" None None Samples.pencils).
  by_evaluation.
Defined.





(** The room and the order of the columns make no difference. *)
Lemma supplies_wide_same :
  make_output_excel int_literal "Class" "Lesson" "Item" "Qty" (Some "Size")
    (Some "Unit") Samples.supplies
  = make_output_excel int_literal "Class" "Lesson" "Item" "Qty" (Some "Size")
      (Some "Unit") Uploads.supplies_wide.
Proof.
  apply unmapped_columns_ignored.
  - split; by_evaluation.
  - split; by_evaluation.
  - split_and!; [by_evaluation|by_evaluation|intros c [= <-]; by_evaluation..].
  - split_and!; [by_evaluation|by_evaluation|intros c [= <-]; by_evaluation..].
  - intros c [[= <-]|[= <-]]; split; intros H; revert H; by_evaluation.
  - repeat constructor; intros c Hc; rewrite !elem_of_cons in Hc;
      destruct Hc as [[->|[->|[->|[->|Hc]]]]|[[= <-]|[= <-]]];
      try reflexivity; by apply elem_of_nil in Hc.
Defined.



(** The item column of the supplies chosen as their size column. *)
Lemma supplies_item_as_size :
  make_output_excel int_literal "Class" "Lesson" "Item" "Qty" (Some "Item") None
    Samples.supplies
  = Raise IndexError.
Proof.
  apply item_column_as_optional.
  - by_evaluation.
  - discriminate.
  - left. reflexivity.
Defined.

(** The quantity column of the pencils chosen as their size column: the
    record carries 3, the quantity of the first row, and not 5. *)
Lemma pencils_quantity_as_size :
  ∃ df2,
    aggregate int_literal "Class" "Lesson" "Item" "Qty" (Some "Qty") None
      Samples.pencils = Ok df2
    ∧ ∃ row, row ∈ rows df2 ∧ cell_of (columns df2) row "Qty" = Num 3.
Proof.
  destruct (quantity_column_as_size int_literal "Class" "Lesson" "Item" "Qty" None
              Samples.pencils)
    as (df2 & Hagg & Hrows).
  - split; by_evaluation.
  - by_evaluation.
  - by_evaluation.
  - discriminate.
  - intros u Hu. discriminate Hu.
  - exists df2. split; [exact Hagg|].
    destruct (Hrows [Str "Math"; Str "L1"; Str "Pencil"; Str "3"])
      as (row & first & rest & Hrow & _ & Hg & Hq).
    + by_evaluation.
    + vm_compute in Hg. injection Hg as <- _.
      exists row. split; [exact Hrow|]. rewrite Hq. vm_compute. reflexivity.
Defined.

(** A class name of 34 characters: the lesson does not reach the title. *)
Lemma long_class_title :
  safe_sheet_name ("Introduction to Creative Robotics" +:+ " - " +:+ "Lesson 2")
  = "Introduction to Creative Roboti".
Proof.
  apply (safe_sheet_name_long_class "Introduction to Creative Robotics" "Lesson 2").
  vm_compute. lia.
Defined.
